(** * Conversation engine, persistent store and media acquisition of the
    download bot ([bot.py]): a shallow embedding and its properties.

    Python [str] values are sequences of Unicode code points, so they are
    embedded as [list N]; SQLite tables with a primary key are finite maps
    ([gmap]); handlers are computations in a state-and-exception monad whose
    state holds the store and the chronological record of every store method
    and transport call the handler made.

    What the embedding takes for granted:
    - updates are handled one at a time, each handler running to its end
      (the application is built without concurrent updates);
    - a transport call that the source does not guard with [try] returns;
      the guarded ones ([get_chat_member], the sends of a broadcast, the
      calls inside the [try] of the pipeline) raise when the world says so;
    - the external tools, the scratch folder and the transport are a world
      that answers each call from the calls made so far;
    - the texts of the catalog [TEXTS] are kept as their key and arguments,
      and a file size as its number of bytes;
    - at startup, the environment of the process is a finite map and the
      builtin [int] is given with it. *)

From Stdlib Require Import String Ascii ZArith NArith.
From stdpp Require Import gmap list sorting.

Local Open Scope Z_scope.

(** * Python strings *)

Module Text.

(** A [str] is a list of code points. *)
Abbreviation str := (list N).

(** UTF-8 decoding of a literal of this file into its code points;
    [acc] is the code point being assembled and [k] the number of
    continuation bytes still expected. *)
Fixpoint utf8 (s : string) (acc : N) (k : nat) : str :=
  match s with
  | EmptyString => []
  | String a s' =>
      let b := N_of_ascii a in
      match k with
      | O =>
          if (b <? 128)%N then b :: utf8 s' 0%N O
          else if (b <? 224)%N then utf8 s' (b - 192)%N 1%nat
          else if (b <? 240)%N then utf8 s' (b - 224)%N 2%nat
          else utf8 s' (b - 240)%N 3%nat
      | S k' =>
          let acc' := (acc * 64 + (b - 128))%N in
          match k' with
          | O => acc' :: utf8 s' 0%N O
          | S _ => utf8 s' acc' k'
          end
      end
  end.

Definition u (s : string) : str := utf8 s 0%N O.

(** [str.isspace] on one code point; it is also the class [\s] of [re]
    on [str] patterns and the set removed by [str.strip()]. *)
Definition isspace (c : N) : bool :=
  ((9 <=? c) && (c <=? 13) || (28 <=? c) && (c <=? 32)
   || (c =? 133) || (c =? 160) || (c =? 5760)
   || (8192 <=? c) && (c <=? 8202)
   || (c =? 8232) || (c =? 8233) || (c =? 8239) || (c =? 8287)
   || (c =? 12288))%N.

Fixpoint lstrip (s : str) : str :=
  match s with
  | c :: s' => if isspace c then lstrip s' else s
  | [] => []
  end.

Definition rstrip (s : str) : str := reverse (lstrip (reverse s)).

(** [s.strip()] *)
Definition strip (s : str) : str := rstrip (lstrip s).

(** [str.lower] on one code point.  The table holds every code point
    whose lower case contains a Basic Latin character or a letter of the
    basic Cyrillic block (U+0130 lowers to two code points, U+212A to
    [k]); the other code points are left as they are.  The engine only
    compares lowered text with words of these two alphabets, and such a
    comparison is decided by this table. *)
Definition lower_char (c : N) : str :=
  (if (65 <=? c) && (c <=? 90) then [c + 32]
   else if (1040 <=? c) && (c <=? 1071) then [c + 32]
   else if (1024 <=? c) && (c <=? 1039) then [c + 80]
   else if c =? 304 then [105; 775]
   else if c =? 8490 then [107]
   else [c])%N.

(** [s.lower()] *)
Definition lower (s : str) : str := concat (lower_char <$> s).

(** [needle in s] for two strings *)
Fixpoint contains (needle s : str) : bool :=
  bool_decide (take (length needle) s = needle)
  || match s with _ :: s' => contains needle s' | [] => false end.

(** [s[:n]] *)
Definition slice_to (n : nat) (s : str) : str := take n s.

End Text.

Import Text.

(** * URL extraction: [URL_RE = re.compile(r"https?://\S+", re.IGNORECASE)] *)

Module UrlRe.

(** A cased literal under [re.IGNORECASE]: [lo] is the lower-case ASCII
    letter of the pattern.  Besides the two cases of the letter, [re]
    lets [s] match U+017F (long s). *)
Definition literal_ignore (lo c : N) : bool :=
  ((c =? lo) || (c =? lo - 32) || (lo =? 115) && (c =? 383))%N.

(** Matching a sequence of one-character tests at the head of [s];
    the result is what follows the matched characters. *)
Fixpoint literals (ps : list (N → bool)) (s : str) : option str :=
  match ps with
  | [] => Some s
  | p :: ps' =>
      match s with
      | c :: s' => if p c then literals ps' s' else None
      | [] => None
      end
  end.

(** [\S+], greedy: the longest run of non-space code points. *)
Fixpoint non_space_run (s : str) : str :=
  match s with
  | c :: s' => if isspace c then [] else c :: non_space_run s'
  | [] => []
  end.

(** [://\S+] at the head of [s]: the length matched. *)
Definition tail_len (s : str) : option nat :=
  match literals [N.eqb 58; N.eqb 47; N.eqb 47]%N s with
  | Some rest =>
      match non_space_run rest with
      | [] => None
      | run => Some (3 + length run)%nat
      end
  | None => None
  end.

(** The whole pattern anchored at the head of [s]: the greedy [s?] is
    tried with the letter first and without it on failure. *)
Definition match_here (s : str) : option str :=
  match literals (literal_ignore <$> [104; 116; 116; 112]%N) s with
  | Some rest =>
      let without := (λ n : nat, take (4 + n) s) <$> tail_len rest in
      match rest with
      | c :: rest' =>
          if literal_ignore 115%N c then
            match tail_len rest' with
            | Some n => Some (take (5 + n) s)
            | None => without
            end
          else without
      | [] => without
      end
  | None => None
  end.

(** [URL_RE.search(text)]: the leftmost position with a match. *)
Fixpoint search (s : str) : option str :=
  match match_here s with
  | Some m => Some m
  | None => match s with _ :: s' => search s' | [] => None end
  end.

End UrlRe.

(** [extract_url(text)] *)
Definition extract_url (text : str) : option str := UrlRe.search text.

(** * Literals of the program *)

Definition ru : str := Eval vm_compute in u "ru".
Definition en : str := Eval vm_compute in u "en".
Definition auto : str := Eval vm_compute in u "auto".
Definition mp4 : str := Eval vm_compute in u "mp4".
Definition mkv : str := Eval vm_compute in u "mkv".
Definition mp3 : str := Eval vm_compute in u "mp3".
Definition media_caption : str := Eval vm_compute in u "media_caption".
Definition awaiting_url : str := Eval vm_compute in u "awaiting_url".
Definition awaiting_caption : str := Eval vm_compute in u "awaiting_caption".
Definition awaiting_broadcast : str := Eval vm_compute in u "awaiting_broadcast".
Definition start_command : str := Eval vm_compute in u "/start".
Definition cancel_keywords : list str := Eval vm_compute in [u "cancel"; u "отмена"].

(** The captions of the menu buttons, by locale. *)
Definition btn_download_ru : str := Eval vm_compute in u "📥 Скачать видео/медиа".
Definition btn_download_en : str := Eval vm_compute in u "📥 Download video/media".
Definition btn_format_ru : str := Eval vm_compute in u "🎬 Формат".
Definition btn_format_en : str := Eval vm_compute in u "🎬 Format".
Definition btn_language_ru : str := Eval vm_compute in u "🌐 Язык".
Definition btn_language_en : str := Eval vm_compute in u "🌐 Language".
Definition btn_help_ru : str := Eval vm_compute in u "ℹ️ Помощь".
Definition btn_help_en : str := Eval vm_compute in u "ℹ️ Help".
Definition btn_caption_ru : str := Eval vm_compute in u "📝 Текст под видео".
Definition btn_caption_en : str := Eval vm_compute in u "📝 Media caption".
Definition btn_broadcast_ru : str := Eval vm_compute in u "📣 Рассылка".
Definition btn_broadcast_en : str := Eval vm_compute in u "📣 Broadcast".

(** [@dataclass class Config] *)
Record Config := {
  bot_token : str;
  owner_id : Z;
  required_channel : str;
  max_file_size_mb : Z;
}.

(** * The persistent store: [class Storage] *)

Module Storage.

(** A row of [users].  [None] in a text column is SQL [NULL]; the column
    [created_at] is filled by SQLite and read nowhere, and is left out. *)
Record user_row := {
  language : option str;
  language_selected : Z;
  preferred_format : option str;
}.

(** The column defaults of [CREATE TABLE users]. *)
Definition default_row : user_row :=
  {| language := Some ru; language_selected := 0; preferred_format := Some auto |}.

(** The three tables, each keyed by its primary key. *)
Record t := {
  users : gmap Z user_row;
  bot_settings : gmap str str;
  user_states : gmap Z str;
}.

Definition with_users (f : gmap Z user_row → gmap Z user_row) (s : t) : t :=
  {| users := f (users s); bot_settings := bot_settings s; user_states := user_states s |}.
Definition with_bot_settings (f : gmap str str → gmap str str) (s : t) : t :=
  {| users := users s; bot_settings := f (bot_settings s); user_states := user_states s |}.
Definition with_user_states (f : gmap Z str → gmap Z str) (s : t) : t :=
  {| users := users s; bot_settings := bot_settings s; user_states := f (user_states s) |}.

(** [INSERT OR IGNORE]: the row is added unless the key is taken. *)
Definition insert_or_ignore `{Countable K} {V} (k : K) (v : V) (m : gmap K V) : gmap K V :=
  match m !! k with
  | Some _ => m
  | None => <[k := v]> m
  end.

(** [__init__] on the database file as it is found: the tables are kept
    and the caption setting is seeded with the empty string if missing. *)
Definition init (s : t) : t := with_bot_settings (insert_or_ignore media_caption []) s.

(** [__init__] on a database file that did not exist. *)
Definition fresh : t := init {| users := ∅; bot_settings := ∅; user_states := ∅ |}.

(** Every method takes the store as [self] and gives back its result
    with the store as the method left it. *)

Definition upsert_user (user_id : Z) (s : t) : unit * t :=
  (tt, with_users (insert_or_ignore user_id default_row) s).

Definition has_language (user_id : Z) (s : t) : bool * t :=
  let row := language_selected <$> users s !! user_id in
  (match row with Some sel => bool_decide (sel = 1) | None => false end, s).

Definition get_language (user_id : Z) (s : t) : str * t :=
  let '(_, s) := upsert_user user_id s in
  let row := language <$> users s !! user_id in
  (match row with
   | Some (Some lang) => if bool_decide (lang ∈ [ru; en]) then lang else ru
   | _ => ru
   end, s).

Definition set_language (user_id : Z) (lang : str) (s : t) : unit * t :=
  let '(_, s) := upsert_user user_id s in
  (tt, with_users (alter (λ r, {| language := Some lang; language_selected := 1;
                                  preferred_format := preferred_format r |}) user_id) s).

Definition set_format (user_id : Z) (fmt : str) (s : t) : unit * t :=
  let '(_, s) := upsert_user user_id s in
  (tt, with_users (alter (λ r, {| language := language r;
                                  language_selected := language_selected r;
                                  preferred_format := Some fmt |}) user_id) s).

(** The result is the stored column, [None] when it holds [NULL]. *)
Definition get_format (user_id : Z) (s : t) : option str * t :=
  let '(_, s) := upsert_user user_id s in
  let row := preferred_format <$> users s !! user_id in
  (match row with Some fmt => fmt | None => Some auto end, s).

(** [SELECT user_id FROM users]: SQLite scans the table by row id, and
    [user_id], an [INTEGER PRIMARY KEY], is the row id. *)
Definition all_users (s : t) : list Z * t :=
  (merge_sort Z.le (map_to_list (users s)).*1, s).

Definition set_state (user_id : Z) (state : str) (s : t) : unit * t :=
  (tt, with_user_states <[user_id := state]> s).

Definition get_state (user_id : Z) (s : t) : option str * t :=
  (user_states s !! user_id, s).

Definition clear_state (user_id : Z) (s : t) : unit * t :=
  (tt, with_user_states (delete user_id) s).

Definition get_media_caption (s : t) : str * t :=
  (default [] (bot_settings s !! media_caption), s).

Definition set_media_caption (value : str) (s : t) : unit * t :=
  (tt, with_bot_settings <[media_caption := value]> s).

End Storage.

(** * Inbound updates and outbound calls *)

(** [telegram.constants.ChatType] *)
Inductive ChatType := PRIVATE | GROUP | SUPERGROUP | CHANNEL | SENDER.

(** [telegram.constants.ChatMemberStatus] *)
Inductive ChatMemberStatus := ADMINISTRATOR | OWNER | BANNED | LEFT | MEMBER | RESTRICTED.

Global Instance ChatType_eq_dec : EqDecision ChatType.
Proof. solve_decision. Defined.
Global Instance ChatMemberStatus_eq_dec : EqDecision ChatMemberStatus.
Proof. solve_decision. Defined.

Record Chat := { chat_id : Z; chat_type : ChatType }.
Record Message := { text : option str }.
Record CallbackQuery := { from_user : option Z; data : option str }.

(** The fields of [telegram.Update] that the handlers read; a user is
    kept as its [id]. *)
Record Update := {
  effective_chat : option Chat;
  effective_user : option Z;
  message : option Message;
  callback_query : option CallbackQuery;
}.

(** The keys of [TEXTS] with the arguments of their placeholders.  A size is
    kept in bytes, the catalog divides it by [1024 * 1024] to print it. *)
Module Key.
Inductive t :=
| welcome | choose_lang | lang_saved | menu | help
| need_sub (channel : str) | send_link | bad_link | downloading
| sending (size : Z) | too_big (size limit : Z) | done | error (err : str)
| format_now (fmt : option str) | format_saved (fmt : str) | owner_only
| broadcast_done (sent failed : Z) | ask_caption | caption_saved
| ask_broadcast | cancelled | group_hint (username : str).
End Key.

(** An outbound text: an entry of the catalog, or a string passed as it is. *)
Inductive OutText :=
| Template (lang : str) (key : Key.t)
| Plain (s : str).

(** [t(lang, key, **kwargs)]: an unknown locale falls back to [en]. *)
Definition t (lang : str) (key : Key.t) : OutText :=
  Template (if bool_decide (lang ∈ [ru; en]) then lang else en) key.

Inductive Markup :=
| ReplyKeyboardMarkup (rows : list (list str))
| InlineKeyboardMarkup (rows : list (list (str * str)))
| ReplyKeyboardRemove.

Definition make_menu (lang : str) (is_owner : bool) : Markup :=
  if bool_decide (lang = ru) then
    ReplyKeyboardMarkup
      ([[btn_download_ru]; [btn_format_ru; btn_language_ru]; [btn_help_ru]]
         ++ (if is_owner then [[btn_caption_ru; btn_broadcast_ru]] else []))
  else
    ReplyKeyboardMarkup
      ([[btn_download_en]; [btn_format_en; btn_language_en]; [btn_help_en]]
         ++ (if is_owner then [[btn_caption_en; btn_broadcast_en]] else [])).

(** Inline buttons are pairs of a caption and its [callback_data]. *)
Definition make_format_buttons : Markup :=
  Eval vm_compute in
  InlineKeyboardMarkup
    [[(u "AUTO", u "fmt:auto"); (u "MP4", u "fmt:mp4")];
     [(u "MKV", u "fmt:mkv"); (u "MP3", u "fmt:mp3")]].

Definition make_language_buttons : Markup :=
  Eval vm_compute in
  InlineKeyboardMarkup [[(u "🇷🇺 Русский", u "lang:ru"); (u "🇬🇧 English", u "lang:en")]].

(** The methods of [Storage], as a handler calls them. *)
Module Call.
Inductive t :=
| upsert_user (user_id : Z)
| has_language (user_id : Z)
| get_language (user_id : Z)
| set_language (user_id : Z) (lang : str)
| set_format (user_id : Z) (fmt : str)
| get_format (user_id : Z)
| all_users
| set_state (user_id : Z) (state : str)
| get_state (user_id : Z)
| clear_state (user_id : Z)
| get_media_caption
| set_media_caption (value : str).
End Call.

(** The calls to the transport. *)
Module Bot.
Inductive t :=
| reply_text (text : OutText) (reply_markup : option Markup)
| send_message (chat_id : Z) (text : OutText) (reply_markup : option Markup)
| get_me
| get_chat_member (channel : str) (user_id : Z)
| edit_text (text : OutText)
| delete
| send_document (chat_id : Z) (document : str) (caption : OutText)
| answer (text : option OutText) (show_alert : bool)
| edit_message_text (text : OutText).
End Bot.

(** The calls to the operating system. *)
Module Os.
Inductive t :=
| TemporaryDirectory
| run (cmd : list str)
| rglob (folder : str)
| stat (path : str)
| cleanup (folder : str).
End Os.

(** What a handler did, in the order it did it. *)
Inductive event :=
| Db (c : Call.t)
| Tg (c : Bot.t)
| Sys (c : Os.t).

(** A raised exception, of a subclass of [Exception]; [str(exc)] is its
    message. *)
Inductive exn :=
| RuntimeError (msg : str)
| AttributeError (msg : str)
| ValueError (msg : str)
| OSError (msg : str)
| TelegramError (msg : str).

Definition exn_str (e : exn) : str :=
  match e with
  | RuntimeError m | AttributeError m | ValueError m | OSError m | TelegramError m => m
  end.

Inductive result (A : Type) :=
| Ok (a : A)
| Raise (e : exn).
Arguments Ok {A} a.
Arguments Raise {A} e.

(** [subprocess.CompletedProcess] *)
Record CompletedProcess := {
  returncode : Z;
  stdout : option str;
  stderr : option str;
}.

(** An entry of a directory tree. *)
Record DirEntry := {
  path : str;
  is_file : bool;
  st_mtime : Z;
}.

(** The world outside the program.  It answers a call from the calls made
    so far.  [raises] tells which transport calls raise; the handlers
    consult it at the calls they guard with [try], and the unguarded calls
    are taken to return.  [subprocess.run] gives the completed process, or
    raises when the tool cannot be started or its output cannot be decoded. *)
Record env := {
  me_username : list event → option str;
  member_status : list event → str → Z → ChatMemberStatus;
  raises : list event → Bot.t → option exn;
  mkdtemp : list event → str;
  subprocess_run : list event → list str → result CompletedProcess;
  listing : list event → str → list DirEntry;
  with_suffix : str → str → result str;
  st_size : list event → str → result Z;
}.

(** * Handlers as computations *)

(** The store and the record of the calls made so far. *)
Record world := { db : Storage.t; log : list event }.

(** A computation ends with a value or a raised exception, in a new world. *)
Definition M (A : Type) : Type := world → result A * world.

Definition ret {A} (a : A) : M A := λ w, (Ok a, w).

Definition bind {A B} (m : M A) (k : A → M B) : M B :=
  λ w, match m w with
       | (Ok a, w') => k a w'
       | (Raise e, w') => (Raise e, w')
       end.

Definition raise {A} (e : exn) : M A := λ w, (Raise e, w).

(** [try: body / except Exception as exc: handler] *)
Definition try_except {A} (body : M A) (handler : exn → M A) : M A :=
  λ w, match body w with
       | (Ok a, w') => (Ok a, w')
       | (Raise e, w') => handler e w'
       end.

(** [try: body / finally: final] *)
Definition try_finally {A} (body : M A) (final : M unit) : M A :=
  λ w, match body w with
       | (r, w') => match final w' with
                    | (Ok _, w'') => (r, w'')
                    | (Raise e, w'') => (Raise e, w'')
                    end
       end.

Declare Scope action_scope.
Delimit Scope action_scope with action.
Bind Scope action_scope with M.
Notation "'let*' x ':=' c 'in' k" := (bind c (λ x, k))
  (at level 10, x pattern, c at level 100, k at level 200) : action_scope.
Notation "c '>>' k" := (bind c (λ _, k))
  (at level 90, right associativity) : action_scope.
Local Open Scope action_scope.

Definition emit (ev : event) : M unit :=
  λ w, (Ok tt, {| db := db w; log := log w ++ [ev] |}).

(** The answer of the world to the calls made so far. *)
Definition ask {A} (f : list event → A) : M A := λ w, (Ok (f (log w)), w).

Definition of_result {A} (r : result A) : M A := λ w, (r, w).

(** A method of the store: it is recorded and run on the store. *)
Definition storage {A} (c : Call.t) (f : Storage.t → A * Storage.t) : M A :=
  λ w, let '(a, s) := f (db w) in (Ok a, {| db := s; log := log w ++ [Db c] |}).

(** A transport call outside any [try]. *)
Definition bot (c : Bot.t) : M unit := emit (Tg c).

(** A transport call under a [try]: the world tells whether it raises. *)
Definition bot_guarded (e : env) (c : Bot.t) : M unit :=
  let* r := ask (λ l, raises e l c) in
  emit (Tg c) >>
  match r with
  | Some x => raise x
  | None => ret tt
  end.

(** [update.message.reply_text(...)]; without a message, the attribute
    access fails. *)
Definition reply_text (update : Update) (text : OutText) (markup : option Markup) : M unit :=
  match message update with
  | Some _ => bot (Bot.reply_text text markup)
  | None => raise (AttributeError (u "'NoneType' object has no attribute 'reply_text'"))
  end.

(** * Media acquisition and transcoding *)

(** [a or b] on strings: [None] and the empty string are both false. *)
Definition or_str (a : option str) (b : str) : str :=
  match a with
  | Some (c :: s) => c :: s
  | _ => b
  end.

(** [((proc.stdout or "") + "\n" + (proc.stderr or "")).strip()] *)
Definition combined_output (proc : CompletedProcess) : str :=
  strip (or_str (stdout proc) [] ++ [10%N] ++ or_str (stderr proc) []).

Definition run_command (e : env) (cmd : list str) : M (Z * str) :=
  let* started := ask (λ l, subprocess_run e l cmd) in
  emit (Sys (Os.run cmd)) >>
  let* proc := of_result started in
  ret (returncode proc, combined_output proc).

(** [files.sort(key=lambda p: p.stat().st_mtime, reverse=True)]: the sort is
    stable, files of equal time keep their order. *)
Fixpoint insert_by_mtime (x : DirEntry) (l : list DirEntry) : list DirEntry :=
  match l with
  | [] => [x]
  | y :: l' => if st_mtime x <? st_mtime y then y :: insert_by_mtime x l' else x :: l
  end.

Definition sort_by_mtime (l : list DirEntry) : list DirEntry :=
  foldr insert_by_mtime [] l.

(** [find_latest_file] on the entries that [folder.rglob("*")] yields. *)
Definition latest (entries : list DirEntry) : option str :=
  let files := filter (λ p, is_file p = true) entries in
  match sort_by_mtime files with
  | [] => None
  | f :: _ => Some (path f)
  end.

Definition find_latest_file (e : env) (folder : str) : M (option str) :=
  let* entries := ask (λ l, listing e l folder) in
  emit (Sys (Os.rglob folder)) >>
  ret (latest entries).

Definition yt_cmd (url work_dir : str) : list str :=
  [u "yt-dlp"; u "--no-playlist"; u "-f"; u "bv*+ba/b"; u "--merge-output-format"; u "mp4";
   u "--restrict-filenames"; u "--no-warnings"; u "-o";
   work_dir ++ u "/" ++ u "%(title).100B-%(id)s.%(ext)s"; url].

Definition gd_cmd (url work_dir : str) : list str :=
  [u "gallery-dl"; u "--directory"; work_dir; u "--write-metadata"; url].

Definition download_failed (yt_log gd_log : str) : exn :=
  RuntimeError (u "Download failed. yt-dlp: " ++ slice_to 350 yt_log
                  ++ u " | gallery-dl: " ++ slice_to 350 gd_log).

Definition download_media (e : env) (url work_dir : str) : M str :=
  let* (code, yt_log) := run_command e (yt_cmd url work_dir) in
  let* found := (if bool_decide (code = 0) then find_latest_file e work_dir else ret None) in
  match found with
  | Some file_path => ret file_path
  | None =>
      let* (gcode, gd_log) := run_command e (gd_cmd url work_dir) in
      let* found := (if bool_decide (gcode = 0) then find_latest_file e work_dir else ret None) in
      match found with
      | Some file_path => ret file_path
      | None => raise (download_failed yt_log gd_log)
      end
  end.

(** [f"{preset}"] of a value that may be [None] *)
Definition py_str (o : option str) : str := default (u "None") o.

Definition ffmpeg_convert (e : env) (source : str) (preset : option str) : M str :=
  if bool_decide (preset = Some auto) then ret source
  else
    let* out := of_result (with_suffix e source (u "." ++ py_str preset)) in
    let* (out, cmd) :=
      (if bool_decide (preset ∈ [Some mp4; Some mkv]) then
         ret (out, [u "ffmpeg"; u "-y"; u "-i"; source; u "-c:v"; u "libx264"; u "-c:a"; u "aac"; out])
       else if bool_decide (preset = Some mp3) then
         let* out := of_result (with_suffix e source (u ".mp3")) in
         ret (out, [u "ffmpeg"; u "-y"; u "-i"; source; u "-vn"; u "-c:a"; u "libmp3lame";
                    u "-q:a"; u "2"; out])
       else raise (RuntimeError (u "Unsupported format preset"))) in
    let* (code, output) := run_command e cmd in
    if bool_decide (code ≠ 0) then raise (RuntimeError (u "ffmpeg failed: " ++ slice_to 700 output))
    else ret out.

(** * The subscription gate and the download pipeline *)

Definition check_subscription (e : env) (channel : str) (user_id : Z) : M bool :=
  try_except
    (let* status := ask (λ l, member_status e l channel user_id) in
     bot_guarded e (Bot.get_chat_member channel user_id) >>
     ret (bool_decide (status ∈ [MEMBER; ADMINISTRATOR; OWNER; RESTRICTED])))
    (λ _, ret false).

(** The body of [with tempfile.TemporaryDirectory(...) as tmp]. *)
Definition acquire_and_send (e : env) (cfg : Config) (chat_id sender_id : Z)
    (url lang tmp : str) : M unit :=
  let* source := download_media e url tmp in
  let* fmt := storage (Call.get_format sender_id) (Storage.get_format sender_id) in
  let* result := ffmpeg_convert e source fmt in
  let* size := ask (λ l, st_size e l result) in
  emit (Sys (Os.stat result)) >>
  let* size := of_result size in
  if max_file_size_mb cfg * 1048576 <? size then
    bot_guarded e (Bot.edit_text (t lang (Key.too_big size (max_file_size_mb cfg))))
  else
    bot_guarded e (Bot.edit_text (t lang (Key.sending size))) >>
    let* caption := storage Call.get_media_caption Storage.get_media_caption in
    let extra_caption :=
      if bool_decide (strip caption = []) then t lang Key.done else Plain (strip caption) in
    bot_guarded e (Bot.send_document chat_id result extra_caption) >>
    bot_guarded e Bot.delete.

(** The size in megabytes is the size in bytes over [1024 * 1024], so it
    exceeds the limit when the bytes exceed the limit times [1048576]. *)
Definition handle_download (e : env) (cfg : Config) (chat_id sender_id : Z)
    (url lang : str) : M unit :=
  let* subscribed := check_subscription e (required_channel cfg) sender_id in
  if negb subscribed then
    bot (Bot.send_message chat_id (t lang (Key.need_sub (required_channel cfg))) None)
  else
    bot (Bot.send_message chat_id (t lang Key.downloading) None) >>
    try_except
      (let* tmp := ask (mkdtemp e) in
       emit (Sys Os.TemporaryDirectory) >>
       try_finally
         (acquire_and_send e cfg chat_id sender_id url lang tmp)
         (emit (Sys (Os.cleanup tmp))))
      (λ exc, bot (Bot.edit_text (t lang (Key.error (slice_to 700 (exn_str exc)))))).

(** * The three handlers *)

Definition start_handler (e : env) (cfg : Config) (update : Update) : M unit :=
  match effective_chat update, effective_user update with
  | Some chat, Some uid =>
      if bool_decide (chat_type chat ≠ PRIVATE) then
        let* me := ask (me_username e) in
        bot Bot.get_me >>
        reply_text update (t ru (Key.group_hint (or_str me (u "bot")))) None
      else
        storage (Call.upsert_user uid) (Storage.upsert_user uid) >>
        let* selected := storage (Call.has_language uid) (Storage.has_language uid) in
        if negb selected then
          reply_text update (Template ru Key.choose_lang) (Some make_language_buttons)
        else
          let* lang := storage (Call.get_language uid) (Storage.get_language uid) in
          reply_text update (t lang Key.welcome)
            (Some (make_menu lang (bool_decide (uid = owner_id cfg))))
  | _, _ => ret tt
  end.

Definition callback_handler (e : env) (cfg : Config) (update : Update) : M unit :=
  match callback_query update with
  | Some query =>
      match from_user query with
      | Some uid =>
          storage (Call.upsert_user uid) (Storage.upsert_user uid) >>
          let payload := or_str (data query) [] in
          if bool_decide (take 5 payload = u "lang:") then
            let lang := drop 5 payload in
            if bool_decide (lang ∉ [ru; en]) then
              bot (Bot.answer (Some (Plain (u "Invalid language"))) true)
            else
              storage (Call.set_language uid lang) (Storage.set_language uid lang) >>
              bot (Bot.edit_message_text (t lang Key.lang_saved)) >>
              bot (Bot.send_message uid (t lang Key.menu)
                     (Some (make_menu lang (bool_decide (uid = owner_id cfg))))) >>
              bot (Bot.answer None false)
          else if bool_decide (take 4 payload = u "fmt:") then
            let fmt := drop 4 payload in
            if bool_decide (fmt ∉ [auto; mp4; mkv; mp3]) then
              bot (Bot.answer (Some (Plain (u "Invalid format"))) true)
            else
              storage (Call.set_format uid fmt) (Storage.set_format uid fmt) >>
              let* lang := storage (Call.get_language uid) (Storage.get_language uid) in
              bot (Bot.answer (Some (t lang (Key.format_saved fmt))) true)
          else ret tt
      | None => ret tt
      end
  | None => ret tt
  end.

(** The loop of the broadcast: one send per user, a raised exception is
    counted and the loop goes on. *)
Fixpoint broadcast (e : env) (text : str) (users : list Z) (sent failed : Z) : M (Z * Z) :=
  match users with
  | [] => ret (sent, failed)
  | user :: users' =>
      let* ok := try_except
                   (bot_guarded e (Bot.send_message user (Plain text) None) >> ret true)
                   (λ _, ret false) in
      if ok : bool then broadcast e text users' (sent + 1) failed
      else broadcast e text users' sent (failed + 1)
  end.

(** The menu: what a text means when no awaited input takes it. *)
Definition menu_dispatch (cfg : Config) (update : Update) (uid : Z) (lang text : str)
    (is_owner : bool) : M unit :=
  if bool_decide (text ∈ [btn_download_ru; btn_download_en]) then
    storage (Call.set_state uid awaiting_url) (Storage.set_state uid awaiting_url) >>
    reply_text update (t lang Key.send_link) (Some ReplyKeyboardRemove)
  else if bool_decide (text ∈ [btn_format_ru; btn_format_en]) then
    let* fmt := storage (Call.get_format uid) (Storage.get_format uid) in
    reply_text update (t lang (Key.format_now fmt)) (Some make_format_buttons)
  else if bool_decide (text ∈ [btn_language_ru; btn_language_en]) then
    reply_text update (t lang Key.choose_lang) (Some make_language_buttons)
  else if bool_decide (text ∈ [btn_help_ru; btn_help_en]) then
    reply_text update (t lang Key.help) (Some (make_menu lang is_owner))
  else if bool_decide (text ∈ [btn_caption_ru; btn_caption_en]) then
    if negb is_owner then
      reply_text update (t lang Key.owner_only) (Some (make_menu lang is_owner))
    else
      storage (Call.set_state uid awaiting_caption) (Storage.set_state uid awaiting_caption) >>
      reply_text update (t lang Key.ask_caption) (Some ReplyKeyboardRemove)
  else if bool_decide (text ∈ [btn_broadcast_ru; btn_broadcast_en]) then
    if negb is_owner then
      reply_text update (t lang Key.owner_only) (Some (make_menu lang is_owner))
    else
      storage (Call.set_state uid awaiting_broadcast) (Storage.set_state uid awaiting_broadcast) >>
      reply_text update (t lang Key.ask_broadcast) (Some ReplyKeyboardRemove)
  else
    reply_text update (t lang Key.menu) (Some (make_menu lang is_owner)).

(** The text of a private chat that is not a cancel keyword, against the
    state the sender is in. *)
Definition awaited_input (e : env) (cfg : Config) (update : Update) (chat : Chat) (uid : Z)
    (lang text : str) (is_owner : bool) (state : option str) : M unit :=
  if bool_decide (state = Some awaiting_url) then
    match extract_url text with
    | Some (c :: url') =>
        let url := c :: url' in
        storage (Call.clear_state uid) (Storage.clear_state uid) >>
        handle_download e cfg (chat_id chat) uid url lang >>
        reply_text update (t lang Key.menu) (Some (make_menu lang is_owner))
    | _ => reply_text update (t lang Key.bad_link) None
    end
  else if bool_decide (state = Some awaiting_caption) && is_owner then
    storage (Call.set_media_caption text) (Storage.set_media_caption text) >>
    storage (Call.clear_state uid) (Storage.clear_state uid) >>
    reply_text update (t lang Key.caption_saved) (Some (make_menu lang true))
  else if bool_decide (state = Some awaiting_broadcast) && is_owner then
    storage (Call.clear_state uid) (Storage.clear_state uid) >>
    let* users := storage Call.all_users Storage.all_users in
    let* (sent, failed) := broadcast e text users 0 0 in
    reply_text update (t lang (Key.broadcast_done sent failed)) (Some (make_menu lang true))
  else menu_dispatch cfg update uid lang text is_owner.

(** The private chat, after the [/start] guard. *)
Definition private_chat (e : env) (cfg : Config) (update : Update) (chat : Chat) (uid : Z)
    (lang text : str) (is_owner : bool) : M unit :=
  let* state := storage (Call.get_state uid) (Storage.get_state uid) in
  if bool_decide (lower text ∈ cancel_keywords) then
    storage (Call.clear_state uid) (Storage.clear_state uid) >>
    reply_text update (t lang Key.cancelled) (Some (make_menu lang is_owner))
  else awaited_input e cfg update chat uid lang text is_owner state.

(** A group: the text must mention the bot and hold a link. *)
Definition group_chat (e : env) (cfg : Config) (chat : Chat) (uid : Z) (lang text : str) : M unit :=
  let* me := ask (me_username e) in
  bot Bot.get_me >>
  let mention := u "@" ++ lower (or_str me []) in
  if bool_decide (mention = []) || negb (contains mention (lower text)) then ret tt
  else
    match extract_url text with
    | Some (c :: url') => handle_download e cfg (chat_id chat) uid (c :: url') lang
    | _ => ret tt
    end.

Definition message_handler (e : env) (cfg : Config) (update : Update) : M unit :=
  match effective_chat update, effective_user update, message update with
  | Some chat, Some uid, Some msg =>
      let text := strip (or_str (text msg) []) in
      if bool_decide (text = []) then ret tt
      else
        storage (Call.upsert_user uid) (Storage.upsert_user uid) >>
        let* lang := storage (Call.get_language uid) (Storage.get_language uid) in
        let is_owner := bool_decide (uid = owner_id cfg) in
        if bool_decide (chat_type chat = PRIVATE) then
          if bool_decide (text = start_command) then ret tt
          else private_chat e cfg update chat uid lang text is_owner
        else if bool_decide (chat_type chat ∈ [GROUP; SUPERGROUP]) then
          group_chat e cfg chat uid lang text
        else ret tt
  | _, _, _ => ret tt
  end.

(** [main] routes an update to one handler: [/start] commands, button
    presses, and the text messages that are not commands. *)
Inductive inbound :=
| Command (update : Update)
| Callback (update : Update)
| TextMessage (update : Update).

Definition handle (e : env) (cfg : Config) (i : inbound) : M unit :=
  match i with
  | Command update => start_handler e cfg update
  | Callback update => callback_handler e cfg update
  | TextMessage update => message_handler e cfg update
  end.

(** * Vocabulary of the statements *)

(** What each send of a broadcast over [users] does, the log being [l]
    when the loop starts: true for a send that returns, false for one that
    raises. *)
Fixpoint deliveries (e : env) (text : str) (users : list Z) (l : list event) : list bool :=
  match users with
  | [] => []
  | user :: users' =>
      let c := Bot.send_message user (Plain text) None in
      bool_decide (raises e l c = None) :: deliveries e text users' (l ++ [Tg c])
  end.

(** The number of [b] in a list of outcomes. *)
Definition tally (b : bool) (ds : list bool) : Z :=
  Z.of_nat (length (filter (λ d, d = b) ds)).

(** The world in which a text message reaches the conversation: its
    sender has a row, and the language of the sender was read. *)
Definition entered (uid : Z) (w : world) : world :=
  {| db := (Storage.upsert_user uid (db w)).2;
     log := log w ++ [Db (Call.upsert_user uid); Db (Call.get_language uid)] |}.

(** A world with one more event in its log. *)
Definition logged (ev : event) (w : world) : world :=
  {| db := db w; log := log w ++ [ev] |}.

(** The events that only the owner's awaited inputs produce: a write of
    the caption, and the reading of all users with the raw sends of a
    broadcast. *)
Definition owner_event (ev : event) : Prop :=
  match ev with
  | Db (Call.set_media_caption _) | Db Call.all_users => True
  | Tg (Bot.send_message _ (Plain _) _) => True
  | _ => False
  end.

(** The identity an inbound update comes from. *)
Definition sender (i : inbound) : option Z :=
  match i with
  | Command update | TextMessage update => effective_user update
  | Callback update => callback_query update ≫= from_user
  end.

(** The main menu is on screen when a call carries the keyboard of
    [make_menu]. *)
Definition shows_menu (ev : event) : Prop :=
  match ev with
  | Tg (Bot.reply_text _ (Some (ReplyKeyboardMarkup _)))
  | Tg (Bot.send_message _ _ (Some (ReplyKeyboardMarkup _))) => True
  | _ => False
  end.

(** A computation keeps [P] and [R] when, from every world, the events it
    adds to the log all satisfy [P] and the store it leaves is related by
    [R] to the store it found. *)
Definition keeps (P : event → Prop) (R : relation Storage.t) {A} (m : M A) : Prop :=
  ∀ w, R (db w) (db (m w).2) ∧ ∃ l, log (m w).2 = log w ++ l ∧ Forall P l.

(** A computation returns when it raises in no world. *)
Definition returns {A} (m : M A) : Prop := ∀ w, ∃ a, (m w).1 = Ok a.

(** The events of the download pipeline. *)
Definition pipeline_event (ev : event) : Prop :=
  match ev with
  | Db (Call.get_format _) | Db Call.get_media_caption | Sys _ => True
  | Tg (Bot.send_message _ (Plain _) _) => False
  | Tg _ => True
  | _ => False
  end.

(** The caption setting is as it was. *)
Definition same_settings : relation Storage.t :=
  λ s s', Storage.bot_settings s' = Storage.bot_settings s.

(** The caption setting and every conversation state are as they were. *)
Definition same_settings_and_states : relation Storage.t :=
  λ s s', Storage.user_states s' = Storage.user_states s
          ∧ Storage.bot_settings s' = Storage.bot_settings s.

(** * Scenarios *)

(** [s[s.rfind(c) + 1:]] when [c] occurs in [s]. *)
Fixpoint after_last (c : N) (s : str) : option str :=
  match s with
  | [] => None
  | d :: s' =>
      match after_last c s' with
      | Some rest => Some rest
      | None => if bool_decide (d = c) then Some s' else None
      end
  end.

(** [PurePosixPath(p).name] for a path in normal form, as [rglob] yields
    it: what follows the last separator. *)
Definition path_name (p : str) : str := default p (after_last 47 p).

(** [PurePath.suffix]: with [i = name.rfind('.')], it is [name[i:]] when
    [0 < i < len(name) - 1], and empty otherwise. *)
Definition path_suffix (name : str) : str :=
  match after_last 46 name with
  | Some ext =>
      if bool_decide (ext ≠ [] ∧ (length ext + 1 < length name)%nat) then 46%N :: ext else []
  | None => []
  end.

(** [PurePosixPath(p).with_suffix(suffix)]: the last suffix of the name is
    replaced, or the suffix is added to a name that has none.  A suffix
    that holds a separator, does not start with a dot or is the dot alone
    is refused, and so is a path without a name; the [ValueError] is kept
    without the [repr] in its message. *)
Definition replace_suffix (p suffix : str) : result str :=
  if bool_decide (47%N ∈ suffix)
     || bool_decide (suffix ≠ [] ∧ head suffix ≠ Some 46%N)
     || bool_decide (suffix = [46%N])
  then Raise (ValueError (u "Invalid suffix"))
  else if bool_decide (path_name p = []) then Raise (ValueError (u "has an empty name"))
  else Ok (take (length p - length (path_suffix (path_name p))) p ++ suffix).

(** A world where every call succeeds and every tool writes nothing. *)
Definition calm : env := {|
  me_username := λ _, Some (u "media_bot");
  member_status := λ _ _ _, MEMBER;
  raises := λ _ _, None;
  mkdtemp := λ _, u "/tmp/tg_dl_0";
  subprocess_run := λ _ _, Ok {| returncode := 0; stdout := Some []; stderr := Some [] |};
  listing := λ _ _, [];
  with_suffix := replace_suffix;
  st_size := λ _ _, Ok 0;
|}.

Definition cfg0 : Config :=
  {| bot_token := u "token"; owner_id := 1; required_channel := u "@channel";
     max_file_size_mb := 2048 |}.

(** A text message in a private chat. *)
Definition private_text (uid : Z) (s : str) : Update :=
  {| effective_chat := Some {| chat_id := uid; chat_type := PRIVATE |};
     effective_user := Some uid;
     message := Some {| text := Some s |};
     callback_query := None |}.

(** The store of a bot that has seen [uid], who is awaiting [state]. *)
Definition awaiting (uid : Z) (state : str) : world :=
  {| db := (Storage.set_state uid state (Storage.upsert_user uid Storage.fresh).2).2;
     log := [] |}.

(** The primary tool fails after it wrote a partial file; the fallback
    exits with success and writes nothing. *)
Definition part_file : DirEntry :=
  {| path := u "/tmp/tg_dl_0/clip.mp4.part"; is_file := true; st_mtime := 100 |}.

Definition leftover : env := {|
  me_username := λ _, Some (u "media_bot");
  member_status := λ _ _ _, MEMBER;
  raises := λ _ _, None;
  mkdtemp := λ _, u "/tmp/tg_dl_0";
  subprocess_run := λ _ cmd,
    if bool_decide (head cmd = Some (u "yt-dlp")) then
      Ok {| returncode := 1; stdout := Some []; stderr := Some (u "ERROR: connection reset") |}
    else Ok {| returncode := 0; stdout := Some []; stderr := Some [] |};
  listing := λ l _, match l with [] => [] | _ :: _ => [part_file] end;
  with_suffix := replace_suffix;
  st_size := λ _ _, Ok 1024;
|}.

(** The send to identity 2 raises, every other call returns. *)
Definition deaf_to_2 : env := {|
  me_username := λ _, Some (u "media_bot");
  member_status := λ _ _ _, MEMBER;
  raises := λ _ c,
    match c with
    | Bot.send_message 2 _ _ => Some (TelegramError (u "Forbidden: bot was blocked by the user"))
    | _ => None
    end;
  mkdtemp := λ _, u "/tmp/tg_dl_0";
  subprocess_run := λ _ _, Ok {| returncode := 0; stdout := Some []; stderr := Some [] |};
  listing := λ _ _, [];
  with_suffix := replace_suffix;
  st_size := λ _ _, Ok 0;
|}.

(** The owner, identity 1, awaits the text of a broadcast; the bot has seen
    the identities 1, 2 and 3. *)
Definition three_users : world :=
  {| db := (Storage.set_state 1 awaiting_broadcast
              (Storage.upsert_user 3 (Storage.upsert_user 2
                 (Storage.upsert_user 1 Storage.fresh).2).2).2).2;
     log := [] |}.

(** * Further scenarios *)

(** Both tools exit with success, and the scratch folder holds a video and
    an older metadata file; the transcoder exits with success. *)
Definition video_file : DirEntry :=
  {| path := u "/tmp/tg_dl_0/clip.mp4"; is_file := true; st_mtime := 100 |}.

Definition metadata_file : DirEntry :=
  {| path := u "/tmp/tg_dl_0/clip.mp4.json"; is_file := true; st_mtime := 50 |}.

Definition smooth : env := {|
  me_username := λ _, Some (u "media_bot");
  member_status := λ _ _ _, MEMBER;
  raises := λ _ _, None;
  mkdtemp := λ _, u "/tmp/tg_dl_0";
  subprocess_run := λ _ _, Ok {| returncode := 0; stdout := Some (u "ok"); stderr := Some [] |};
  listing := λ _ _,
    [{| path := u "/tmp/tg_dl_0/sub"; is_file := false; st_mtime := 300 |};
     metadata_file; video_file];
  with_suffix := replace_suffix;
  st_size := λ _ _, Ok (2100 * 1048576);
|}.

(** The sender has left the required channel. *)
Definition stranger : env := {|
  me_username := λ _, Some (u "media_bot");
  member_status := λ _ _ _, LEFT;
  raises := λ _ _, None;
  mkdtemp := λ _, u "/tmp/tg_dl_0";
  subprocess_run := λ _ _, Ok {| returncode := 0; stdout := Some []; stderr := Some [] |};
  listing := λ _ _, [];
  with_suffix := replace_suffix;
  st_size := λ _ _, Ok 0;
|}.

(** Both tools start, print 400 characters and exit with 1; nothing is
    written. *)
Definition noisy : env := {|
  me_username := λ _, Some (u "media_bot");
  member_status := λ _ _ _, MEMBER;
  raises := λ _ _, None;
  mkdtemp := λ _, u "/tmp/tg_dl_0";
  subprocess_run := λ _ _,
    Ok {| returncode := 1; stdout := Some (replicate 400 120%N); stderr := Some [] |};
  listing := λ _ _, [];
  with_suffix := replace_suffix;
  st_size := λ _ _, Ok 0;
|}.

(** No tool is installed: starting one raises [FileNotFoundError], a
    subclass of [OSError]. *)
Definition no_tools : env := {|
  me_username := λ _, Some (u "media_bot");
  member_status := λ _ _ _, MEMBER;
  raises := λ _ _, None;
  mkdtemp := λ _, u "/tmp/tg_dl_0";
  subprocess_run := λ _ cmd,
    Raise (OSError (u "[Errno 2] No such file or directory: '" ++ default [] (head cmd)
                      ++ u "'"));
  listing := λ _ _, [];
  with_suffix := replace_suffix;
  st_size := λ _ _, Ok 0;
|}.

(** The transcoder starts, prints 800 characters and exits with 1. *)
Definition bad_codec : env := {|
  me_username := λ _, Some (u "media_bot");
  member_status := λ _ _ _, MEMBER;
  raises := λ _ _, None;
  mkdtemp := λ _, u "/tmp/tg_dl_0";
  subprocess_run := λ _ _,
    Ok {| returncode := 1; stdout := Some []; stderr := Some (replicate 800 120%N) |};
  listing := λ _ _, [];
  with_suffix := replace_suffix;
  st_size := λ _ _, Ok 0;
|}.

(** An empty world: a database that was just created, and no call yet. *)
Definition first_contact : world := {| db := Storage.fresh; log := [] |}.

(** The store of a bot on which [uid] has confirmed the locale [lang]. *)
Definition confirmed (uid : Z) (lang : str) : world :=
  {| db := (Storage.set_language uid lang Storage.fresh).2; log := [] |}.

(** A [/start] command or a text in a chat of the given type. *)
Definition text_in (kind : ChatType) (chat uid : Z) (s : str) : Update :=
  {| effective_chat := Some {| chat_id := chat; chat_type := kind |};
     effective_user := Some uid;
     message := Some {| text := Some s |};
     callback_query := None |}.

(** A press on an inline button that carries [payload]. *)
Definition button_press (uid : Z) (payload : str) : Update :=
  {| effective_chat := Some {| chat_id := uid; chat_type := PRIVATE |};
     effective_user := Some uid;
     message := None;
     callback_query := Some {| from_user := Some uid; data := Some payload |} |}.

(** * Further vocabulary *)

(** The store is as it was, or it gained the default row of [uid]. *)
Definition at_most_row (uid : Z) : relation Storage.t :=
  λ s s', s' = s ∨ s' = (Storage.upsert_user uid s).2.

(** What the pipeline does between the creation of its scratch folder and
    its removal. *)
Definition body_event (ev : event) : Prop :=
  match ev with
  | Sys (Os.run _) | Sys (Os.rglob _) | Sys (Os.stat _) => True
  | Db (Call.get_format _) | Db Call.get_media_caption => True
  | Tg (Bot.edit_text _) | Tg (Bot.send_document _ _ _) | Tg Bot.delete => True
  | _ => False
  end.

(** A run of an external tool or a look at the file system. *)
Definition tool_event (ev : event) : Prop :=
  match ev with
  | Sys (Os.run _) | Sys (Os.rglob _) => True
  | _ => False
  end.

(** The upload of a document to a chat. *)
Definition upload_event (ev : event) : Prop :=
  match ev with
  | Tg (Bot.send_document _ _ _) => True
  | _ => False
  end.

(** A call that reads or writes a conversation state. *)
Definition state_event (ev : event) : Prop :=
  match ev with
  | Db (Call.get_state _) | Db (Call.set_state _ _) | Db (Call.clear_state _) => True
  | _ => False
  end.

(** The payload of a button press is one the handler acts on. *)
Definition accepted_payload (payload : str) : Prop :=
  (take 5 payload = u "lang:" ∧ drop 5 payload ∈ [ru; en])
  ∨ (take 4 payload = u "fmt:" ∧ drop 4 payload ∈ [auto; mp4; mkv; mp3]).

(** The sender is in a state that takes the next text as an input: a link
    is awaited, or the sender is the owner and a caption or a broadcast
    text is awaited. *)
Definition takes_input (cfg : Config) (uid : Z) (state : option str) : Prop :=
  state = Some awaiting_url
  ∨ (uid = owner_id cfg ∧ state ∈ [Some awaiting_caption; Some awaiting_broadcast]).

(** A reply to the message at hand. *)
Definition reply_event (ev : event) : Prop :=
  match ev with
  | Tg (Bot.reply_text _ _) => True
  | _ => False
  end.

(** A row as the handlers write it: a language of the catalog, a flag,
    one of the four presets. *)
Definition row_ok (row : Storage.user_row) : Prop :=
  Storage.language row ∈ [Some ru; Some en]
  ∧ Storage.language_selected row ∈ [0; 1]
  ∧ Storage.preferred_format row ∈ [Some auto; Some mp4; Some mkv; Some mp3].

(** A state as the handlers write it: a link is awaited, or the identity is
    the owner and a caption or a broadcast text is awaited. *)
Definition state_ok (cfg : Config) (uid : Z) (state : str) : Prop :=
  state = awaiting_url
  ∨ (uid = owner_id cfg ∧ state ∈ [awaiting_caption; awaiting_broadcast]).

Definition well_formed (cfg : Config) (s : Storage.t) : Prop :=
  map_Forall (λ _, row_ok) (Storage.users s)
  ∧ map_Forall (state_ok cfg) (Storage.user_states s)
  ∧ is_Some (Storage.bot_settings s !! media_caption).

(** A well-formed store stays well formed, and no row is lost. *)
Definition grows (cfg : Config) : relation Storage.t :=
  λ s s', (well_formed cfg s → well_formed cfg s')
          ∧ ∀ uid, is_Some (Storage.users s !! uid) → is_Some (Storage.users s' !! uid).

(** The captions of a reply keyboard, which a press sends as a text. *)
Definition captions (m : Markup) : list str :=
  match m with
  | ReplyKeyboardMarkup rows => concat rows
  | _ => []
  end.

(** The payloads of an inline keyboard, which a press sends as its data. *)
Definition payloads (m : Markup) : list str :=
  match m with
  | InlineKeyboardMarkup rows => (concat rows).*2
  | _ => []
  end.

(** * Startup: [load_config] *)

(** The environment of the process, as [os.environ] holds it once
    [load_dotenv()] has run, and the builtin [int] on a string, where
    [None] stands for its [ValueError]. *)
Record process := {
  environ : gmap str str;
  int_of : str → option Z;
}.

(** What [load_config] can raise: its own [RuntimeError], the [KeyError]
    of [os.environ[key]], the [ValueError] of [int]. *)
Inductive startup_error :=
| MissingVariables (message : str)
| KeyError (key : str)
| IntValueError (literal : str).

Definition BOT_TOKEN : str := Eval vm_compute in u "BOT_TOKEN".
Definition OWNER_ID : str := Eval vm_compute in u "OWNER_ID".
Definition REQUIRED_CHANNEL : str := Eval vm_compute in u "REQUIRED_CHANNEL".
Definition MAX_FILE_SIZE_MB : str := Eval vm_compute in u "MAX_FILE_SIZE_MB".

(** [not os.getenv(key)]: the variable is unset or empty. *)
Definition not_getenv (p : process) (key : str) : bool :=
  match environ p !! key with
  | Some (_ :: _) => false
  | _ => true
  end.

(** [sep.join(parts)] *)
Fixpoint join (sep : str) (parts : list str) : str :=
  match parts with
  | [] => []
  | [part] => part
  | part :: rest => part ++ sep ++ join sep rest
  end.

(** [os.environ[key]] *)
Definition environ_item (p : process) (key : str) : startup_error + str :=
  match environ p !! key with
  | Some value => inr value
  | None => inl (KeyError key)
  end.

(** [int(s)] *)
Definition int (p : process) (s : str) : startup_error + Z :=
  match int_of p s with
  | Some n => inr n
  | None => inl (IntValueError s)
  end.

(** The arguments of [Config(...)] are evaluated from left to right. *)
Definition load_config (p : process) : startup_error + Config :=
  let required := [BOT_TOKEN; OWNER_ID; REQUIRED_CHANNEL] in
  let missing := filter (λ key, not_getenv p key = true) required in
  if bool_decide (missing ≠ []) then
    inl (MissingVariables (u "Missing env variables: " ++ join (u ", ") missing))
  else
    match environ_item p BOT_TOKEN with
    | inl err => inl err
    | inr token =>
        match environ_item p OWNER_ID with
        | inl err => inl err
        | inr owner_text =>
            match int p owner_text with
            | inl err => inl err
            | inr owner =>
                match environ_item p REQUIRED_CHANNEL with
                | inl err => inl err
                | inr channel =>
                    match int p (default (u "2048") (environ p !! MAX_FILE_SIZE_MB)) with
                    | inl err => inl err
                    | inr limit =>
                        inr {| bot_token := token; owner_id := owner;
                               required_channel := channel; max_file_size_mb := limit |}
                    end
                end
            end
        end
    end.

(** A process with nothing but a token, where [int] reads unsigned
    decimal numerals. *)
Definition decimal (s : str) : option Z :=
  if bool_decide (s ≠ [] ∧ Forall (λ c, 48 ≤ c ≤ 57)%N s) then
    Some (foldl (λ n c, 10 * n + (Z.of_N c - 48)) 0 s)
  else None.

Definition token_only : process :=
  {| environ := {[ BOT_TOKEN := u "123:abc"; REQUIRED_CHANNEL := [] ]};
     int_of := decimal |}.

Definition configured : process :=
  {| environ := {[ BOT_TOKEN := u "123:abc"; OWNER_ID := u "1";
                   REQUIRED_CHANNEL := u "@channel" ]};
     int_of := decimal |}.

(** * Properties of the text functions *)

Example extract_url_spec_example :
  extract_url (u "check this out http://x.test/v/1 thanks") = Some (u "http://x.test/v/1").
Proof. reflexivity. Qed.

Example extract_url_none : extract_url (u "no link in here, just http:// alone") = None.
Proof. reflexivity. Qed.

Example extract_url_upper :
  extract_url (u "see HTTPS://A.b/c?d=1 now") = Some (u "HTTPS://A.b/c?d=1").
Proof. reflexivity. Qed.

Example extract_url_first :
  extract_url (u "https://a.test/1 and http://b.test/2") = Some (u "https://a.test/1").
Proof. reflexivity. Qed.

Example lower_keyword : lower (u "ОтМеНа") ∈ cancel_keywords ∧ lower (u "CANCEL") ∈ cancel_keywords.
Proof. split; vm_compute; [apply list_elem_of_further|]; apply list_elem_of_here. Qed.

Example strip_example : strip (u "   hi  there  ") = u "hi  there".
Proof. reflexivity. Qed.

Lemma literals_cons_nonempty p ps s rest :
  UrlRe.literals (p :: ps) s = Some rest → s ≠ [].
Proof. destruct s; [discriminate | done]. Qed.

(** A match of [URL_RE] is never the empty string. *)
Lemma match_here_nonempty s m : UrlRe.match_here s = Some m → m ≠ [].
Proof.
  unfold UrlRe.match_here.
  destruct (UrlRe.literals _ s) as [rest|] eqn:Hl; [|discriminate].
  apply literals_cons_nonempty in Hl.
  destruct s as [|c s]; [done|].
  intros Hm.
  destruct rest as [|c' rest']; repeat case_match; simplify_option_eq; done.
Qed.

Lemma search_cons c s :
  UrlRe.search (c :: s)
  = match UrlRe.match_here (c :: s) with Some m => Some m | None => UrlRe.search s end.
Proof. reflexivity. Qed.

Lemma extract_url_nonempty text url : extract_url text = Some url → url ≠ [].
Proof.
  unfold extract_url. induction text as [|c text IH].
  - discriminate.
  - rewrite search_cons.
    destruct (UrlRe.match_here (c :: text)) eqn:Hm; [|exact IH].
    intros [= <-]. by eapply match_here_nonempty.
Qed.

(** * Properties of the store *)

Section insert_or_ignore.
Context `{Countable K} {V : Type}.
Implicit Types (k : K) (v : V) (m : gmap K V).

Lemma insert_or_ignore_None k v m :
  m !! k = None → Storage.insert_or_ignore k v m = <[k := v]> m.
Proof. unfold Storage.insert_or_ignore. by intros ->. Qed.

Lemma insert_or_ignore_Some k v x m :
  m !! k = Some x → Storage.insert_or_ignore k v m = m.
Proof. unfold Storage.insert_or_ignore. by intros ->. Qed.

Lemma lookup_insert_or_ignore k v m :
  Storage.insert_or_ignore k v m !! k = Some (default v (m !! k)).
Proof.
  unfold Storage.insert_or_ignore. destruct (m !! k) eqn:E; simpl; [done|].
  apply lookup_insert_eq.
Qed.

Lemma lookup_insert_or_ignore_ne k k' v m :
  k ≠ k' → Storage.insert_or_ignore k v m !! k' = m !! k'.
Proof.
  intros. unfold Storage.insert_or_ignore. destruct (m !! k); [done|].
  by apply lookup_insert_ne.
Qed.
End insert_or_ignore.


(** C10: [get_language] always answers [ru] or [en]; a stored value of
    that set is answered as it is, and when the language is absent (no
    value, or SQL NULL) or outside the set, the answer is [ru]. *)
Theorem get_language_ru_or_en (uid : Z) (s : Storage.t) :
  let stored := Storage.users s !! uid ≫= Storage.language in
  let lang := (Storage.get_language uid s).1 in
  lang ∈ [ru; en]
  ∧ (∀ l, stored = Some l → l ∈ [ru; en] → lang = l)
  ∧ (stored = None ∨ (∃ l, stored = Some l ∧ l ∉ [ru; en]) → lang = ru).
Proof.
  assert (ru ∈ [ru; en]) as Hru by apply list_elem_of_here.
  simpl. unfold Storage.get_language. simpl.
  rewrite lookup_insert_or_ignore.
  destruct (Storage.users s !! uid) as [row|] eqn:Hrow; simpl.
  - destruct (Storage.language row) as [l|] eqn:Hl; simpl.
    + case_bool_decide as Hin.
      * split_and!; [done | by intros ? [= ->] |].
        intros [? | (l' & Hl' & ?)]; [done|]. by injection Hl' as ->.
      * split_and!; [done | | done].
        intros l' Hl' ?. by injection Hl' as ->.
    + split_and!; [done | discriminate | done].
  - split_and!; [done | discriminate | done].
Qed.

Example get_language_unseen : (Storage.get_language 7 Storage.fresh).1 = ru.
Proof. reflexivity. Qed.

Example get_language_roundtrip :
  (Storage.get_language 7 (Storage.set_language 7 en Storage.fresh).2).1 = en.
Proof. vm_compute. reflexivity. Qed.

Example get_language_outside :
  (Storage.get_language 7 (Storage.set_language 7 (u "de") Storage.fresh).2).1 = ru.
Proof. vm_compute. reflexivity. Qed.

Example get_format_roundtrip :
  (Storage.get_format 7 (Storage.set_format 7 mp3 Storage.fresh).2).1 = Some mp3.
Proof. vm_compute. reflexivity. Qed.

Lemma clear_then_get_state uid s :
  (Storage.get_state uid (Storage.clear_state uid s).2).1 = None.
Proof. simpl. apply lookup_delete_eq. Qed.

(** The two reads that create the row of an unseen identity. *)
Lemma get_language_unseen_store uid s :
  Storage.users s !! uid = None →
  Storage.get_language uid s
  = (ru, Storage.with_users <[uid := Storage.default_row]> s).
Proof.
  intros Hnone. unfold Storage.get_language, Storage.upsert_user, Storage.with_users.
  simpl. rewrite (insert_or_ignore_None _ _ _ Hnone).
  by rewrite lookup_insert_eq.
Qed.

Lemma get_format_unseen_store uid s :
  Storage.users s !! uid = None →
  Storage.get_format uid s
  = (Some auto, Storage.with_users <[uid := Storage.default_row]> s).
Proof.
  intros Hnone. unfold Storage.get_format, Storage.upsert_user, Storage.with_users.
  simpl. rewrite (insert_or_ignore_None _ _ _ Hnone).
  by rewrite lookup_insert_eq.
Qed.

(** C4, as the claim has it, fails: on a store without a row for identity 7,
    [has_language] and [get_state] answer and leave the store without it. *)
Lemma has_language_get_state_create_no_row :
  Storage.users Storage.fresh !! 7 = None
  ∧ Storage.users (Storage.has_language 7 Storage.fresh).2 !! 7 = None
  ∧ Storage.users (Storage.get_state 7 Storage.fresh).2 !! 7 = None.
Proof. split_and!; reflexivity. Qed.

(** C4, amended: for an identity without a row, [get_language] and
    [get_format] create the default row before they answer (with the
    defaults [ru] and [auto]), and leave every other row as it was; the
    other reads, [has_language], [get_state], [all_users] and
    [get_media_caption], leave the store as it is, [has_language]
    answering false. *)
Theorem reads_of_unseen_identity (uid : Z) (s : Storage.t)
    (Hunseen : Storage.users s !! uid = None) :
  Storage.get_language uid s = (ru, Storage.with_users <[uid := Storage.default_row]> s)
  ∧ Storage.get_format uid s = (Some auto, Storage.with_users <[uid := Storage.default_row]> s)
  ∧ Storage.has_language uid s = (false, s)
  ∧ (Storage.get_state uid s).2 = s
  ∧ (Storage.all_users s).2 = s
  ∧ (Storage.get_media_caption s).2 = s.
Proof.
  split_and!; try reflexivity.
  - by apply get_language_unseen_store.
  - by apply get_format_unseen_store.
  - unfold Storage.has_language. by rewrite Hunseen.
Qed.

(** The amended C4 on the fresh store and identity 7. *)
Lemma reads_of_unseen_identity_witness :
  Storage.users (Storage.get_language 7 Storage.fresh).2 !! 7 = Some Storage.default_row
  ∧ Storage.has_language 7 Storage.fresh = (false, Storage.fresh).
Proof.
  pose proof (reads_of_unseen_identity 7 Storage.fresh eq_refl) as (Hl & _ & Hh & _).
  split; [|exact Hh]. rewrite Hl. reflexivity.
Defined.

(** * Properties of the subscription gate *)

Local Open Scope action_scope.

(** C6: the gate always answers, and it answers true exactly when the
    transport call returns and the status it reports is member,
    administrator, owner or restricted: any other status, and any exception
    raised by the call, gives false. *)
Theorem check_subscription_fails_closed (e : env) (channel : str) (uid : Z) (w : world) :
  ∃ b : bool,
    (check_subscription e channel uid w).1 = Ok b
    ∧ (b = true ↔
         raises e (log w) (Bot.get_chat_member channel uid) = None
         ∧ member_status e (log w) channel uid ∈ [MEMBER; ADMINISTRATOR; OWNER; RESTRICTED]).
Proof.
  unfold check_subscription, try_except, bot_guarded, bind, ask, emit, raise, ret. simpl.
  destruct (raises e (log w) (Bot.get_chat_member channel uid)) as [x|] eqn:Hr; simpl.
  - exists false. split; [done|]. split; [done|]. by intros [? _].
  - eexists. split; [done|]. rewrite bool_decide_eq_true. tauto.
Qed.

(** The gate on each status, and on a call that raises. *)
Lemma check_subscription_by_status (e : env) (channel : str) (uid : Z) (w : world) :
  raises e (log w) (Bot.get_chat_member channel uid) = None →
  (check_subscription e channel uid w).1
  = Ok match member_status e (log w) channel uid with
       | MEMBER | ADMINISTRATOR | OWNER | RESTRICTED => true
       | LEFT | BANNED => false
       end.
Proof.
  intros Hr.
  unfold check_subscription, try_except, bot_guarded, bind, ask, emit, raise, ret. simpl.
  rewrite Hr. simpl. by destruct (member_status e (log w) channel uid).
Qed.

Lemma check_subscription_on_failure (e : env) (channel : str) (uid : Z) (w : world) x :
  raises e (log w) (Bot.get_chat_member channel uid) = Some x →
  (check_subscription e channel uid w).1 = Ok false.
Proof.
  intros Hr.
  unfold check_subscription, try_except, bot_guarded, bind, ask, emit, raise, ret. simpl.
  by rewrite Hr.
Qed.

(** * Properties of media acquisition *)

Lemma head_insert_by_mtime x l :
  head (insert_by_mtime x l)
  = Some match head l with
         | Some y => if st_mtime x <? st_mtime y then y else x
         | None => x
         end.
Proof. destruct l as [|y l]; simpl; [done|]. by destruct (st_mtime x <? st_mtime y). Qed.

(** The head of the sorted files is a file of the folder that no file of
    the folder is newer than. *)
Lemma head_sort_by_mtime l f :
  head (sort_by_mtime l) = Some f →
  f ∈ l ∧ ∀ g, g ∈ l → st_mtime g ≤ st_mtime f.
Proof.
  revert f. induction l as [|x l IH]; intros f; simpl; [discriminate|].
  rewrite head_insert_by_mtime.
  destruct (head (sort_by_mtime l)) as [y|] eqn:Hy.
  - destruct (IH y eq_refl) as [Hin Hmax].
    destruct (Z.ltb_spec (st_mtime x) (st_mtime y)); intros [= <-].
    + split; [by apply list_elem_of_further|].
      intros g [->|Hg]%elem_of_cons; [lia | by apply Hmax].
    + split; [apply list_elem_of_here|].
      intros g [->|Hg]%elem_of_cons; [lia|]. specialize (Hmax g Hg). lia.
  - intros [= <-]. split; [apply list_elem_of_here|].
    destruct l as [|z l].
    + by intros g ->%list_elem_of_singleton.
    + simpl in Hy. by rewrite head_insert_by_mtime in Hy.
Qed.

(** The file that [find_latest_file] picks is a regular file of the folder,
    and the newest of them. *)
Lemma latest_is_newest entries p :
  latest entries = Some p →
  ∃ f, f ∈ entries ∧ is_file f = true ∧ path f = p
       ∧ ∀ g, g ∈ entries → is_file g = true → st_mtime g ≤ st_mtime f.
Proof.
  unfold latest.
  destruct (sort_by_mtime _) as [|f fs] eqn:Hs; [discriminate|].
  intros [= <-].
  destruct (head_sort_by_mtime (filter (λ p, is_file p = true) entries) f) as [Hin Hmax].
  { by rewrite Hs. }
  apply list_elem_of_filter in Hin as [Hfile Hin].
  exists f. split_and!; [done..|].
  intros g Hg Hgfile. apply Hmax. by apply list_elem_of_filter.
Qed.

Lemma latest_none entries :
  latest entries = None ↔ ∀ f, f ∈ entries → is_file f = false.
Proof.
  unfold latest. split.
  - destruct (sort_by_mtime _) as [|f0 fs] eqn:Hs; [|discriminate].
    intros _ f Hf. destruct (is_file f) eqn:Hfile; [|done].
    destruct (filter _ entries) as [|x l] eqn:Hfl.
    + assert (f ∈ filter (λ p, is_file p = true) entries) as Hin
        by by apply list_elem_of_filter.
      rewrite Hfl in Hin. by apply elem_of_nil in Hin.
    + simpl in Hs. apply (f_equal head) in Hs.
      by rewrite head_insert_by_mtime in Hs.
  - intros Hall.
    replace (filter (λ p, is_file p = true) entries) with (@nil DirEntry); [done|].
    symmetry. apply elem_of_nil_inv. intros f [Hfile Hin]%list_elem_of_filter.
    by rewrite (Hall f Hin) in Hfile.
Qed.


(** Case analysis on the file that a scan of the folder finds. *)
Ltac case_latest :=
  match goal with
  | |- context [latest ?entries] => destruct (latest entries) eqn:?
  end.

(** What [download_media] gives, from the runs of the two tools and the
    state of the scratch folder after each. *)
Lemma download_media_outcome (e : env) (url dir : str) (w : world) :
  let l1 := log w ++ [Sys (Os.run (yt_cmd url dir))] in
  (download_media e url dir w).1
  = match subprocess_run e (log w) (yt_cmd url dir) with
    | Raise x => Raise x
    | Ok yt =>
        let first :=
          if bool_decide (returncode yt = 0) then latest (listing e l1 dir) else None in
        let l2 := if bool_decide (returncode yt = 0) then l1 ++ [Sys (Os.rglob dir)] else l1 in
        match first with
        | Some f => Ok f
        | None =>
            match subprocess_run e l2 (gd_cmd url dir) with
            | Raise x => Raise x
            | Ok gd =>
                let l3 := l2 ++ [Sys (Os.run (gd_cmd url dir))] in
                let second :=
                  if bool_decide (returncode gd = 0) then latest (listing e l3 dir)
                  else None in
                match second with
                | Some f => Ok f
                | None => Raise (download_failed (combined_output yt) (combined_output gd))
                end
            end
        end
    end.
Proof.
  cbv zeta.
  unfold download_media, run_command, find_latest_file, bind, ask, emit, ret, raise, of_result.
  cbn [db log fst snd].
  destruct (subprocess_run e (log w) (yt_cmd url dir)) as [yt|x]; cbn [db log fst snd]; [|done].
  case_bool_decide; cbn [db log fst snd]; [case_latest; cbn [db log fst snd]; [done|]|];
    (match goal with
     | |- context [subprocess_run e ?l (gd_cmd url dir)] =>
         destruct (subprocess_run e l (gd_cmd url dir)) as [gd|x]
     end; cbn [db log fst snd]; [|done];
     case_bool_decide; cbn [db log fst snd]; [case_latest|]; done).
Qed.

(** A file comes back only after a tool that ran and exited with success
    left a regular file in the scratch folder, and it is the newest file
    there. *)
Lemma download_media_file_after_success (e : env) (url dir : str) (w : world) f :
  (download_media e url dir w).1 = Ok f →
  ∃ l cmd proc, cmd ∈ [yt_cmd url dir; gd_cmd url dir]
                ∧ subprocess_run e l cmd = Ok proc
                ∧ returncode proc = 0
                ∧ latest (listing e (l ++ [Sys (Os.run cmd)]) dir) = Some f.
Proof.
  rewrite download_media_outcome. cbv zeta.
  assert (yt_cmd url dir ∈ [yt_cmd url dir; gd_cmd url dir]) by apply list_elem_of_here.
  assert (gd_cmd url dir ∈ [yt_cmd url dir; gd_cmd url dir])
    by apply list_elem_of_further, list_elem_of_here.
  destruct (subprocess_run e (log w) (yt_cmd url dir)) as [yt|x] eqn:Hyt; [|done].
  case_bool_decide as Hcode; [case_latest; [intros [= <-]; eauto 8|]|];
    (match goal with
     | |- context [subprocess_run e ?l (gd_cmd url dir)] =>
         destruct (subprocess_run e l (gd_cmd url dir)) as [gd|x] eqn:Hgd
     end; [|done];
     case_bool_decide; [case_latest|]; intros [= <-]; eauto 8).
Qed.

(** When both tools ran and neither passes the check, the error carries the
    first 350 characters of the output of each. *)
Lemma download_media_both_fail (e : env) (url dir : str) (w : world) yt gd :
  let l1 := log w ++ [Sys (Os.run (yt_cmd url dir))] in
  let l2 := if bool_decide (returncode yt = 0) then l1 ++ [Sys (Os.rglob dir)] else l1 in
  let l3 := l2 ++ [Sys (Os.run (gd_cmd url dir))] in
  subprocess_run e (log w) (yt_cmd url dir) = Ok yt →
  subprocess_run e l2 (gd_cmd url dir) = Ok gd →
  (returncode yt ≠ 0 ∨ latest (listing e l1 dir) = None) →
  (returncode gd ≠ 0 ∨ latest (listing e l3 dir) = None) →
  (download_media e url dir w).1
  = Raise (RuntimeError (u "Download failed. yt-dlp: " ++ take 350 (combined_output yt)
                           ++ u " | gallery-dl: " ++ take 350 (combined_output gd))).
Proof.
  cbv zeta. intros Hrun1 Hrun2 Hyt Hgd. rewrite download_media_outcome. cbv zeta.
  rewrite Hrun1.
  assert ((if bool_decide (returncode yt = 0)
           then latest (listing e (log w ++ [Sys (Os.run (yt_cmd url dir))]) dir)
           else None) = None) as ->.
  { case_bool_decide; [|done]. by destruct Hyt. }
  rewrite Hrun2.
  match goal with |- match ?x with _ => _ end = _ => assert (x = None) as -> end; [|done].
  match goal with
  | |- (if ?b then _ else _) = None => destruct b eqn:Hb; [|done]
  end.
  apply bool_decide_eq_true in Hb. by destruct Hgd.
Qed.

(** C5, the defect: the fallback is checked against the whole scratch
    folder, so a file left by the failed primary tool comes back.  Here the
    primary tool exits with 1 after writing a partial file, the fallback
    exits with 0 and writes nothing, and the partial file is the result. *)
Theorem download_media_returns_file_of_failed_tool :
  let url := u "http://x.test/v/1" in
  let dir := u "/tmp/tg_dl_0" in
  let after_yt := [Sys (Os.run (yt_cmd url dir))] in
  let after_gd := after_yt ++ [Sys (Os.run (gd_cmd url dir))] in
  subprocess_run leftover [] (yt_cmd url dir)
  = Ok {| returncode := 1; stdout := Some []; stderr := Some (u "ERROR: connection reset") |}
  ∧ listing leftover after_yt dir = [part_file]
  ∧ subprocess_run leftover after_yt (gd_cmd url dir)
    = Ok {| returncode := 0; stdout := Some []; stderr := Some [] |}
  ∧ listing leftover after_gd dir = [part_file]
  ∧ (download_media leftover url dir {| db := Storage.fresh; log := [] |}).1
    = Ok (path part_file).
Proof. cbv zeta. split_and!; vm_compute; reflexivity. Qed.

(** * Reasoning on computations *)

Global Instance same_settings_preorder : PreOrder same_settings.
Proof. split; [done|]. intros s1 s2 s3 H12 H23. unfold same_settings in *. congruence. Qed.

Global Instance same_settings_and_states_preorder : PreOrder same_settings_and_states.
Proof.
  split; [done|]. intros s1 s2 s3 [? ?] [? ?]. unfold same_settings_and_states. split; congruence.
Qed.

Section frame.
Context (P : event → Prop) (R : relation Storage.t) `{!PreOrder R}.

Lemma keeps_same_world {A} (m : M A) : (∀ w, (m w).2 = w) → keeps P R m.
Proof.
  intros Hm w. rewrite Hm. split; [done|]. exists []. by rewrite app_nil_r.
Qed.

Lemma keeps_ret {A} (a : A) : keeps P R (ret a).
Proof. by apply keeps_same_world. Qed.

Lemma keeps_raise {A} (x : exn) : keeps P R (raise x : M A).
Proof. by apply keeps_same_world. Qed.

Lemma keeps_of_result {A} (r : result A) : keeps P R (of_result r).
Proof. by apply keeps_same_world. Qed.

Lemma keeps_ask {A} (f : list event → A) : keeps P R (ask f).
Proof. by apply keeps_same_world. Qed.

Lemma keeps_emit ev : P ev → keeps P R (emit ev).
Proof. intros Hev w. simpl. split; [done|]. exists [ev]. split; [done|]. by constructor. Qed.

Lemma keeps_storage {A} c (f : Storage.t → A * Storage.t) :
  P (Db c) → (∀ s, R s (f s).2) → keeps P R (storage c f).
Proof.
  intros Hc Hf w. unfold storage. specialize (Hf (db w)).
  destruct (f (db w)) as [a s']. simpl in *.
  split; [done|]. exists [Db c]. split; [done|]. by constructor.
Qed.

Lemma keeps_bind {A B} (m : M A) (k : A → M B) :
  keeps P R m → (∀ a, keeps P R (k a)) → keeps P R (bind m k).
Proof.
  intros Hm Hk w. unfold bind. destruct (Hm w) as (HR & l & Hl & HP).
  destruct (m w) as [[a|x] w1]; simpl in *.
  - destruct (Hk a w1) as (HR' & l' & Hl' & HP').
    split; [by etrans|]. exists (l ++ l'). rewrite Hl', Hl, (assoc_L (++)).
    split; [done|]. by apply Forall_app.
  - split; [done|]. by exists l.
Qed.

Lemma keeps_try_except {A} (body : M A) (handler : exn → M A) :
  keeps P R body → (∀ x, keeps P R (handler x)) → keeps P R (try_except body handler).
Proof.
  intros Hm Hk w. unfold try_except. destruct (Hm w) as (HR & l & Hl & HP).
  destruct (body w) as [[a|x] w1]; simpl in *.
  - split; [done|]. by exists l.
  - destruct (Hk x w1) as (HR' & l' & Hl' & HP').
    split; [by etrans|]. exists (l ++ l'). rewrite Hl', Hl, (assoc_L (++)).
    split; [done|]. by apply Forall_app.
Qed.

Lemma keeps_try_finally {A} (body : M A) (final : M unit) :
  keeps P R body → keeps P R final → keeps P R (try_finally body final).
Proof.
  intros Hm Hk w. unfold try_finally. destruct (Hm w) as (HR & l & Hl & HP).
  destruct (body w) as [r w1]; simpl in *.
  destruct (Hk w1) as (HR' & l' & Hl' & HP').
  assert (R (db w) (db (final w1).2)) by by etrans.
  assert (∃ l0, log (final w1).2 = log w ++ l0 ∧ Forall P l0).
  { exists (l ++ l'). rewrite Hl', Hl, (assoc_L (++)). split; [done|]. by apply Forall_app. }
  by destruct (final w1) as [[[]|x] w2].
Qed.

Lemma keeps_bot c : P (Tg c) → keeps P R (bot c).
Proof. apply keeps_emit. Qed.

Lemma keeps_bot_guarded e c : P (Tg c) → keeps P R (bot_guarded e c).
Proof.
  intros Hc. unfold bot_guarded.
  apply keeps_bind; [apply keeps_ask|]. intros r.
  apply keeps_bind; [by apply keeps_emit|]. intros _.
  destruct r; [apply keeps_raise | apply keeps_ret].
Qed.

Lemma keeps_reply_text update text markup :
  P (Tg (Bot.reply_text text markup)) → keeps P R (reply_text update text markup).
Proof.
  intros Hc. unfold reply_text. destruct (message update); [by apply keeps_bot | apply keeps_raise].
Qed.

End frame.

Lemma keeps_weaken (P P' : event → Prop) (R R' : relation Storage.t) {A} (m : M A) :
  (∀ ev, P ev → P' ev) → (∀ s s', R s s' → R' s s') → keeps P R m → keeps P' R' m.
Proof.
  intros HP HR Hm w. destruct (Hm w) as (? & l & ? & Hl).
  split; [by apply HR|]. exists l. split; [done|]. eapply Forall_impl; eauto.
Qed.

(** One step of the proof that a computation keeps [P] and [R]: the rule
    of the construct at its head. *)
Ltac keeps_rule lem := apply lem; try exact _.

Ltac keeps_step :=
  first
    [ keeps_rule @keeps_ret | keeps_rule @keeps_raise | keeps_rule @keeps_of_result
    | keeps_rule @keeps_ask | keeps_rule @keeps_bot_guarded | keeps_rule @keeps_bot
    | keeps_rule @keeps_reply_text | keeps_rule @keeps_emit | keeps_rule @keeps_storage
    | keeps_rule @keeps_bind; [|intros ?]
    | keeps_rule @keeps_try_except; [|intros ?]
    | keeps_rule @keeps_try_finally
    | match goal with
      | |- keeps _ _ (if ?b then _ else _) => destruct b
      | |- keeps _ _ (match ?x with _ => _ end) => destruct x
      end ].

Section returns.

Lemma returns_ret {A} (a : A) : returns (ret a).
Proof. intros w. by exists a. Qed.

Lemma returns_emit ev : returns (emit ev).
Proof. intros w. by exists tt. Qed.

Lemma returns_bot c : returns (bot c).
Proof. apply returns_emit. Qed.

Lemma returns_ask {A} (f : list event → A) : returns (ask f).
Proof. intros w. by eexists. Qed.

Lemma returns_storage {A} c (f : Storage.t → A * Storage.t) : returns (storage c f).
Proof. intros w. unfold storage. destruct (f (db w)). by eexists. Qed.

Lemma returns_bind {A B} (m : M A) (k : A → M B) :
  returns m → (∀ a, returns (k a)) → returns (bind m k).
Proof.
  intros Hm Hk w. unfold bind. destruct (Hm w) as [a Ha].
  destruct (m w) as [r w1]. simpl in Ha. subst r. apply Hk.
Qed.

Lemma returns_try_except {A} (body : M A) (handler : exn → M A) :
  (∀ x, returns (handler x)) → returns (try_except body handler).
Proof.
  intros Hk w. unfold try_except. destruct (body w) as [[a|x] w1]; [by exists a|]. apply Hk.
Qed.

End returns.

(** * Properties of the download pipeline *)

Lemma check_subscription_keeps e channel uid :
  keeps pipeline_event same_settings_and_states (check_subscription e channel uid).
Proof. unfold check_subscription. repeat keeps_step; done. Qed.

Lemma run_command_keeps e cmd :
  keeps pipeline_event same_settings_and_states (run_command e cmd).
Proof. unfold run_command. repeat keeps_step; done. Qed.

Lemma find_latest_file_keeps e folder :
  keeps pipeline_event same_settings_and_states (find_latest_file e folder).
Proof. unfold find_latest_file. repeat keeps_step; done. Qed.

Lemma download_media_keeps e url dir :
  keeps pipeline_event same_settings_and_states (download_media e url dir).
Proof.
  unfold download_media.
  repeat first [apply run_command_keeps | apply find_latest_file_keeps | keeps_step]; done.
Qed.

Lemma ffmpeg_convert_keeps e source preset :
  keeps pipeline_event same_settings_and_states (ffmpeg_convert e source preset).
Proof.
  unfold ffmpeg_convert.
  repeat first [apply run_command_keeps | keeps_step]; done.
Qed.

Lemma acquire_and_send_keeps e cfg chat_id sender_id url lang tmp :
  keeps pipeline_event same_settings_and_states
    (acquire_and_send e cfg chat_id sender_id url lang tmp).
Proof.
  unfold acquire_and_send.
  repeat first [apply download_media_keeps | apply ffmpeg_convert_keeps | keeps_step];
    done.
Qed.

Lemma handle_download_keeps e cfg chat_id sender_id url lang :
  keeps pipeline_event same_settings_and_states
    (handle_download e cfg chat_id sender_id url lang).
Proof.
  unfold handle_download.
  repeat first [apply check_subscription_keeps | apply acquire_and_send_keeps | keeps_step];
    done.
Qed.

Lemma check_subscription_returns e channel uid : returns (check_subscription e channel uid).
Proof. apply returns_try_except. intros _. apply returns_ret. Qed.

(** The pipeline reports every failure in the chat: it never raises. *)
Lemma handle_download_returns e cfg chat_id sender_id url lang w :
  (handle_download e cfg chat_id sender_id url lang w).1 = Ok tt.
Proof.
  assert (returns (handle_download e cfg chat_id sender_id url lang)) as Hr.
  { unfold handle_download. apply returns_bind; [apply check_subscription_returns|].
    intros [|]; simpl.
    - apply returns_bind; [apply returns_bot|]. intros _.
      apply returns_try_except. intros x. apply returns_bot.
    - apply returns_bot. }
  destruct (Hr w) as [[] Hw]. exact Hw.
Qed.

Lemma check_subscription_world e channel uid w :
  (check_subscription e channel uid w).2
  = {| db := db w; log := log w ++ [Tg (Bot.get_chat_member channel uid)] |}.
Proof.
  unfold check_subscription, try_except, bot_guarded, bind, ask, emit, raise, ret. simpl.
  by destruct (raises e (log w) (Bot.get_chat_member channel uid)).
Qed.

(** The pipeline opens with the question to the subscription gate. *)
Lemma handle_download_asks_gate e cfg chat_id sender_id url lang w :
  ∃ rest,
    log (handle_download e cfg chat_id sender_id url lang w).2
    = log w ++ Tg (Bot.get_chat_member (required_channel cfg) sender_id) :: rest
    ∧ Forall pipeline_event rest.
Proof.
  unfold handle_download. unfold bind at 1.
  pose proof (check_subscription_world e (required_channel cfg) sender_id w) as Hw.
  destruct (check_subscription_returns e (required_channel cfg) sender_id w) as [b Hb].
  destruct (check_subscription e (required_channel cfg) sender_id w) as [r w1].
  simpl in Hw, Hb. subst r w1.
  match goal with
  | |- ∃ rest, log (?k ?w1).2 = _ ∧ _ =>
      assert (keeps pipeline_event same_settings_and_states k) as Hk
  end.
  { repeat first [apply acquire_and_send_keeps | keeps_step]; done. }
  match type of Hk with keeps _ _ ?k => destruct (Hk {| db := db w; log := log w ++ [Tg (Bot.get_chat_member (required_channel cfg) sender_id)] |}) as (_ & l & Hl & HP) end.
  exists l. split; [|done]. rewrite Hl. simpl. by rewrite <- (assoc_L (++)).
Qed.

(** * Properties of the broadcast *)

Lemma tally_cons b d ds :
  tally b (d :: ds) = (if bool_decide (d = b) then 1 else 0) + tally b ds.
Proof.
  unfold tally. rewrite filter_cons. case_bool_decide; case_decide; try done; simpl; lia.
Qed.

Lemma tally_total ds : tally true ds + tally false ds = Z.of_nat (length ds).
Proof.
  induction ds as [|[] ds IH]; [done|..]; rewrite !tally_cons; simpl length;
    repeat case_bool_decide; try done; lia.
Qed.

Lemma length_deliveries e text users l : length (deliveries e text users l) = length users.
Proof. revert l. induction users as [|user users IH]; intros l; simpl; [done|]. by rewrite IH. Qed.

(** The loop sends to every user once, in the order of the list, whatever
    the sends do; it counts the sends that returned as sent and the ones
    that raised as failed, and leaves the store alone. *)
Lemma broadcast_run e text users sent failed w :
  let ds := deliveries e text users (log w) in
  broadcast e text users sent failed w
  = (Ok (sent + tally true ds, failed + tally false ds),
     {| db := db w;
        log := log w ++ ((λ user, Tg (Bot.send_message user (Plain text) None)) <$> users) |}).
Proof.
  revert sent failed w. induction users as [|user users IH]; intros sent failed w.
  - simpl. unfold ret, tally. simpl. rewrite !Z.add_0_r, app_nil_r. by destruct w.
  - cbn [broadcast deliveries]. cbv zeta. rewrite !tally_cons.
    unfold bind at 1. unfold try_except, bot_guarded, bind, ask, emit, raise, ret.
    cbn [db log fst snd].
    destruct (raises e (log w) (Bot.send_message user (Plain text) None)) eqn:Hr;
      rewrite IH; cbn [db log fst snd fmap list_fmap];
      repeat case_bool_decide; try done;
      rewrite <- (assoc_L (++)), !Z.add_assoc, !Z.add_0_r; reflexivity.
Qed.

(** * Properties of the conversation engine *)

(** [search] answers the match at the leftmost position that has one. *)
Lemma search_leftmost s m :
  UrlRe.search s = Some m →
  ∃ i, UrlRe.match_here (drop i s) = Some m
       ∧ ∀ j, (j < i)%nat → UrlRe.match_here (drop j s) = None.
Proof.
  induction s as [|c s IH].
  - discriminate.
  - rewrite search_cons. destruct (UrlRe.match_here (c :: s)) as [m'|] eqn:Hm.
    + intros [= <-]. exists 0%nat. split; [done | lia].
    + intros (i & Hi & Hlt)%IH. exists (S i). split; [done|].
      intros [|j] Hj; [done|]. apply Hlt. lia.
Qed.

(** [search] answers nothing only when no position has a match. *)
Lemma search_none s i : UrlRe.search s = None → UrlRe.match_here (drop i s) = None.
Proof.
  revert i. induction s as [|c s IH]; intros i.
  - intros _. by rewrite drop_nil.
  - rewrite search_cons. destruct (UrlRe.match_here (c :: s)) eqn:Hm; [discriminate|].
    intros Hs. destruct i as [|i]; [done|]. by apply IH.
Qed.

Lemma upsert_user_twice uid s :
  (Storage.upsert_user uid (Storage.upsert_user uid s).2).2 = (Storage.upsert_user uid s).2.
Proof.
  unfold Storage.upsert_user, Storage.with_users. simpl. f_equal.
  unfold Storage.insert_or_ignore at 1. by rewrite lookup_insert_or_ignore.
Qed.

Lemma get_language_after_upsert uid s :
  Storage.get_language uid (Storage.upsert_user uid s).2
  = ((Storage.get_language uid s).1, (Storage.upsert_user uid s).2).
Proof.
  unfold Storage.get_language.
  pose proof (upsert_user_twice uid s) as H2.
  destruct (Storage.upsert_user uid (Storage.upsert_user uid s).2) as [[] s2].
  destruct (Storage.upsert_user uid s) as [[] s1]. simpl in *. by subst s2.
Qed.

Lemma storage_run {A} c (f : Storage.t → A * Storage.t) w :
  storage c f w = (Ok (f (db w)).1, logged (Db c) {| db := (f (db w)).2; log := log w |}).
Proof. unfold storage. by destruct (f (db w)). Qed.

Lemma bot_run c w : bot c w = (Ok tt, logged (Tg c) w).
Proof. reflexivity. Qed.

Lemma bind_run {A B} (m : M A) (k : A → M B) w a w' :
  m w = (Ok a, w') → bind m k w = k a w'.
Proof. unfold bind. by intros ->. Qed.

(** C8: a text message that is empty, or blank once stripped, is dropped
    before anything is done: the handler returns in the world it found, with
    the same store (no row, no state touched) and the same log (no reply, no
    store method called, so no state is read), whatever state the sender is
    in.  The same holds of an update without a chat, a user or a message. *)
Theorem blank_text_does_nothing (e : env) (cfg : Config) (update : Update) (w : world)
    (Hblank : ∀ msg, message update = Some msg → strip (or_str (text msg) []) = []) :
  message_handler e cfg update w = (Ok tt, w).
Proof.
  unfold message_handler.
  destruct (effective_chat update), (effective_user update), (message update) as [msg|];
    try done.
  by rewrite (Hblank msg eq_refl).
Qed.

(** C8 on a sender who awaits a link and sends two spaces. *)
Lemma blank_text_does_nothing_witness :
  message_handler calm cfg0 (private_text 42 (u "  ")) (awaiting 42 awaiting_url)
  = (Ok tt, awaiting 42 awaiting_url).
Proof.
  apply (blank_text_does_nothing calm cfg0 (private_text 42 (u "  "))
           (awaiting 42 awaiting_url)).
  intros msg [= <-]. reflexivity.
Defined.

Section text_message.
Context (e : env) (cfg : Config) (update : Update) (chat : Chat) (uid : Z) (msg : Message).
Context (Hchat : effective_chat update = Some chat).
Context (Huser : effective_user update = Some uid).
Context (Hmsg : message update = Some msg).

(** A text of a private chat that is not blank and not [/start] reaches
    the conversation. *)
Lemma message_handler_private w :
  let txt := strip (or_str (text msg) []) in
  chat_type chat = PRIVATE → txt ≠ [] → txt ≠ start_command →
  message_handler e cfg update w
  = private_chat e cfg update chat uid (Storage.get_language uid (db w)).1 txt
      (bool_decide (uid = owner_id cfg)) (entered uid w).
Proof.
  intros txt Hprivate Hne Hstart. unfold message_handler.
  rewrite Hchat, Huser, Hmsg. fold txt.
  rewrite (bool_decide_eq_false_2 _ Hne).
  unfold bind. rewrite !storage_run. cbn [fst snd db log logged].
  rewrite get_language_after_upsert. cbn [fst snd db log].
  rewrite (bool_decide_eq_true_2 _ Hprivate), (bool_decide_eq_false_2 _ Hstart).
  unfold entered, logged. cbn [db log]. by rewrite <- (assoc_L (++)).
Qed.

(** ... and, when it is no cancel keyword, it is read against the state of
    the sender. *)
Lemma message_handler_awaited w :
  let txt := strip (or_str (text msg) []) in
  chat_type chat = PRIVATE → txt ≠ [] → txt ≠ start_command →
  lower txt ∉ cancel_keywords →
  message_handler e cfg update w
  = awaited_input e cfg update chat uid (Storage.get_language uid (db w)).1 txt
      (bool_decide (uid = owner_id cfg)) (Storage.user_states (db w) !! uid)
      (logged (Db (Call.get_state uid)) (entered uid w)).
Proof.
  intros txt Hprivate Hne Hstart Hcancel.
  rewrite message_handler_private by done. fold txt.
  unfold private_chat. unfold bind at 1. rewrite storage_run. cbn [fst snd].
  by rewrite (bool_decide_eq_false_2 _ Hcancel).
Qed.

Lemma reply_text_run text markup w :
  reply_text update text markup w = (Ok tt, logged (Tg (Bot.reply_text text markup)) w).
Proof. unfold reply_text. by rewrite Hmsg. Qed.

(** C1, amended: in a private chat, a sender in state [awaiting_url]
    sends a text that, once stripped, is not empty, is not [/start] and is no
    cancel keyword.  If the text holds a link, the state is cleared, the
    download pipeline runs on the leftmost link (it opens with the question
    to the subscription gate) and leaves the state cleared, and the menu is
    shown again.  If it holds none, the only reply is the bad-link message
    and the sender stays in [awaiting_url]. *)
Theorem awaiting_url_text (w : world) :
  let txt := strip (or_str (text msg) []) in
  let lang := (Storage.get_language uid (db w)).1 in
  let is_owner := bool_decide (uid = owner_id cfg) in
  let w1 := logged (Db (Call.get_state uid)) (entered uid w) in
  chat_type chat = PRIVATE → txt ≠ [] → txt ≠ start_command →
  lower txt ∉ cancel_keywords →
  Storage.user_states (db w) !! uid = Some awaiting_url →
  match extract_url txt with
  | Some url =>
      let w2 := logged (Db (Call.clear_state uid))
                  {| db := (Storage.clear_state uid (db w1)).2; log := log w1 |} in
      let w3 := (handle_download e cfg (chat_id chat) uid url lang w2).2 in
      message_handler e cfg update w
      = (Ok tt,
         logged (Tg (Bot.reply_text (t lang Key.menu) (Some (make_menu lang is_owner)))) w3)
      ∧ Storage.user_states (db w3) !! uid = None
      ∧ (∃ rest, log w3
                 = log w2 ++ Tg (Bot.get_chat_member (required_channel cfg) uid) :: rest)
      ∧ (∃ i, UrlRe.match_here (drop i txt) = Some url
              ∧ ∀ j, (j < i)%nat → UrlRe.match_here (drop j txt) = None)
  | None =>
      message_handler e cfg update w
      = (Ok tt, logged (Tg (Bot.reply_text (t lang Key.bad_link) None)) w1)
      ∧ Storage.user_states (db w1) !! uid = Some awaiting_url
      ∧ ∀ i, UrlRe.match_here (drop i txt) = None
  end.
Proof.
  intros txt lang is_owner w1 Hprivate Hne Hstart Hcancel Hstate.
  pose proof (message_handler_awaited w Hprivate Hne Hstart Hcancel) as Hrun.
  fold txt lang is_owner w1 in Hrun. rewrite Hstate in Hrun.
  unfold awaited_input in Hrun. rewrite (bool_decide_eq_true_2 _ eq_refl) in Hrun.
  destruct (extract_url txt) as [url|] eqn:Hurl.
  - destruct url as [|c url']; [by apply extract_url_nonempty in Hurl|].
    cbv zeta in *. rewrite Hrun. clear Hrun.
    unfold bind at 1. rewrite storage_run. cbn [fst snd].
    set (w2 := logged _ {| db := (Storage.clear_state uid (db w1)).2; log := log w1 |}).
    pose proof (handle_download_returns e cfg (chat_id chat) uid (c :: url') lang w2) as Hret.
    destruct (handle_download_keeps e cfg (chat_id chat) uid (c :: url') lang w2)
      as ([Hstates _] & _).
    destruct (handle_download_asks_gate e cfg (chat_id chat) uid (c :: url') lang w2)
      as (rest & Hlog & _).
    unfold bind.
    destruct (handle_download e cfg (chat_id chat) uid (c :: url') lang w2) as [r w3].
    cbn [fst snd] in *. subst r. rewrite reply_text_run.
    split_and!; [done | | by exists rest | by apply search_leftmost].
    rewrite Hstates. subst w2. simpl. apply lookup_delete_eq.
  - rewrite Hrun, reply_text_run. split_and!; [done.. |].
    intros i. by apply search_none.
Qed.

Lemma state_caption_is_not_url :
  bool_decide (Some awaiting_caption = Some awaiting_url) = false.
Proof. reflexivity. Qed.

Lemma state_broadcast_is_not_url :
  bool_decide (Some awaiting_broadcast = Some awaiting_url) = false.
Proof. reflexivity. Qed.

Lemma state_broadcast_is_not_caption :
  bool_decide (Some awaiting_broadcast = Some awaiting_caption) = false.
Proof. reflexivity. Qed.


(** C7: in a private chat, the owner in state [awaiting_broadcast] sends a
    text that, once stripped, is not empty, is not [/start] and is no cancel
    keyword.  After the state is cleared and the users are read, the handler
    sends the text to every user of the list, once each and in the order of
    the list, whether or not earlier sends raised; the sends that returned
    are counted as sent, the ones that raised as failed, the two numbers add
    up to the number of users, and the reply reports them.  No identity is
    twice in the list. *)
Theorem broadcast_attempts_every_user (w : world) :
  let txt := strip (or_str (text msg) []) in
  let lang := (Storage.get_language uid (db w)).1 in
  let users := (Storage.all_users (db (entered uid w))).1 in
  let before := log w ++ [Db (Call.upsert_user uid); Db (Call.get_language uid);
                          Db (Call.get_state uid); Db (Call.clear_state uid);
                          Db Call.all_users] in
  let ds := deliveries e txt users before in
  let w' := (message_handler e cfg update w).2 in
  chat_type chat = PRIVATE → txt ≠ [] → txt ≠ start_command →
  lower txt ∉ cancel_keywords →
  uid = owner_id cfg →
  Storage.user_states (db w) !! uid = Some awaiting_broadcast →
  (message_handler e cfg update w).1 = Ok tt
  ∧ log w' = before
             ++ ((λ user, Tg (Bot.send_message user (Plain txt) None)) <$> users)
             ++ [Tg (Bot.reply_text
                       (t lang (Key.broadcast_done (tally true ds) (tally false ds)))
                       (Some (make_menu lang true)))]
  ∧ length ds = length users
  ∧ tally true ds + tally false ds = Z.of_nat (length users)
  ∧ NoDup users
  ∧ Storage.user_states (db w') !! uid = None.
Proof.
  intros txt lang users before ds w' Hprivate Hne Hstart Hcancel Howner Hstate.
  subst w'.
  rewrite (message_handler_awaited w Hprivate Hne Hstart Hcancel).
  fold txt lang. rewrite Hstate. unfold awaited_input.
  rewrite state_broadcast_is_not_url, state_broadcast_is_not_caption,
    (bool_decide_eq_true_2 _ eq_refl), (bool_decide_eq_true_2 _ Howner).
  cbn [andb]. unfold bind.
  repeat (rewrite ?storage_run, ?broadcast_run, ?reply_text_run; cbv zeta; cbn [fst snd]).
  unfold logged, entered. cbn [db log fst snd].
  assert ((((log w ++ [Db (Call.upsert_user uid); Db (Call.get_language uid)])
              ++ [Db (Call.get_state uid)]) ++ [Db (Call.clear_state uid)])
            ++ [Db Call.all_users] = before) as ->.
  { unfold before. by rewrite <- !(assoc_L (++)). }
  split_and!.
  - done.
  - by rewrite <- (assoc_L (++)), !Z.add_0_l.
  - apply length_deliveries.
  - rewrite tally_total. unfold ds. by rewrite length_deliveries.
  - unfold users, Storage.all_users. cbn [fst].
    rewrite merge_sort_Permutation. apply NoDup_fst_map_to_list.
  - simpl. apply lookup_delete_eq.
Qed.

End text_message.

(** The amended C1 on a text without a link and on a text with one. *)
Lemma awaiting_url_text_witness :
  Storage.user_states
    (db (message_handler calm cfg0 (private_text 42 (u "nothing to see"))
           (awaiting 42 awaiting_url)).2) !! 42 = Some awaiting_url
  ∧ Storage.user_states
      (db (message_handler calm cfg0 (private_text 42 (u "see http://x.test/v/1 ok"))
             (awaiting 42 awaiting_url)).2) !! 42 = None.
Proof.
  split.
  - pose proof (awaiting_url_text calm cfg0 (private_text 42 (u "nothing to see"))
                  {| chat_id := 42; chat_type := PRIVATE |} 42
                  {| text := Some (u "nothing to see") |} eq_refl eq_refl eq_refl
                  (awaiting 42 awaiting_url)) as H.
    cbv zeta in H.
    change (extract_url _) with (@None str) in H.
    destruct H as (-> & Hst & _); [done | compute_done | compute_done | compute_done | done |].
    exact Hst.
  - pose proof (awaiting_url_text calm cfg0 (private_text 42 (u "see http://x.test/v/1 ok"))
                  {| chat_id := 42; chat_type := PRIVATE |} 42
                  {| text := Some (u "see http://x.test/v/1 ok") |} eq_refl eq_refl eq_refl
                  (awaiting 42 awaiting_url)) as H.
    cbv zeta in H.
    change (extract_url _) with (Some (u "http://x.test/v/1")) in H.
    destruct H as (-> & Hst & _); [done | compute_done | compute_done | compute_done | done |].
    exact Hst.
Defined.

(** C1, as the claim has it, fails: a sender in [awaiting_url] who sends
    [/start], a text without a link that is no cancel keyword, gets no
    bad-link message.  [main] gives the command to [start_handler], which
    registers the sender and answers with the locale prompt (the sender has
    confirmed no language), and the state stays as it is. *)
Lemma start_command_gets_no_bad_link :
  extract_url start_command = None
  ∧ (lower start_command ∉ cancel_keywords)
  ∧ handle calm cfg0 (Command (private_text 42 start_command)) (awaiting 42 awaiting_url)
    = (Ok tt,
       {| db := db (awaiting 42 awaiting_url);
          log := [Db (Call.upsert_user 42); Db (Call.has_language 42);
                  Tg (Bot.reply_text (Template ru Key.choose_lang)
                        (Some make_language_buttons))] |})
  ∧ Storage.user_states (db (awaiting 42 awaiting_url)) !! 42 = Some awaiting_url.
Proof. split_and!; [reflexivity | compute_done | reflexivity | reflexivity]. Qed.




(** C7 on the example of the specification: the users 1, 2 and 3, the
    send to 2 raising; all three are attempted, two sent and one failed. *)
Lemma broadcast_attempts_every_user_witness :
  log (message_handler deaf_to_2 cfg0 (private_text 1 (u "hello")) three_users).2
  = [Db (Call.upsert_user 1); Db (Call.get_language 1); Db (Call.get_state 1);
     Db (Call.clear_state 1); Db Call.all_users;
     Tg (Bot.send_message 1 (Plain (u "hello")) None);
     Tg (Bot.send_message 2 (Plain (u "hello")) None);
     Tg (Bot.send_message 3 (Plain (u "hello")) None);
     Tg (Bot.reply_text (t ru (Key.broadcast_done 2 1)) (Some (make_menu ru true)))].
Proof.
  pose proof (broadcast_attempts_every_user deaf_to_2 cfg0 (private_text 1 (u "hello"))
                {| chat_id := 1; chat_type := PRIVATE |} 1
                {| text := Some (u "hello") |} eq_refl eq_refl eq_refl three_users) as H.
  cbv zeta in H.
  destruct H as (_ & Hlog & _); [done | compute_done | compute_done | compute_done | done | done |].
  rewrite Hlog. vm_compute. reflexivity.
Defined.

(** * What only the owner can do *)

Lemma pipeline_event_not_owner ev : pipeline_event ev → ¬ owner_event ev.
Proof.
  destruct ev as [c|c|c]; [destruct c; simpl; tauto | | simpl; tauto].
  destruct c as [| ? text ? | | | | | | |]; try (simpl; tauto).
  destruct text; simpl; tauto.
Qed.

Lemma same_settings_and_states_settings s s' :
  same_settings_and_states s s' → same_settings s s'.
Proof. by intros [_ ?]. Qed.

Lemma handle_download_not_owner e cfg chat_id sender_id url lang :
  keeps (λ ev, ¬ owner_event ev) same_settings
    (handle_download e cfg chat_id sender_id url lang).
Proof.
  eapply keeps_weaken; [apply pipeline_event_not_owner
                       | apply same_settings_and_states_settings
                       | apply handle_download_keeps].
Qed.

(** The proof that a handler run by another identity than the owner adds
    no event of the owner: the rules of the constructs, the conjunctions
    with the false owner test, and the events one by one. *)
Ltac not_owner_step :=
  first
    [ rewrite andb_false_r; cbv beta iota
    | apply handle_download_not_owner
    | keeps_step ].

Ltac not_owner := repeat not_owner_step; try done; try (unfold t; simpl; tauto).

Lemma start_handler_not_owner e cfg update :
  keeps (λ ev, ¬ owner_event ev) same_settings (start_handler e cfg update).
Proof. unfold start_handler. not_owner. Qed.

Lemma callback_handler_not_owner e cfg update :
  keeps (λ ev, ¬ owner_event ev) same_settings (callback_handler e cfg update).
Proof. unfold callback_handler. not_owner. Qed.

Lemma message_handler_not_owner e cfg update :
  effective_user update ≠ Some (owner_id cfg) →
  keeps (λ ev, ¬ owner_event ev) same_settings (message_handler e cfg update).
Proof.
  intros Hother. unfold message_handler.
  destruct (effective_chat update) as [chat|], (effective_user update) as [uid|],
    (message update) as [msg|]; try apply keeps_ret; try exact _.
  assert (bool_decide (uid = owner_id cfg) = false) as ->.
  { apply bool_decide_eq_false_2. congruence. }
  unfold private_chat, awaited_input, menu_dispatch, group_chat. cbn [negb].
  not_owner.
Qed.

(** The menu run by another identity than the owner: the state of the
    sender is set by the download button only, and never cleared. *)
Lemma menu_dispatch_not_owner cfg update uid lang txt msg w :
  message update = Some msg →
  let w' := (menu_dispatch cfg update uid lang txt false w).2 in
  Storage.user_states (db w') !! uid
  = (if bool_decide (txt ∈ [btn_download_ru; btn_download_en]) then Some awaiting_url
     else Storage.user_states (db w) !! uid)
  ∧ ∃ l, log w' = log w ++ l ∧ Db (Call.clear_state uid) ∉ l.
Proof.
  intros Hmsg. unfold menu_dispatch. cbn [negb]. cbv zeta.
  repeat case_bool_decide; unfold bind;
    rewrite ?storage_run, ?(reply_text_run _ _ Hmsg); cbn [fst snd];
    rewrite ?(reply_text_run _ _ Hmsg); cbn [fst snd logged db log];
    (split; [try done; simpl; by rewrite lookup_insert_eq |]);
    rewrite <- ?(assoc_L (++)); eexists; (split; [done|]);
    intros H'; simpl in H'; rewrite ?elem_of_cons, ?elem_of_nil in H';
    by destruct_or!.
Qed.

(** C9: every update from another identity than the owner, through any of
    the three handlers, leaves the caption setting as it was and adds no
    event of the owner to the log: no write of the caption, no reading of all
    users, no raw send of a broadcast.  And when such an identity holds the
    state [awaiting_caption] or [awaiting_broadcast] and sends, in a private
    chat, a text that reaches the conversation and is no cancel keyword, the
    text is run as menu input of a sender who is not the owner; the state
    is not cleared: the sender still holds it afterwards, unless the text is
    the download button, which sets [awaiting_url]. *)
Theorem non_owner_cannot_use_owner_inputs (e : env) (cfg : Config) (i : inbound) (w : world)
    (Hother : sender i ≠ Some (owner_id cfg)) :
  let w' := (handle e cfg i w).2 in
  Storage.bot_settings (db w') = Storage.bot_settings (db w)
  ∧ (∃ l, log w' = log w ++ l ∧ Forall (λ ev, ¬ owner_event ev) l)
  ∧ ∀ update chat uid msg state,
      i = TextMessage update →
      effective_chat update = Some chat →
      effective_user update = Some uid →
      message update = Some msg →
      chat_type chat = PRIVATE →
      let txt := strip (or_str (text msg) []) in
      txt ≠ [] → txt ≠ start_command → lower txt ∉ cancel_keywords →
      state ∈ [awaiting_caption; awaiting_broadcast] →
      Storage.user_states (db w) !! uid = Some state →
      handle e cfg i w
      = menu_dispatch cfg update uid (Storage.get_language uid (db w)).1 txt false
          (logged (Db (Call.get_state uid)) (entered uid w))
      ∧ Storage.user_states (db w') !! uid
        = Some (if bool_decide (txt ∈ [btn_download_ru; btn_download_en])
                then awaiting_url else state)
      ∧ ∀ l, log w' = log w ++ l → Db (Call.clear_state uid) ∉ l.
Proof.
  assert (keeps (λ ev, ¬ owner_event ev) same_settings (handle e cfg i)) as Hkeeps.
  { destruct i as [update|update|update]; simpl.
    - apply start_handler_not_owner.
    - apply callback_handler_not_owner.
    - by apply message_handler_not_owner. }
  cbv zeta. destruct (Hkeeps w) as (Hsettings & Hlog).
  split_and!; [done.. |].
  intros update chat uid msg state -> Hchat Huser Hmsg Hprivate Hne Hstart Hcancel Hin Hstate.
  simpl in Hother. rewrite Huser in Hother.
  assert (message_handler e cfg update w
          = menu_dispatch cfg update uid (Storage.get_language uid (db w)).1
              (strip (or_str (text msg) [])) false
              (logged (Db (Call.get_state uid)) (entered uid w))) as Hrun.
  { rewrite (message_handler_awaited e cfg update chat uid msg Hchat Huser Hmsg w)
      by done.
    rewrite Hstate. unfold awaited_input.
    assert (bool_decide (uid = owner_id cfg) = false) as ->.
    { apply bool_decide_eq_false_2. congruence. }
    rewrite !andb_false_r.
    apply elem_of_cons in Hin as [->|Hin]; [by rewrite state_caption_is_not_url|].
    apply list_elem_of_singleton in Hin as ->. by rewrite state_broadcast_is_not_url. }
  simpl. rewrite Hrun. split; [done|].
  destruct (menu_dispatch_not_owner cfg update uid (Storage.get_language uid (db w)).1
              (strip (or_str (text msg) [])) msg
              (logged (Db (Call.get_state uid)) (entered uid w)) Hmsg) as (Hafter & l0 & Hl0 & Hclear).
  split.
  - rewrite Hafter. case_bool_decide; [done|]. by rewrite <- Hstate.
  - intros l Hl. rewrite Hl0 in Hl. unfold logged, entered in Hl. cbn [db log] in Hl.
    rewrite <- !(assoc_L (++)) in Hl. apply app_inv_head in Hl. subst l.
    rewrite !elem_of_app, !elem_of_cons, elem_of_nil.
    intros H'. by destruct_or!.
Qed.

(** C9 on identity 42, who is not the owner, holds [awaiting_caption] and
    sends a text: the caption setting is as it was. *)
Lemma non_owner_cannot_use_owner_inputs_witness :
  Storage.bot_settings
    (db (handle calm cfg0 (TextMessage (private_text 42 (u "my caption")))
           (awaiting 42 awaiting_caption)).2)
  = Storage.bot_settings (db (awaiting 42 awaiting_caption)).
Proof.
  exact (proj1 (non_owner_cannot_use_owner_inputs calm cfg0
                  (TextMessage (private_text 42 (u "my caption")))
                  (awaiting 42 awaiting_caption) ltac:(discriminate))).
Defined.

(** * The locale prompt *)

Lemma has_language_after_upsert uid s :
  (Storage.has_language uid (Storage.upsert_user uid s).2).1 = (Storage.has_language uid s).1.
Proof.
  unfold Storage.has_language, Storage.upsert_user, Storage.with_users. simpl.
  rewrite lookup_insert_or_ignore. by destruct (Storage.users s !! uid).
Qed.

(** [/start] in a private chat, from an identity that has not confirmed a
    locale: the only reply is the locale prompt, and no menu is shown. *)
Lemma start_handler_asks_locale e cfg update chat uid msg w :
  effective_chat update = Some chat →
  effective_user update = Some uid →
  message update = Some msg →
  chat_type chat = PRIVATE →
  (Storage.has_language uid (db w)).1 = false →
  start_handler e cfg update w
  = (Ok tt,
     {| db := (Storage.upsert_user uid (db w)).2;
        log := log w ++ [Db (Call.upsert_user uid); Db (Call.has_language uid);
                         Tg (Bot.reply_text (Template ru Key.choose_lang)
                               (Some make_language_buttons))] |}).
Proof.
  intros Hchat Huser Hmsg Hprivate Hflag. unfold start_handler.
  rewrite Hchat, Huser, Hprivate. rewrite (bool_decide_eq_false_2 (PRIVATE ≠ PRIVATE)) by tauto.
  unfold bind. rewrite !storage_run. cbn [fst snd db log logged].
  rewrite has_language_after_upsert, Hflag. cbn [negb].
  rewrite (reply_text_run _ _ Hmsg). unfold logged. cbn [db log].
  by rewrite <- !(assoc_L (++)).
Qed.

(** C2, the defect: [message_handler] never looks at the locale flag.  An
    identity the bot has never seen, so with no confirmed locale, sends
    [hello] in a private chat: the reply carries the main menu, and the
    flag is still false afterwards. *)
Theorem menu_shown_before_locale_is_confirmed :
  let w0 := {| db := Storage.fresh; log := [] |} in
  let w' := (message_handler calm cfg0 (private_text 42 (u "hello")) w0).2 in
  (Storage.has_language 42 (db w0)).1 = false
  ∧ (Storage.has_language 42 (db w')).1 = false
  ∧ log w' = [Db (Call.upsert_user 42); Db (Call.get_language 42); Db (Call.get_state 42);
              Tg (Bot.reply_text (Template ru Key.menu) (Some (make_menu ru false)))]
  ∧ Exists shows_menu (log w').
Proof.
  cbv zeta. split_and!; [reflexivity | reflexivity | reflexivity |].
  apply Exists_exists. eexists. split.
  - apply list_elem_of_further, list_elem_of_further, list_elem_of_further, list_elem_of_here.
  - exact I.
Qed.

(** * More on the store *)

Lemma with_users_id (s : Storage.t) : Storage.with_users (λ m, m) s = s.
Proof. by destruct s. Qed.

(** X1: [upsert_user] is [INSERT OR IGNORE]: it gives an identity without
    a row the default row, leaves the row of an identity that has one as it
    is, touches no other row, no state and no setting, and done twice it
    does what it does once. *)
Theorem upsert_user_inserts_or_ignores (uid : Z) (s : Storage.t) :
  let s' := (Storage.upsert_user uid s).2 in
  Storage.users s' !! uid = Some (default Storage.default_row (Storage.users s !! uid))
  ∧ (∀ other, other ≠ uid → Storage.users s' !! other = Storage.users s !! other)
  ∧ Storage.user_states s' = Storage.user_states s
  ∧ Storage.bot_settings s' = Storage.bot_settings s
  ∧ (is_Some (Storage.users s !! uid) → s' = s)
  ∧ (Storage.upsert_user uid s').2 = s'.
Proof.
  cbv zeta. split_and!.
  - apply lookup_insert_or_ignore.
  - intros other Hother. by apply lookup_insert_or_ignore_ne.
  - done.
  - done.
  - intros [r Hr]. unfold Storage.upsert_user. cbn [snd].
    replace (Storage.with_users _ s) with (Storage.with_users (λ m, m) s);
      [apply with_users_id|].
    unfold Storage.with_users. by rewrite (insert_or_ignore_Some _ _ _ _ Hr).
  - apply upsert_user_twice.
Qed.

(** X2: after [set_language], the locale is confirmed and [get_language]
    answers the language that was set when it is [ru] or [en], and [ru]
    otherwise; the preferred format, the states and the settings are as they
    were, and so is every other row. *)
Theorem set_language_then_read (uid : Z) (lang : str) (s : Storage.t) :
  let s' := (Storage.set_language uid lang s).2 in
  (Storage.has_language uid s').1 = true
  ∧ (Storage.get_language uid s').1 = (if bool_decide (lang ∈ [ru; en]) then lang else ru)
  ∧ (Storage.get_format uid s').1 = (Storage.get_format uid s).1
  ∧ (∀ other, other ≠ uid → Storage.users s' !! other = Storage.users s !! other)
  ∧ Storage.user_states s' = Storage.user_states s
  ∧ Storage.bot_settings s' = Storage.bot_settings s.
Proof.
  cbv zeta.
  unfold Storage.set_language, Storage.has_language, Storage.get_language,
    Storage.get_format, Storage.upsert_user, Storage.with_users.
  cbn [fst snd Storage.users Storage.user_states Storage.bot_settings].
  split_and!; try done.
  - rewrite lookup_alter_eq, lookup_insert_or_ignore. done.
  - rewrite lookup_insert_or_ignore, lookup_alter_eq, lookup_insert_or_ignore. done.
  - rewrite !lookup_insert_or_ignore, lookup_alter_eq, lookup_insert_or_ignore.
    by destruct (Storage.users s !! uid).
  - intros other Hother. rewrite lookup_alter_ne by done.
    by apply lookup_insert_or_ignore_ne.
Qed.

(** X3: the store takes any format as it is given: after [set_format],
    [get_format] answers it; the language and its confirmation, the states
    and the settings are as they were, and so is every other row. *)
Theorem set_format_then_read (uid : Z) (fmt : str) (s : Storage.t) :
  let s' := (Storage.set_format uid fmt s).2 in
  (Storage.get_format uid s').1 = Some fmt
  ∧ (Storage.get_language uid s').1 = (Storage.get_language uid s).1
  ∧ (Storage.has_language uid s').1 = (Storage.has_language uid s).1
  ∧ (∀ other, other ≠ uid → Storage.users s' !! other = Storage.users s !! other)
  ∧ Storage.user_states s' = Storage.user_states s
  ∧ Storage.bot_settings s' = Storage.bot_settings s.
Proof.
  cbv zeta.
  unfold Storage.set_format, Storage.has_language, Storage.get_language,
    Storage.get_format, Storage.upsert_user, Storage.with_users.
  cbn [fst snd Storage.users Storage.user_states Storage.bot_settings].
  split_and!; try done.
  - rewrite lookup_insert_or_ignore, lookup_alter_eq, lookup_insert_or_ignore. done.
  - rewrite !lookup_insert_or_ignore, lookup_alter_eq, lookup_insert_or_ignore.
    by destruct (Storage.users s !! uid).
  - rewrite lookup_alter_eq, lookup_insert_or_ignore.
    by destruct (Storage.users s !! uid).
  - intros other Hother. rewrite lookup_alter_ne by done.
    by apply lookup_insert_or_ignore_ne.
Qed.

Lemma with_user_states_id (s : Storage.t) : Storage.with_user_states (λ m, m) s = s.
Proof. by destruct s. Qed.

(** X4: the table of states holds one state per identity, the last one
    set: [get_state] answers the state that [set_state] wrote, whatever was
    there before, and nothing after [clear_state]; clearing an identity
    without a state changes nothing; and neither method touches the state
    of another identity, a profile row or a setting. *)
Theorem state_table_laws (uid : Z) (state : str) (s : Storage.t) :
  let set := (Storage.set_state uid state s).2 in
  let cleared := (Storage.clear_state uid s).2 in
  (Storage.get_state uid set).1 = Some state
  ∧ (∀ state', (Storage.set_state uid state (Storage.set_state uid state' s).2).2 = set)
  ∧ (Storage.get_state uid cleared).1 = None
  ∧ (Storage.get_state uid (Storage.clear_state uid set).2).1 = None
  ∧ ((Storage.get_state uid s).1 = None → cleared = s)
  ∧ (∀ other, other ≠ uid →
       (Storage.get_state other set).1 = (Storage.get_state other s).1
       ∧ (Storage.get_state other cleared).1 = (Storage.get_state other s).1)
  ∧ Storage.users set = Storage.users s ∧ Storage.users cleared = Storage.users s
  ∧ Storage.bot_settings set = Storage.bot_settings s
  ∧ Storage.bot_settings cleared = Storage.bot_settings s.
Proof.
  cbv zeta.
  unfold Storage.set_state, Storage.clear_state, Storage.get_state, Storage.with_user_states.
  cbn [fst snd Storage.users Storage.user_states Storage.bot_settings].
  split_and!; try done.
  - apply lookup_insert_eq.
  - intros state'. by rewrite insert_insert_eq.
  - apply lookup_delete_eq.
  - apply lookup_delete_eq.
  - intros Hnone. rewrite delete_id by done. by destruct s.
  - intros other Hother. split; [by apply lookup_insert_ne | by apply lookup_delete_ne].
Qed.

(** X5: the caption setting: [get_media_caption] answers what
    [set_media_caption] wrote, and the empty string on a database that was
    just created; opening the database again ([__init__]) keeps the caption
    that is stored, and changes nothing when done a second time; and writing
    the caption touches no profile row and no state. *)
Theorem media_caption_laws (value : str) (s : Storage.t) :
  (Storage.get_media_caption (Storage.set_media_caption value s).2).1 = value
  ∧ (Storage.get_media_caption Storage.fresh).1 = []
  ∧ (Storage.get_media_caption (Storage.init s)).1 = (Storage.get_media_caption s).1
  ∧ (Storage.get_media_caption (Storage.init (Storage.set_media_caption value s).2)).1 = value
  ∧ Storage.init (Storage.init s) = Storage.init s
  ∧ Storage.users (Storage.set_media_caption value s).2 = Storage.users s
  ∧ Storage.user_states (Storage.set_media_caption value s).2 = Storage.user_states s.
Proof.
  unfold Storage.set_media_caption, Storage.get_media_caption, Storage.init,
    Storage.with_bot_settings.
  cbn [fst snd Storage.users Storage.user_states Storage.bot_settings].
  split_and!; try done.
  - by rewrite lookup_insert_eq.
  - rewrite lookup_insert_or_ignore. by destruct (Storage.bot_settings s !! media_caption).
  - by rewrite lookup_insert_or_ignore, lookup_insert_eq.
  - f_equal. unfold Storage.insert_or_ignore at 1. by rewrite lookup_insert_or_ignore.
Qed.

(** X6: [all_users] lists the identities that have a profile row, each of
    them once; an identity is in the list as soon as it was upserted, and
    the identities that were in it stay in it. *)
Theorem all_users_are_the_rows (s : Storage.t) :
  let users := (Storage.all_users s).1 in
  NoDup users
  ∧ (∀ uid, uid ∈ users ↔ is_Some (Storage.users s !! uid))
  ∧ (∀ uid, uid ∈ (Storage.all_users (Storage.upsert_user uid s).2).1)
  ∧ (∀ uid other, other ∈ users → other ∈ (Storage.all_users (Storage.upsert_user uid s).2).1)
  ∧ (Storage.all_users s).2 = s.
Proof.
  assert (∀ s0 uid, uid ∈ (Storage.all_users s0).1 ↔ is_Some (Storage.users s0 !! uid)) as Hin.
  { intros s0 uid. unfold Storage.all_users. cbn [fst].
    rewrite merge_sort_Permutation, list_elem_of_fmap. split.
    - intros ([k r] & -> & Hkr). apply elem_of_map_to_list in Hkr. by exists r.
    - intros [r Hr]. exists (uid, r). split; [done|]. by apply elem_of_map_to_list. }
  cbv zeta. split_and!.
  - unfold Storage.all_users. cbn [fst].
    rewrite merge_sort_Permutation. apply NoDup_fst_map_to_list.
  - apply Hin.
  - intros uid. apply Hin. simpl. rewrite lookup_insert_or_ignore. by eexists.
  - intros uid other Hother. apply Hin. apply Hin in Hother. simpl.
    destruct (decide (uid = other)) as [->|Hne].
    + rewrite lookup_insert_or_ignore. by eexists.
    + by rewrite lookup_insert_or_ignore_ne.
  - done.
Qed.

(** * More on URL extraction *)

Lemma non_space_run_spec s :
  ∃ rest, s = UrlRe.non_space_run s ++ rest
          ∧ Forall (λ c, isspace c = false) (UrlRe.non_space_run s)
          ∧ match rest with [] => True | c :: _ => isspace c = true end.
Proof.
  induction s as [|c s (rest & Hs & Hrun & Hrest)]; simpl.
  - by exists [].
  - destruct (isspace c) eqn:Hc.
    + by exists (c :: s).
    + exists rest. split_and!; [simpl; by f_equal | by constructor | done].
Qed.

Lemma non_space_run_all s :
  Forall (λ c, isspace c = false) s → UrlRe.non_space_run s = s.
Proof. induction 1 as [|c s Hc _ IH]; simpl; [done|]. by rewrite Hc, IH. Qed.

Lemma literals_spec ps s rest :
  UrlRe.literals ps s = Some rest →
  ∃ pre, s = pre ++ rest ∧ Forall2 (λ (p : N → bool) c, p c = true) ps pre.
Proof.
  revert s. induction ps as [|p ps IH]; intros s; simpl.
  - intros [= ->]. by exists [].
  - destruct s as [|c s]; [discriminate|]. destruct (p c) eqn:Hp; [|discriminate].
    intros (pre & -> & Hpre)%IH. exists (c :: pre). split; [done|]. by constructor.
Qed.

Lemma literals_app ps pre rest :
  Forall2 (λ (p : N → bool) c, p c = true) ps pre → UrlRe.literals ps (pre ++ rest) = Some rest.
Proof. induction 1 as [|p c ps pre Hp _ IH]; simpl; [done|]. by rewrite Hp. Qed.

(** The slashes and the colon of the pattern, with the run that follows. *)
Lemma tail_len_spec s n :
  UrlRe.tail_len s = Some n →
  ∃ run rest, s = [58; 47; 47]%N ++ run ++ rest ∧ n = (3 + length run)%nat
              ∧ run ≠ [] ∧ Forall (λ c, isspace c = false) run
              ∧ match rest with [] => True | c :: _ => isspace c = true end.
Proof.
  unfold UrlRe.tail_len.
  destruct (UrlRe.literals _ s) as [after|] eqn:Hl; [|discriminate].
  apply literals_spec in Hl as (pre & -> & Hpre).
  destruct (non_space_run_spec after) as (rest & Hafter & Hrun & Hrest).
  destruct (UrlRe.non_space_run after) as [|c run] eqn:Hr; [discriminate|].
  intros [= <-]. exists (c :: run), rest.
  apply Forall2_cons_inv_l in Hpre as (c1 & pre1 & ->%N.eqb_eq & Hpre & ->).
  apply Forall2_cons_inv_l in Hpre as (c2 & pre2 & ->%N.eqb_eq & Hpre & ->).
  apply Forall2_cons_inv_l in Hpre as (c3 & pre3 & ->%N.eqb_eq & Hpre & ->).
  apply Forall2_nil_inv_l in Hpre as ->.
  split_and!; [by rewrite Hafter at 1 | done..].
Qed.

Lemma tail_len_run run rest :
  run ≠ [] → Forall (λ c, isspace c = false) run →
  match rest with [] => True | c :: _ => isspace c = true end →
  UrlRe.tail_len ([58; 47; 47]%N ++ run ++ rest) = Some (3 + length run)%nat.
Proof.
  intros Hne Hrun Hrest. unfold UrlRe.tail_len. simpl.
  assert (UrlRe.non_space_run (run ++ rest) = run) as ->.
  { clear Hne. induction Hrun as [|c run Hc _ IH]; simpl.
    - destruct rest as [|c rest]; [done|]. simpl. by rewrite Hrest.
    - by rewrite Hc, IH. }
  by destruct run.
Qed.

(** The letters of the scheme are no spaces. *)
Lemma literal_ignore_not_space lo c :
  lo ∈ [104; 116; 112; 115]%N → UrlRe.literal_ignore lo c = true → isspace c = false.
Proof.
  intros Hlo. unfold UrlRe.literal_ignore.
  rewrite !orb_true_iff, andb_true_iff, !N.eqb_eq.
  rewrite !elem_of_cons, elem_of_nil in Hlo.
  intros H; destruct_or!; destruct_and?; subst; done.
Qed.

Lemma literal_ignore_lower lo c :
  lo ∈ [104; 116; 112]%N → UrlRe.literal_ignore lo c = true → lower_char c = [lo].
Proof.
  intros Hlo. unfold UrlRe.literal_ignore.
  rewrite !orb_true_iff, andb_true_iff, !N.eqb_eq.
  rewrite !elem_of_cons, elem_of_nil in Hlo.
  intros H; destruct_or!; destruct_and?; subst; done.
Qed.

(** What a match at the head of [s] is made of. *)
Lemma match_here_spec s m :
  UrlRe.match_here s = Some m →
  ∃ scheme run rest,
    s = m ++ rest ∧ m = scheme ++ [58; 47; 47]%N ++ run
    ∧ lower (take 4 scheme) = [104; 116; 116; 112]%N
    ∧ (length scheme = 4%nat
       ∨ length scheme = 5%nat ∧ ∃ c, scheme !! 4%nat = Some c ∧ c ∈ [115; 83; 383]%N)
    ∧ run ≠ [] ∧ Forall (λ c, isspace c = false) m
    ∧ match rest with [] => True | c :: _ => isspace c = true end.
Proof.
  unfold UrlRe.match_here.
  destruct (UrlRe.literals _ s) as [after|] eqn:Hl; [|discriminate].
  apply literals_spec in Hl as (pre & -> & Hpre).
  apply Forall2_cons_inv_l in Hpre as (c1 & pre1 & H1 & Hpre & ->).
  apply Forall2_cons_inv_l in Hpre as (c2 & pre2 & H2 & Hpre & ->).
  apply Forall2_cons_inv_l in Hpre as (c3 & pre3 & H3 & Hpre & ->).
  apply Forall2_cons_inv_l in Hpre as (c4 & pre4 & H4 & Hpre & ->).
  apply Forall2_nil_inv_l in Hpre as ->.
  assert (lower [c1; c2; c3; c4] = [104; 116; 116; 112]%N) as Hlower.
  { unfold lower. simpl.
    rewrite (literal_ignore_lower 104 c1), (literal_ignore_lower 116 c2),
      (literal_ignore_lower 116 c3), (literal_ignore_lower 112 c4); try done;
      rewrite !elem_of_cons; tauto. }
  assert (Forall (λ c, isspace c = false) [c1; c2; c3; c4]) as Hscheme.
  { repeat constructor; eapply literal_ignore_not_space; try eassumption;
      rewrite !elem_of_cons; tauto. }
  assert (∀ n, UrlRe.tail_len after = Some n →
            Some (take (4 + n) ([c1; c2; c3; c4] ++ after)) = Some m →
            ∃ scheme run rest,
              [c1; c2; c3; c4] ++ after = m ++ rest ∧ m = scheme ++ [58; 47; 47]%N ++ run
              ∧ lower (take 4 scheme) = [104; 116; 116; 112]%N
              ∧ (length scheme = 4%nat
                 ∨ length scheme = 5%nat
                   ∧ ∃ c, scheme !! 4%nat = Some c ∧ c ∈ [115; 83; 383]%N)
              ∧ run ≠ [] ∧ Forall (λ c, isspace c = false) m
              ∧ match rest with [] => True | c :: _ => isspace c = true end) as Hwithout.
  { intros n (run & rest & -> & -> & Hne & Hrun & Hrest)%tail_len_spec [= <-].
    exists [c1; c2; c3; c4], run, rest. rewrite take_app_length.
    split_and!; [done | done | done | by left | done | | done].
    inversion_clear Hscheme as [|? ? ? Hs1]. inversion_clear Hs1 as [|? ? ? Hs2].
    inversion_clear Hs2 as [|? ? ? Hs3]. inversion_clear Hs3.
    by repeat constructor. }
  destruct after as [|c after'].
  { by intros [n [Hn Hm]]%fmap_Some; eapply Hwithout; [|rewrite Hm]. }
  destruct (UrlRe.literal_ignore 115 c) eqn:Hc.
  - destruct (UrlRe.tail_len after') as [n|] eqn:Hn.
    + intros [= <-].
      apply tail_len_spec in Hn as (run & rest & -> & -> & Hne & Hrun & Hrest).
      exists [c1; c2; c3; c4; c], run, rest. simpl. rewrite take_app_length.
      assert (isspace c = false) as Hcs.
      { eapply literal_ignore_not_space; [|exact Hc]. rewrite !elem_of_cons; tauto. }
      split_and!; [done | done | done | | done | | done].
      * right. split; [done|]. exists c. split; [done|].
        revert Hc. unfold UrlRe.literal_ignore.
        rewrite !orb_true_iff, andb_true_iff, !N.eqb_eq, !elem_of_cons.
        intros H; destruct_or!; destruct_and?; subst; tauto.
      * inversion_clear Hscheme as [|? ? ? Hs1]. inversion_clear Hs1 as [|? ? ? Hs2].
        inversion_clear Hs2 as [|? ? ? Hs3]. inversion_clear Hs3.
        by repeat constructor.
    + by intros [n' [Hn' Hm]]%fmap_Some; eapply Hwithout; [|rewrite Hm].
  - by intros [n' [Hn' Hm]]%fmap_Some; eapply Hwithout; [|rewrite Hm].
Qed.

Lemma match_here_again s m : UrlRe.match_here s = Some m → UrlRe.match_here m = Some m.
Proof.
  unfold UrlRe.match_here at 1.
  destruct (UrlRe.literals _ s) as [after|] eqn:Hl; [|discriminate].
  apply literals_spec in Hl as (pre & -> & Hpre).
  apply Forall2_cons_inv_l in Hpre as (c1 & pre1 & H1 & Hpre & ->).
  apply Forall2_cons_inv_l in Hpre as (c2 & pre2 & H2 & Hpre & ->).
  apply Forall2_cons_inv_l in Hpre as (c3 & pre3 & H3 & Hpre & ->).
  apply Forall2_cons_inv_l in Hpre as (c4 & pre4 & H4 & Hpre & ->).
  apply Forall2_nil_inv_l in Hpre as ->.
  assert (∀ n, UrlRe.tail_len after = Some n →
            Some (take (4 + n) ([c1; c2; c3; c4] ++ after)) = Some m →
            UrlRe.match_here m = Some m) as Hwithout.
  { intros n (run & rest & -> & -> & Hne & Hrun & Hrest)%tail_len_spec [= <-].
    rewrite take_app_length. unfold UrlRe.match_here. simpl. rewrite H1, H2, H3, H4.
    change (UrlRe.literal_ignore 115 58) with false. cbv iota.
    pose proof (tail_len_run run [] Hne Hrun I) as Ht. rewrite app_nil_r in Ht.
    simpl in Ht. rewrite Ht. simpl. by rewrite take_ge. }
  destruct after as [|c after'].
  { by intros [n [Hn Hm]]%fmap_Some; eapply Hwithout; [|rewrite Hm]. }
  destruct (UrlRe.literal_ignore 115 c) eqn:Hc.
  - destruct (UrlRe.tail_len after') as [n|] eqn:Hn.
    + intros [= <-].
      apply tail_len_spec in Hn as (run & rest & -> & -> & Hne & Hrun & Hrest).
      simpl. rewrite take_app_length. unfold UrlRe.match_here. simpl.
      rewrite H1, H2, H3, H4, Hc.
      pose proof (tail_len_run run [] Hne Hrun I) as Ht. rewrite app_nil_r in Ht.
      simpl in Ht. rewrite Ht. simpl. by rewrite take_ge.
    + by intros [n' [Hn' Hm]]%fmap_Some; eapply Hwithout; [|rewrite Hm].
  - by intros [n' [Hn' Hm]]%fmap_Some; eapply Hwithout; [|rewrite Hm].
Qed.

(** X7: the link that [extract_url] finds is a piece of the text, of at
    least eight characters and without a space in it: [http] in any case,
    then [s] or not (in any case, or a long s), then [://] and at least one
    more character; it runs up to the next space or to the end of the
    text. *)
Theorem extract_url_shape (text url : str) (Hfound : extract_url text = Some url) :
  ∃ pre post scheme run,
    text = pre ++ url ++ post
    ∧ url = scheme ++ [58; 47; 47]%N ++ run
    ∧ lower (take 4 scheme) = [104; 116; 116; 112]%N
    ∧ (length scheme = 4%nat
       ∨ length scheme = 5%nat ∧ ∃ c, scheme !! 4%nat = Some c ∧ c ∈ [115; 83; 383]%N)
    ∧ run ≠ []
    ∧ (8 ≤ length url)%nat
    ∧ Forall (λ c, isspace c = false) url
    ∧ match post with [] => True | c :: _ => isspace c = true end.
Proof.
  apply search_leftmost in Hfound as (i & Hi & _).
  apply match_here_spec in Hi as (scheme & run & post & Hdrop & -> & Hlow & Hlen & Hne & Hns & Hpost).
  exists (take i text), post, scheme, run.
  split_and!; try done.
  - by rewrite <- Hdrop, take_drop.
  - rewrite !length_app. simpl. destruct run; [done|]. simpl. destruct Hlen as [->|[-> _]]; lia.
Qed.

Lemma extract_url_shape_witness :
  ∃ pre post scheme run,
    u "check this out http://x.test/v/1 thanks" = pre ++ u "http://x.test/v/1" ++ post
    ∧ u "http://x.test/v/1" = scheme ++ [58; 47; 47]%N ++ run
    ∧ lower (take 4 scheme) = [104; 116; 116; 112]%N
    ∧ (length scheme = 4%nat
       ∨ length scheme = 5%nat ∧ ∃ c, scheme !! 4%nat = Some c ∧ c ∈ [115; 83; 383]%N)
    ∧ run ≠ []
    ∧ (8 ≤ length (u "http://x.test/v/1"))%nat
    ∧ Forall (λ c, isspace c = false) (u "http://x.test/v/1")
    ∧ match post with [] => True | c :: _ => isspace c = true end.
Proof.
  exact (extract_url_shape (u "check this out http://x.test/v/1 thanks")
           (u "http://x.test/v/1") eq_refl).
Defined.

(** X8: a link that [extract_url] found is found again, whole, in the link
    itself: extraction applied to its own result changes nothing. *)
Theorem extract_url_again (text url : str) (Hfound : extract_url text = Some url) :
  extract_url url = Some url.
Proof.
  pose proof (extract_url_nonempty _ _ Hfound) as Hne.
  apply search_leftmost in Hfound as (i & Hi & _).
  apply match_here_again in Hi.
  unfold extract_url. destruct url as [|c url]; [done|].
  by rewrite search_cons, Hi.
Qed.

Lemma extract_url_again_witness :
  extract_url (u "HTTPS://A.b/c?d=1") = Some (u "HTTPS://A.b/c?d=1").
Proof.
  exact (extract_url_again (u "see HTTPS://A.b/c?d=1 now") (u "HTTPS://A.b/c?d=1") eq_refl).
Defined.

(** * More on media acquisition and transcoding *)

(** X9: [find_latest_file] scans the folder once and touches nothing else.
    It answers a regular file of the folder that no regular file of the
    folder is newer than (folders are never answered), and it answers
    nothing exactly when the folder holds no regular file. *)
Theorem find_latest_file_is_newest (e : env) (folder : str) (w : world) :
  let entries := listing e (log w) folder in
  (find_latest_file e folder w).2 = logged (Sys (Os.rglob folder)) w
  ∧ match (find_latest_file e folder w).1 with
    | Ok (Some p) =>
        ∃ f, f ∈ entries ∧ is_file f = true ∧ path f = p
             ∧ ∀ g, g ∈ entries → is_file g = true → st_mtime g ≤ st_mtime f
    | Ok None => ∀ f, f ∈ entries → is_file f = false
    | Raise _ => False
    end.
Proof.
  cbv zeta. split; [done|].
  unfold find_latest_file, bind, ask, emit, ret. cbn [fst snd db log].
  destruct (latest (listing e (log w) folder)) as [p|] eqn:Hl.
  - by apply latest_is_newest.
  - by apply latest_none.
Qed.

Example find_latest_file_skips_folders :
  (find_latest_file smooth (u "/tmp/tg_dl_0") first_contact).1 = Ok (Some (path video_file)).
Proof. reflexivity. Qed.

(** X10: when the primary tool runs, exits with success and the scratch
    folder then holds a file, that file is the result and the fallback is
    never run: the only calls are the primary tool and one scan of the
    folder. *)
Theorem download_media_primary_suffices (e : env) (url dir f : str) (w : world)
    (yt : CompletedProcess)
    (Hrun : subprocess_run e (log w) (yt_cmd url dir) = Ok yt)
    (Hcode : returncode yt = 0)
    (Hfile : latest (listing e (log w ++ [Sys (Os.run (yt_cmd url dir))]) dir) = Some f) :
  download_media e url dir w
  = (Ok f, {| db := db w;
              log := log w ++ [Sys (Os.run (yt_cmd url dir)); Sys (Os.rglob dir)] |}).
Proof.
  unfold download_media, run_command, find_latest_file, bind, ask, emit, ret, of_result.
  cbn [fst snd db log]. rewrite Hrun. cbn [fst snd db log].
  rewrite (bool_decide_eq_true_2 _ Hcode). cbn [fst snd db log].
  rewrite Hfile. unfold ret. by rewrite <- (assoc_L (++)).
Qed.

Lemma download_media_primary_suffices_witness :
  download_media smooth (u "http://x.test/v/1") (u "/tmp/tg_dl_0") first_contact
  = (Ok (path video_file),
     {| db := Storage.fresh;
        log := [Sys (Os.run (yt_cmd (u "http://x.test/v/1") (u "/tmp/tg_dl_0")));
                Sys (Os.rglob (u "/tmp/tg_dl_0"))] |}).
Proof.
  exact (download_media_primary_suffices smooth (u "http://x.test/v/1") (u "/tmp/tg_dl_0")
           (path video_file) first_contact _ eq_refl eq_refl eq_refl).
Defined.

Lemma length_slice_to n (s : str) : (length (slice_to n s) ≤ n)%nat.
Proof. unfold slice_to. rewrite length_take. lia. Qed.

Lemma download_failed_bounded (a b : str) :
  download_failed a b
  = RuntimeError (u "Download failed. yt-dlp: " ++ slice_to 350 a
                    ++ u " | gallery-dl: " ++ slice_to 350 b)
  ∧ (length (exn_str (download_failed a b)) ≤ 740)%nat.
Proof.
  pose proof (length_slice_to 350 a). pose proof (length_slice_to 350 b).
  split; [reflexivity|].
  unfold download_failed. cbn [exn_str]. rewrite !length_app.
  change (length (u "Download failed. yt-dlp: ")) with 25%nat.
  change (length (u " | gallery-dl: ")) with 15%nat. lia.
Qed.

(** X11: [download_media] raises in three ways only.  The primary tool
    cannot be run: the exception of [subprocess.run] comes out as it is
    and the fallback is never tried.  The fallback cannot be run, after
    the primary tool ran without yielding a file: its exception comes out
    as it is.  Both tools ran and neither yielded a file: the exception
    is a [RuntimeError] whose message is the fixed text around the first
    350 characters of the output of each tool, at most 740 characters in
    all. *)
Theorem download_media_error_is_bounded (e : env) (url dir : str) (w : world) (x : exn)
    (Hraise : (download_media e url dir w).1 = Raise x) :
  let l1 := log w ++ [Sys (Os.run (yt_cmd url dir))] in
  (subprocess_run e (log w) (yt_cmd url dir) = Raise x
   ∧ log (download_media e url dir w).2 = l1)
  ∨ ∃ yt l2,
      subprocess_run e (log w) (yt_cmd url dir) = Ok yt
      ∧ l2 = (if bool_decide (returncode yt = 0) then l1 ++ [Sys (Os.rglob dir)] else l1)
      ∧ ((subprocess_run e l2 (gd_cmd url dir) = Raise x
          ∧ log (download_media e url dir w).2 = l2 ++ [Sys (Os.run (gd_cmd url dir))])
         ∨ ∃ gd,
             subprocess_run e l2 (gd_cmd url dir) = Ok gd
             ∧ x = RuntimeError (u "Download failed. yt-dlp: "
                                   ++ slice_to 350 (combined_output yt)
                                   ++ u " | gallery-dl: "
                                   ++ slice_to 350 (combined_output gd))
             ∧ (length (exn_str x) ≤ 740)%nat
             ∧ l2 ++ [Sys (Os.run (gd_cmd url dir))]
               `prefix_of` log (download_media e url dir w).2).
Proof.
  cbv zeta. revert Hraise.
  unfold download_media, run_command, find_latest_file, bind, ask, emit, ret, raise, of_result.
  cbn [fst snd db log].
  destruct (subprocess_run e (log w) (yt_cmd url dir)) as [yt|x1] eqn:Hyt;
    cbn [fst snd db log]; [|intros [= <-]; by left].
  intros Hraise. right. exists yt. eexists. split; [done|]. split; [reflexivity|].
  revert Hraise.
  case_bool_decide as Hcode; cbn [fst snd db log];
    [case_latest; cbn [fst snd db log]; [done|]|];
    (match goal with
     | |- context [subprocess_run e ?l (gd_cmd url dir)] =>
         destruct (subprocess_run e l (gd_cmd url dir)) as [gd|x2] eqn:Hgd
     end; cbn [fst snd db log]; [|intros [= <-]; by left];
     right; exists gd; revert Hraise;
     case_bool_decide; cbn [fst snd db log]; [case_latest; cbn [fst snd db log]|];
     try done; intros [= <-];
     destruct (download_failed_bounded (combined_output yt) (combined_output gd))
       as [Heq Hlen];
     (split_and!; [done|done|done|]);
     first [done | by eexists | by apply prefix_app_r]).
Qed.

Lemma download_media_error_is_bounded_witness :
  let url := u "http://x.test/v/1" in
  let dir := u "/tmp/tg_dl_0" in
  let w := first_contact in
  let x := RuntimeError (u "Download failed. yt-dlp: " ++ replicate 350 120%N
                           ++ u " | gallery-dl: " ++ replicate 350 120%N) in
  let l1 := log w ++ [Sys (Os.run (yt_cmd url dir))] in
  (subprocess_run noisy (log w) (yt_cmd url dir) = Raise x
   ∧ log (download_media noisy url dir w).2 = l1)
  ∨ ∃ yt l2,
      subprocess_run noisy (log w) (yt_cmd url dir) = Ok yt
      ∧ l2 = (if bool_decide (returncode yt = 0) then l1 ++ [Sys (Os.rglob dir)] else l1)
      ∧ ((subprocess_run noisy l2 (gd_cmd url dir) = Raise x
          ∧ log (download_media noisy url dir w).2 = l2 ++ [Sys (Os.run (gd_cmd url dir))])
         ∨ ∃ gd,
             subprocess_run noisy l2 (gd_cmd url dir) = Ok gd
             ∧ x = RuntimeError (u "Download failed. yt-dlp: "
                                   ++ slice_to 350 (combined_output yt)
                                   ++ u " | gallery-dl: "
                                   ++ slice_to 350 (combined_output gd))
             ∧ (length (exn_str x) ≤ 740)%nat
             ∧ l2 ++ [Sys (Os.run (gd_cmd url dir))]
               `prefix_of` log (download_media noisy url dir w).2).
Proof.
  cbv zeta.
  apply (download_media_error_is_bounded noisy (u "http://x.test/v/1") (u "/tmp/tg_dl_0")
           first_contact).
  by vm_compute.
Defined.

(** The message of the scenario above is cut twice, to 740 characters. *)
Example download_media_cuts_the_output :
  ∃ msg,
    (download_media noisy (u "http://x.test/v/1") (u "/tmp/tg_dl_0") first_contact).1
    = Raise (RuntimeError msg)
    ∧ length msg = 740%nat
    ∧ length (combined_output {| returncode := 1; stdout := Some (replicate 400 120%N);
                                 stderr := Some [] |}) = 400%nat.
Proof. eexists. by vm_compute. Qed.

Example download_media_without_tools :
  download_media no_tools (u "http://x.test/v/1") (u "/tmp/tg_dl_0") first_contact
  = (Raise (OSError (u "[Errno 2] No such file or directory: 'yt-dlp'")),
     {| db := Storage.fresh;
        log := [Sys (Os.run (yt_cmd (u "http://x.test/v/1") (u "/tmp/tg_dl_0")))] |}).
Proof. by vm_compute. Qed.

(** * More on the transcoder and the pipeline *)

(** The command that [ffmpeg_convert] runs for a preset, with its output
    path. *)
Lemma ffmpeg_convert_run (e : env) (out : str) (cmd : list str) (w : world) :
  (let* (code, output) := run_command e cmd in
   if bool_decide (code ≠ 0)
   then raise (RuntimeError (u "ffmpeg failed: " ++ slice_to 700 output))
   else ret out) w
  = (match subprocess_run e (log w) cmd with
     | Raise x => Raise x
     | Ok proc =>
         if bool_decide (returncode proc ≠ 0)
         then Raise (RuntimeError (u "ffmpeg failed: " ++ slice_to 700 (combined_output proc)))
         else Ok out
     end, logged (Sys (Os.run cmd)) w).
Proof.
  unfold run_command, bind, ask, emit, of_result, ret, raise, logged. cbn [fst snd db log].
  destruct (subprocess_run e (log w) cmd) as [proc|x]; cbn [fst snd]; [|done].
  by case_bool_decide.
Qed.

Lemma ffmpeg_failed_bounded (output : str) :
  (length (exn_str (RuntimeError (u "ffmpeg failed: " ++ slice_to 700 output))) ≤ 715)%nat.
Proof.
  cbn [exn_str]. rewrite length_app. pose proof (length_slice_to 700 output).
  change (length (u "ffmpeg failed: ")) with 15%nat. lia.
Qed.

(** The outcome of the one run of [ffmpeg], once the command is known. *)
Ltac settle_run fmt :=
  match goal with
  | |- context [subprocess_run ?e ?l ?cmd] =>
      let proc := fresh "proc" in
      let Hproc := fresh "Hproc" in
      let Hcode := fresh "Hcode" in
      destruct (subprocess_run e l cmd) as [proc|?] eqn:Hproc;
      [ case_bool_decide as Hcode; cbv beta iota;
        [ split; [done|]; right; right; exists cmd; split_and!; [done|done|];
          right; exists proc; split_and!; [done|done|done|];
          apply ffmpeg_failed_bounded
        | right; exists fmt, cmd, proc; split_and!; try done;
          first [by apply dec_stable | rewrite !elem_of_cons; tauto] ]
      | cbv beta iota; split; [done|]; right; right; exists cmd;
        split_and!; [done|done|]; by left ]
  end.

(** X12: [ffmpeg_convert] gives a path only in two ways: for the preset
    [auto] it is the source itself and nothing is run; for [mp4], [mkv]
    and [mp3] it is the source with the suffix of the preset, after one
    run of [ffmpeg] that reads the source, writes that path and exits
    with 0.  It raises in four ways only: the suffix is refused, or the
    preset is none of the four, and nothing was run; [ffmpeg] cannot be
    run, and the exception of [subprocess.run] comes out as it is;
    [ffmpeg] ran and exited with another code, and the exception is a
    [RuntimeError] whose message is the fixed text and the first 700
    characters of the output of that run. *)
Theorem ffmpeg_convert_result (e : env) (source : str) (preset : option str) (w : world) :
  match (ffmpeg_convert e source preset w).1 with
  | Ok p =>
      (preset = Some auto ∧ p = source ∧ (ffmpeg_convert e source preset w).2 = w)
      ∨ (∃ fmt cmd proc,
           preset = Some fmt ∧ fmt ∈ [mp4; mkv; mp3]
           ∧ with_suffix e source (u "." ++ fmt) = Ok p
           ∧ head cmd = Some (u "ffmpeg") ∧ last cmd = Some p ∧ source ∈ cmd
           ∧ subprocess_run e (log w) cmd = Ok proc
           ∧ returncode proc = 0
           ∧ (ffmpeg_convert e source preset w).2 = logged (Sys (Os.run cmd)) w)
  | Raise x =>
      preset ≠ Some auto
      ∧ ((with_suffix e source (u "." ++ py_str preset) = Raise x
          ∧ (ffmpeg_convert e source preset w).2 = w)
         ∨ ((preset ∉ [Some mp4; Some mkv; Some mp3])
            ∧ x = RuntimeError (u "Unsupported format preset")
            ∧ (ffmpeg_convert e source preset w).2 = w)
         ∨ (∃ cmd,
              head cmd = Some (u "ffmpeg")
              ∧ (ffmpeg_convert e source preset w).2 = logged (Sys (Os.run cmd)) w
              ∧ (subprocess_run e (log w) cmd = Raise x
                 ∨ ∃ proc,
                     subprocess_run e (log w) cmd = Ok proc
                     ∧ returncode proc ≠ 0
                     ∧ x = RuntimeError (u "ffmpeg failed: "
                                           ++ slice_to 700 (combined_output proc))
                     ∧ (length (exn_str x) ≤ 715)%nat)))
  end.
Proof.
  destruct (ffmpeg_convert e source preset w) as [r w'] eqn:Hrun. cbn [fst snd].
  unfold ffmpeg_convert in Hrun.
  destruct (decide (preset = Some auto)) as [->|Hauto].
  { rewrite (bool_decide_eq_true_2 (Some auto = Some auto) eq_refl) in Hrun.
    injection Hrun as <- <-. by left. }
  rewrite (bool_decide_eq_false_2 _ Hauto) in Hrun.
  unfold bind at 1 in Hrun. unfold of_result at 1 in Hrun.
  destruct (with_suffix e source (u "." ++ py_str preset)) as [out|x] eqn:Hout.
  2:{ injection Hrun as <- <-. split; [done|]. by left. }
  destruct (decide (preset ∈ [Some mp4; Some mkv])) as [Hvideo|Hvideo].
  - rewrite (bool_decide_eq_true_2 _ Hvideo) in Hrun.
    assert (∃ fmt, preset = Some fmt ∧ fmt ∈ [mp4; mkv; mp3]) as (fmt & -> & Hfmt).
    { apply elem_of_cons in Hvideo as [->|Hvideo];
        [|apply elem_of_cons in Hvideo as [->|Hvideo]; [|by apply elem_of_nil in Hvideo]];
        eexists; (split; [done|]); rewrite !elem_of_cons; tauto. }
    unfold bind at 1 in Hrun. unfold ret at 1 in Hrun.
    rewrite ffmpeg_convert_run in Hrun. injection Hrun as <- <-.
    settle_run fmt.
  - rewrite (bool_decide_eq_false_2 _ Hvideo) in Hrun.
    destruct (decide (preset = Some mp3)) as [->|Hmp3].
    + rewrite (bool_decide_eq_true_2 (Some mp3 = Some mp3) eq_refl) in Hrun.
      unfold bind at 1 in Hrun. unfold bind at 1 in Hrun. unfold of_result at 1 in Hrun.
      change (with_suffix e source (u ".mp3"))
        with (with_suffix e source (u "." ++ py_str (Some mp3))) in Hrun.
      rewrite Hout in Hrun. unfold ret at 1 in Hrun.
      rewrite ffmpeg_convert_run in Hrun. injection Hrun as <- <-.
      assert (mp3 ∈ [mp4; mkv; mp3]) as Hfmt by (rewrite !elem_of_cons; tauto).
      settle_run mp3.
    + rewrite (bool_decide_eq_false_2 _ Hmp3) in Hrun.
      unfold bind, raise in Hrun. injection Hrun as <- <-.
      split; [done|]. right. left. split_and!; [|done|done].
      rewrite !elem_of_cons, elem_of_nil. rewrite !elem_of_cons, elem_of_nil in Hvideo. tauto.
Qed.

Example ffmpeg_convert_mp3 :
  ffmpeg_convert smooth (u "/tmp/tg_dl_0/clip.mp4") (Some mp3) first_contact
  = (Ok (u "/tmp/tg_dl_0/clip.mp3"),
     {| db := Storage.fresh;
        log := [Sys (Os.run [u "ffmpeg"; u "-y"; u "-i"; u "/tmp/tg_dl_0/clip.mp4"; u "-vn";
                             u "-c:a"; u "libmp3lame"; u "-q:a"; u "2";
                             u "/tmp/tg_dl_0/clip.mp3"])] |}).
Proof. by vm_compute. Qed.

Example ffmpeg_convert_cuts_the_output :
  ∃ msg,
    (ffmpeg_convert bad_codec (u "/tmp/tg_dl_0/clip.webm") (Some mp4) first_contact).1
    = Raise (RuntimeError msg)
    ∧ length msg = 715%nat.
Proof. eexists. by vm_compute. Qed.

Example ffmpeg_convert_without_ffmpeg :
  ffmpeg_convert no_tools (u "/tmp/tg_dl_0/clip.webm") (Some mkv) first_contact
  = (Raise (OSError (u "[Errno 2] No such file or directory: 'ffmpeg'")),
     {| db := Storage.fresh;
        log := [Sys (Os.run [u "ffmpeg"; u "-y"; u "-i"; u "/tmp/tg_dl_0/clip.webm"; u "-c:v";
                             u "libx264"; u "-c:a"; u "aac"; u "/tmp/tg_dl_0/clip.mkv"])] |}).
Proof. by vm_compute. Qed.

Example replace_suffix_examples :
  replace_suffix (u "/tmp/tg_dl_0/clip.tar.gz") (u ".mp3") = Ok (u "/tmp/tg_dl_0/clip.tar.mp3")
  ∧ replace_suffix (u "/tmp/tg_dl_0/clip") (u ".mp3") = Ok (u "/tmp/tg_dl_0/clip.mp3")
  ∧ replace_suffix (u "/tmp/tg.d/.hidden") (u ".mp3") = Ok (u "/tmp/tg.d/.hidden.mp3")
  ∧ replace_suffix (u "/tmp/tg_dl_0/clip.") (u ".mp3") = Ok (u "/tmp/tg_dl_0/clip..mp3")
  ∧ replace_suffix (u "clip.mp4") (u ".None") = Ok (u "clip.None").
Proof. by vm_compute. Qed.

Lemma run_command_tools e cmd : keeps tool_event eq (run_command e cmd).
Proof. unfold run_command. repeat keeps_step; done. Qed.

Lemma find_latest_file_tools e folder : keeps tool_event eq (find_latest_file e folder).
Proof. unfold find_latest_file. repeat keeps_step; done. Qed.

Lemma download_media_tools e url dir : keeps tool_event eq (download_media e url dir).
Proof.
  unfold download_media.
  repeat first [apply run_command_tools | apply find_latest_file_tools | keeps_step]; done.
Qed.

Lemma ffmpeg_convert_tools e source preset :
  keeps tool_event eq (ffmpeg_convert e source preset).
Proof. unfold ffmpeg_convert. repeat first [apply run_command_tools | keeps_step]; done. Qed.

(** X13: [download_media] and [ffmpeg_convert] only run external tools and
    scan the scratch folder: they make no call to the transport and never
    touch the store, whatever they are given and however they end. *)
Theorem external_tools_leave_the_store (e : env) (url dir source : str) (preset : option str)
    (w : world) :
  let got := (download_media e url dir w).2 in
  let converted := (ffmpeg_convert e source preset w).2 in
  db got = db w ∧ db converted = db w
  ∧ (∃ l, log got = log w ++ l ∧ Forall tool_event l)
  ∧ (∃ l, log converted = log w ++ l ∧ Forall tool_event l).
Proof.
  cbv zeta.
  destruct (download_media_tools e url dir w) as [Hdb1 Hlog1].
  destruct (ffmpeg_convert_tools e source preset w) as [Hdb2 Hlog2].
  by split_and!.
Qed.

(** * More on the download pipeline *)

#[local] Instance at_most_row_preorder uid : PreOrder (at_most_row uid).
Proof.
  split.
  - intros s. by left.
  - intros s1 s2 s3 [->| ->] [->| ->]; [by left|by right|by right|].
    right. apply upsert_user_twice.
Qed.

Lemma at_most_row_get_format uid s : at_most_row uid s (Storage.get_format uid s).2.
Proof. by right. Qed.

Lemma at_most_row_known uid s s' :
  at_most_row uid s s' → is_Some (Storage.users s !! uid) → s' = s.
Proof.
  intros [->| ->] [row Hrow]; [done|].
  unfold Storage.upsert_user, Storage.with_users, Storage.insert_or_ignore. simpl.
  rewrite Hrow. by destruct s.
Qed.

Lemma body_event_pipeline ev : body_event ev → pipeline_event ev.
Proof. by destruct ev as [[]|[]|[]]. Qed.

Lemma tool_event_body ev : tool_event ev → body_event ev.
Proof. by destruct ev as [[]|[]|[]]. Qed.

Lemma acquire_and_send_body e cfg chat_id sender_id url lang tmp :
  keeps body_event (at_most_row sender_id)
    (acquire_and_send e cfg chat_id sender_id url lang tmp).
Proof.
  assert (∀ {A} (m : M A), keeps tool_event eq m
            → keeps body_event (at_most_row sender_id) m) as Htool.
  { intros A m. apply keeps_weaken; [apply tool_event_body|]. intros s s' ->. by left. }
  unfold acquire_and_send.
  repeat first
    [ apply Htool, download_media_tools
    | apply Htool, ffmpeg_convert_tools
    | keeps_rule @keeps_storage; [done|intros ?; first [by right|by left]]
    | keeps_step ]; try done.
Qed.

Lemma bot_guarded_run e c w :
  bot_guarded e c w
  = (match raises e (log w) c with Some x => Raise x | None => Ok tt end, logged (Tg c) w).
Proof.
  unfold bot_guarded, bind, ask, emit, raise, ret, logged. cbn [fst snd db log].
  by destruct (raises e (log w) c).
Qed.

Lemma try_finally_emit_run {A} (body : M A) ev w :
  try_finally body (emit ev) w = ((body w).1, logged ev (body w).2).
Proof. unfold try_finally, emit, logged. by destruct (body w). Qed.

Lemma check_subscription_run e channel uid w :
  check_subscription e channel uid w
  = (Ok (bool_decide (raises e (log w) (Bot.get_chat_member channel uid) = None
                      ∧ member_status e (log w) channel uid
                        ∈ [MEMBER; ADMINISTRATOR; OWNER; RESTRICTED])),
     logged (Tg (Bot.get_chat_member channel uid)) w).
Proof.
  unfold check_subscription, try_except, bind, ask. rewrite bot_guarded_run.
  cbn [fst snd]. unfold ret, logged. cbn [db log].
  destruct (raises e (log w) (Bot.get_chat_member channel uid)) as [x|].
  - rewrite bool_decide_eq_false_2; [done|]. by intros [? _].
  - do 2 f_equal. apply bool_decide_ext. tauto.
Qed.

(** X14: the pipeline is contained.  Given that the unguarded sends
    return, [handle_download] returns whatever happens to the tools, the
    conversion or the guarded sends; it leaves every conversation state and
    every setting alone, and the rows as well, except that a sender without
    a row gets the default row; and it reads nothing of the store but the
    sender's format and the caption. *)
Theorem handle_download_is_contained (e : env) (cfg : Config) (chat_id sender_id : Z)
    (url lang : str) (w : world) :
  let w' := (handle_download e cfg chat_id sender_id url lang w).2 in
  (handle_download e cfg chat_id sender_id url lang w).1 = Ok tt
  ∧ at_most_row sender_id (db w) (db w')
  ∧ (is_Some (Storage.users (db w) !! sender_id) → db w' = db w)
  ∧ ∃ l, log w' = log w ++ l ∧ Forall pipeline_event l.
Proof.
  cbv zeta.
  assert (keeps pipeline_event (at_most_row sender_id)
            (handle_download e cfg chat_id sender_id url lang)) as Hkeeps.
  { unfold handle_download.
    repeat first
      [ apply (keeps_weaken body_event pipeline_event (at_most_row sender_id) _ _
                 body_event_pipeline (λ _ _ H, H)), acquire_and_send_body
      | keeps_step ]; try done. }
  destruct (Hkeeps w) as [Hdb Hlog].
  split_and!; [apply handle_download_returns|done| |done].
  by apply at_most_row_known.
Qed.

Lemma handle_download_unsubscribed_run e cfg chat_id sender_id url lang w :
  (check_subscription e (required_channel cfg) sender_id w).1 = Ok false →
  handle_download e cfg chat_id sender_id url lang w
  = (Ok tt,
     {| db := db w;
        log := log w ++ [Tg (Bot.get_chat_member (required_channel cfg) sender_id);
                         Tg (Bot.send_message chat_id
                               (t lang (Key.need_sub (required_channel cfg))) None)] |}).
Proof.
  rewrite check_subscription_run. cbn [fst]. intros [= Hgate].
  unfold handle_download, bind. rewrite check_subscription_run, Hgate.
  cbn [negb]. rewrite bot_run. unfold logged. cbn [db log]. by rewrite <- (assoc_L (++)).
Qed.

Lemma handle_download_subscribed_run e cfg chat_id sender_id url lang w :
  (check_subscription e (required_channel cfg) sender_id w).1 = Ok true →
  let opening := [Tg (Bot.get_chat_member (required_channel cfg) sender_id);
                  Tg (Bot.send_message chat_id (t lang Key.downloading) None)] in
  let tmp := mkdtemp e (log w ++ opening) in
  let body := acquire_and_send e cfg chat_id sender_id url lang tmp
                {| db := db w; log := log w ++ opening ++ [Sys Os.TemporaryDirectory] |} in
  handle_download e cfg chat_id sender_id url lang w
  = (Ok tt,
     {| db := db body.2;
        log := log body.2 ++ Sys (Os.cleanup tmp)
                 :: match body.1 with
                    | Ok _ => []
                    | Raise x =>
                        [Tg (Bot.edit_text (t lang (Key.error (slice_to 700 (exn_str x)))))]
                    end |}).
Proof.
  rewrite check_subscription_run. cbn [fst]. intros [= Hgate]. cbv zeta.
  unfold handle_download, bind at 1. rewrite check_subscription_run, Hgate. cbn [negb].
  unfold bind at 1. rewrite bot_run.
  unfold try_except, bind at 1. unfold ask at 1. unfold bind at 1. unfold emit at 1.
  rewrite try_finally_emit_run. unfold logged. cbn [db log fst snd].
  rewrite <- !(assoc_L (++)). cbn [app].
  destruct (acquire_and_send _ _ _ _ _ _ _ _) as [[[]|x] w1]; cbn [db log fst snd].
  - done.
  - rewrite bot_run. unfold logged. cbn [db log]. by rewrite <- (assoc_L (++)).
Qed.

Lemma check_subscription_bool e channel uid w :
  ∃ b, (check_subscription e channel uid w).1 = Ok b.
Proof. rewrite check_subscription_run. by eexists. Qed.

(** X15: a sender who is not subscribed (the membership call raises, or
    the status is [left] or [kicked]) gets the subscription notice and
    nothing else: no scratch folder, no tool, no read of the store. *)
Theorem handle_download_refuses_non_subscriber (e : env) (cfg : Config)
    (chat_id sender_id : Z) (url lang : str) (w : world)
    (Hout : raises e (log w) (Bot.get_chat_member (required_channel cfg) sender_id) ≠ None
            ∨ member_status e (log w) (required_channel cfg) sender_id ∈ [LEFT; BANNED]) :
  handle_download e cfg chat_id sender_id url lang w
  = (Ok tt,
     {| db := db w;
        log := log w ++ [Tg (Bot.get_chat_member (required_channel cfg) sender_id);
                         Tg (Bot.send_message chat_id
                               (t lang (Key.need_sub (required_channel cfg))) None)] |}).
Proof.
  apply handle_download_unsubscribed_run. rewrite check_subscription_run. cbn [fst].
  f_equal. apply bool_decide_eq_false_2.
  intros [Hcall Hstatus]. destruct Hout as [Hout|Hout]; [done|].
  revert Hout Hstatus. rewrite !elem_of_cons, !elem_of_nil.
  destruct (member_status e (log w) (required_channel cfg) sender_id);
    intuition discriminate.
Qed.

Lemma handle_download_refuses_non_subscriber_witness :
  handle_download stranger cfg0 42 42 (u "http://x.test/v/1") en first_contact
  = (Ok tt,
     {| db := Storage.fresh;
        log := [Tg (Bot.get_chat_member (u "@channel") 42);
                Tg (Bot.send_message 42 (Template en (Key.need_sub (u "@channel"))) None)] |}).
Proof.
  apply (handle_download_refuses_non_subscriber stranger cfg0 42 42 (u "http://x.test/v/1")
           en first_contact).
  right. rewrite !elem_of_cons. by left.
Defined.

(** X16: for a subscribed sender the scratch folder is created once and is
    removed once, whatever happens in between: after the membership call
    and the notice, the folder is created, the body runs (tools, scans,
    reads of format and caption, edits, the upload), the folder is removed,
    and then the error is reported exactly when the body raised: one edit
    of the notice with the first 700 characters of the text of the
    exception the body ended with. *)
Theorem handle_download_removes_scratch_folder (e : env) (cfg : Config)
    (chat_id sender_id : Z) (url lang : str) (w : world)
    (Hcall : raises e (log w) (Bot.get_chat_member (required_channel cfg) sender_id) = None)
    (Hstatus : member_status e (log w) (required_channel cfg) sender_id
               ∈ [MEMBER; ADMINISTRATOR; OWNER; RESTRICTED]) :
  let opening := [Tg (Bot.get_chat_member (required_channel cfg) sender_id);
                  Tg (Bot.send_message chat_id (t lang Key.downloading) None)] in
  let tmp := mkdtemp e (log w ++ opening) in
  let inside := {| db := db w; log := log w ++ opening ++ [Sys Os.TemporaryDirectory] |} in
  let run := acquire_and_send e cfg chat_id sender_id url lang tmp inside in
  let report := match run.1 with
                | Ok _ => []
                | Raise x =>
                    [Tg (Bot.edit_text (t lang (Key.error (slice_to 700 (exn_str x)))))]
                end in
  ∃ body,
    log run.2 = log inside ++ body
    ∧ Forall body_event body
    ∧ handle_download e cfg chat_id sender_id url lang w
      = (Ok tt,
         {| db := db run.2;
            log := log w ++ opening ++ [Sys Os.TemporaryDirectory] ++ body
                   ++ [Sys (Os.cleanup tmp)] ++ report |}).
Proof.
  cbv zeta. rewrite handle_download_subscribed_run.
  2:{ rewrite check_subscription_run. cbn [fst]. by rewrite bool_decide_eq_true_2. }
  cbv zeta.
  match goal with
  | |- context [acquire_and_send e cfg chat_id sender_id url lang ?tmp ?w0] =>
      destruct (acquire_and_send_body e cfg chat_id sender_id url lang tmp w0)
        as [_ (body & Hlog & Hbody)]
  end.
  exists body. split_and!; [done|done|]. rewrite Hlog. cbn [log].
  by rewrite <- !(assoc_L (++)).
Qed.

Lemma handle_download_removes_scratch_folder_witness :
  handle_download calm cfg0 42 42 (u "http://x.test/v/1") en first_contact
  = (Ok tt,
     {| db := Storage.fresh;
        log := [Tg (Bot.get_chat_member (u "@channel") 42);
                Tg (Bot.send_message 42 (Template en Key.downloading) None);
                Sys Os.TemporaryDirectory;
                Sys (Os.run (yt_cmd (u "http://x.test/v/1") (u "/tmp/tg_dl_0")));
                Sys (Os.rglob (u "/tmp/tg_dl_0"));
                Sys (Os.run (gd_cmd (u "http://x.test/v/1") (u "/tmp/tg_dl_0")));
                Sys (Os.rglob (u "/tmp/tg_dl_0"));
                Sys (Os.cleanup (u "/tmp/tg_dl_0"));
                Tg (Bot.edit_text
                      (Template en (Key.error (u "Download failed. yt-dlp:  | gallery-dl: "))))]
     |}).
Proof.
  destruct (handle_download_removes_scratch_folder calm cfg0 42 42 (u "http://x.test/v/1") en
              first_contact eq_refl) as (body & Hlog & _ & ->).
  - rewrite !elem_of_cons. by left.
  - cbv zeta in Hlog. apply (f_equal (drop 3)) in Hlog. rewrite drop_app_length' in Hlog by done.
    subst body. by vm_compute.
Defined.

Example handle_download_reports_a_missing_tool :
  log (handle_download no_tools cfg0 42 42 (u "http://x.test/v/1") en first_contact).2
  = [Tg (Bot.get_chat_member (u "@channel") 42);
     Tg (Bot.send_message 42 (Template en Key.downloading) None);
     Sys Os.TemporaryDirectory;
     Sys (Os.run (yt_cmd (u "http://x.test/v/1") (u "/tmp/tg_dl_0")));
     Sys (Os.cleanup (u "/tmp/tg_dl_0"));
     Tg (Bot.edit_text
           (Template en (Key.error (u "[Errno 2] No such file or directory: 'yt-dlp'"))))].
Proof. by vm_compute. Qed.

Lemma tool_event_no_upload ev : tool_event ev → ¬ upload_event ev.
Proof. destruct ev as [[]|[]|[]]; simpl; tauto. Qed.

Ltac quiet := repeat (apply Forall_cons_2; [simpl; tauto|]); apply Forall_nil_2.

(** What the body of the pipeline uploads: nothing, or one document after
    its size was measured and found within the limit. *)
Lemma acquire_and_send_upload e cfg chat_id sender_id url lang tmp w :
  ∃ l, log (acquire_and_send e cfg chat_id sender_id url lang tmp w).2 = log w ++ l
    ∧ (Forall (λ ev, ¬ upload_event ev) l
       ∨ ∃ before document size after,
           let caption := strip (Storage.get_media_caption (db w)).1 in
           l = before
               ++ [Sys (Os.stat document);
                   Tg (Bot.edit_text (t lang (Key.sending size)));
                   Db Call.get_media_caption;
                   Tg (Bot.send_document chat_id document
                         (if bool_decide (caption = []) then t lang Key.done
                          else Plain caption))]
               ++ after
           ∧ Forall (λ ev, ¬ upload_event ev) before
           ∧ Forall (λ ev, ¬ upload_event ev) after
           ∧ st_size e (log w ++ before) document = Ok size
           ∧ size ≤ max_file_size_mb cfg * 1048576).
Proof.
  pose proof (λ ev (H : tool_event ev), tool_event_no_upload ev H) as Hquiet.
  unfold acquire_and_send. unfold bind at 1.
  destruct (download_media_tools e url tmp w) as [Hdb1 (l1 & Hlog1 & Hl1)].
  destruct (download_media e url tmp w) as [[source|x] w1]; cbn [db log fst snd] in *.
  2:{ exists l1. split; [done|]. left. eapply Forall_impl; [done|]. apply Hquiet. }
  unfold bind at 1. rewrite storage_run. cbn [fst snd]. unfold bind at 1.
  match goal with
  | |- context [ffmpeg_convert e source ?fmt ?w0] =>
      destruct (ffmpeg_convert_tools e source fmt w0) as [Hdb3 (l3 & Hlog3 & Hl3)];
      destruct (ffmpeg_convert e source fmt w0) as [[document|x] w3]
  end; unfold logged in *; cbn [db log fst snd] in *.
  2:{ exists (l1 ++ [Db (Call.get_format sender_id)] ++ l3).
      split; [by rewrite Hlog3, Hlog1, <- !(assoc_L (++))|]. left.
      rewrite !Forall_app.
      split_and!; [by eapply Forall_impl|quiet|by eapply Forall_impl]. }
  set (before := l1 ++ [Db (Call.get_format sender_id)] ++ l3).
  assert (log w3 = log w ++ before) as Hlog.
  { by rewrite Hlog3, Hlog1, <- !(assoc_L (++)). }
  assert (Forall (λ ev, ¬ upload_event ev) before) as Hbefore.
  { unfold before. rewrite !Forall_app.
    split_and!; [by eapply Forall_impl|quiet|by eapply Forall_impl]. }
  assert (Storage.bot_settings (db w3) = Storage.bot_settings (db w)) as Hsettings.
  { rewrite <- Hdb3, Hdb1. unfold Storage.get_format, Storage.upsert_user. by simpl. }
  clearbody before. clear Hlog1 Hlog3 Hl1 Hl3.
  unfold bind at 1. unfold ask at 1. unfold bind at 1. unfold emit at 1.
  unfold bind at 1. unfold of_result at 1. cbn [db log fst snd].
  destruct (st_size e (log w3) document) as [size|x] eqn:Hsize; cbn [db log fst snd].
  2:{ exists (before ++ [Sys (Os.stat document)]).
      split; [by rewrite Hlog, <- (assoc_L (++))|]. left.
      rewrite Forall_app. split; [done|]. quiet. }
  destruct (max_file_size_mb cfg * 1048576 <? size) eqn:Hbig.
  { rewrite bot_guarded_run. unfold logged. cbn [db log snd].
    exists (before ++ [Sys (Os.stat document);
                       Tg (Bot.edit_text (t lang (Key.too_big size (max_file_size_mb cfg))))]).
    split; [by rewrite Hlog, <- !(assoc_L (++))|]. left.
    rewrite Forall_app. split; [done|]. quiet. }
  apply Z.ltb_ge in Hbig.
  unfold bind at 1. rewrite bot_guarded_run. unfold logged. cbn [db log fst snd].
  destruct (raises e _ (Bot.edit_text (t lang (Key.sending size)))); cbn [db log snd].
  { exists (before ++ [Sys (Os.stat document);
                       Tg (Bot.edit_text (t lang (Key.sending size)))]).
    split; [by rewrite Hlog, <- !(assoc_L (++))|]. left.
    rewrite Forall_app. split; [done|]. quiet. }
  unfold bind at 1. rewrite storage_run. unfold logged. cbn [db log fst snd].
  unfold bind at 1. rewrite bot_guarded_run. unfold logged. cbn [db log fst snd].
  assert ((Storage.get_media_caption (db w3)).1 = (Storage.get_media_caption (db w)).1)
    as Hcaption.
  { unfold Storage.get_media_caption. cbn [fst]. by rewrite Hsettings. }
  rewrite Hcaption.
  destruct (raises e _ (Bot.send_document _ _ _)); cbn [db log snd];
    [|rewrite bot_guarded_run; unfold logged; cbn [db log snd]];
    eexists; (split; [rewrite Hlog, <- !(assoc_L (++)); reflexivity|]);
    right; [exists before, document, size, []
           |exists before, document, size, [Tg Bot.delete]];
    (cbv zeta; split_and!;
     [by rewrite <- ?(assoc_L (++))|done|quiet|by rewrite <- Hlog|done]).
Qed.

(** X17: [handle_download] uploads at most one document, and only a file
    whose size, measured right before, is within the limit of the
    configuration; the caption of the upload is the stored media caption,
    stripped, or the catalog's [done] text when that is empty. *)
Theorem upload_only_within_limit (e : env) (cfg : Config) (chat_id sender_id : Z)
    (url lang : str) (w : world) :
  ∃ l, log (handle_download e cfg chat_id sender_id url lang w).2 = log w ++ l
    ∧ (Forall (λ ev, ¬ upload_event ev) l
       ∨ ∃ before document size after,
           let caption := strip (Storage.get_media_caption (db w)).1 in
           l = before
               ++ [Sys (Os.stat document);
                   Tg (Bot.edit_text (t lang (Key.sending size)));
                   Db Call.get_media_caption;
                   Tg (Bot.send_document chat_id document
                         (if bool_decide (caption = []) then t lang Key.done
                          else Plain caption))]
               ++ after
           ∧ Forall (λ ev, ¬ upload_event ev) before
           ∧ Forall (λ ev, ¬ upload_event ev) after
           ∧ st_size e (log w ++ before) document = Ok size
           ∧ size ≤ max_file_size_mb cfg * 1048576).
Proof.
  destruct (check_subscription_bool e (required_channel cfg) sender_id w) as [[|] Hgate].
  2:{ rewrite (handle_download_unsubscribed_run _ _ _ _ _ _ _ Hgate). cbn [snd log].
      eexists. split; [done|]. left. quiet. }
  rewrite (handle_download_subscribed_run _ _ _ _ _ _ _ Hgate). cbv zeta. cbn [snd log].
  match goal with
  | |- context [acquire_and_send e cfg chat_id sender_id url lang ?tmp ?w0] =>
      destruct (acquire_and_send_upload e cfg chat_id sender_id url lang tmp w0)
        as (l & Hlog & Hl);
      destruct (acquire_and_send e cfg chat_id sender_id url lang tmp w0) as [r w1]
  end; cbn [db log fst snd] in *.
  set (report := match r with
                 | Ok _ => []
                 | Raise x =>
                     [Tg (Bot.edit_text (t lang (Key.error (slice_to 700 (exn_str x)))))]
                 end).
  assert (Forall (λ ev, ¬ upload_event ev) report) as Hreport.
  { unfold report. destruct r; quiet. }
  clearbody report.
  set (opening := [Tg (Bot.get_chat_member (required_channel cfg) sender_id);
                   Tg (Bot.send_message chat_id (t lang Key.downloading) None)]) in *.
  assert (Forall (λ ev, ¬ upload_event ev) (opening ++ [Sys Os.TemporaryDirectory]))
    as Hopening by quiet.
  exists ((opening ++ [Sys Os.TemporaryDirectory]) ++ l ++ Sys (Os.cleanup
            (mkdtemp e (log w ++ opening))) :: report).
  split; [by rewrite Hlog, <- !(assoc_L (++))|].
  destruct Hl as [Hl|(before & document & size & after & Hl)]; cbv zeta in Hl.
  - left. apply Forall_app_2; [done|]. apply Forall_app_2; [done|].
    apply Forall_cons_2; [simpl; tauto|done].
  - destruct Hl as (-> & Hb & Ha & Hsize & Hle). right.
    exists ((opening ++ [Sys Os.TemporaryDirectory]) ++ before), document, size,
      (after ++ Sys (Os.cleanup (mkdtemp e (log w ++ opening))) :: report).
    cbv zeta. split_and!.
    + by rewrite <- !(assoc_L (++)).
    + by apply Forall_app_2.
    + apply Forall_app_2; [done|]. apply Forall_cons_2; [simpl; tauto|done].
    + rewrite <- Hsize. f_equal. by rewrite <- !(assoc_L (++)).
    + done.
Qed.

Example oversized_file_is_not_uploaded :
  log (handle_download smooth cfg0 42 42 (u "http://x.test/v/1") en first_contact).2
  = [Tg (Bot.get_chat_member (u "@channel") 42);
     Tg (Bot.send_message 42 (Template en Key.downloading) None);
     Sys Os.TemporaryDirectory;
     Sys (Os.run (yt_cmd (u "http://x.test/v/1") (u "/tmp/tg_dl_0")));
     Sys (Os.rglob (u "/tmp/tg_dl_0"));
     Db (Call.get_format 42);
     Sys (Os.stat (u "/tmp/tg_dl_0/clip.mp4"));
     Tg (Bot.edit_text (Template en (Key.too_big (2100 * 1048576) 2048)));
     Sys (Os.cleanup (u "/tmp/tg_dl_0"))].
Proof. reflexivity. Qed.

(** * More on the start command and the inline buttons *)

Lemma get_language_known uid s : (Storage.get_language uid s).1 ∈ [ru; en].
Proof.
  assert (ru ∈ [ru; en]) as Hru by apply list_elem_of_here.
  unfold Storage.get_language. simpl. rewrite lookup_insert_or_ignore.
  destruct (Storage.users s !! uid) as [row|]; simpl; [|done].
  destruct (Storage.language row) as [l|]; simpl; [|done].
  by case_bool_decide.
Qed.

Lemma get_language_in_catalog uid s key :
  t (Storage.get_language uid s).1 key = Template (Storage.get_language uid s).1 key.
Proof. unfold t. by rewrite (bool_decide_eq_true_2 _ (get_language_known uid s)). Qed.

Lemma set_language_after_upsert uid lang s :
  (Storage.set_language uid lang (Storage.upsert_user uid s).2).2
  = (Storage.set_language uid lang s).2.
Proof.
  unfold Storage.set_language. pose proof (upsert_user_twice uid s) as H2.
  destruct (Storage.upsert_user uid (Storage.upsert_user uid s).2) as [[] s2].
  destruct (Storage.upsert_user uid s) as [[] s1]. simpl in *. by subst s2.
Qed.

Lemma set_format_after_upsert uid fmt s :
  (Storage.set_format uid fmt (Storage.upsert_user uid s).2).2
  = (Storage.set_format uid fmt s).2.
Proof.
  unfold Storage.set_format. pose proof (upsert_user_twice uid s) as H2.
  destruct (Storage.upsert_user uid (Storage.upsert_user uid s).2) as [[] s2].
  destruct (Storage.upsert_user uid s) as [[] s1]. simpl in *. by subst s2.
Qed.

Lemma set_language_reads uid lang s :
  let s' := (Storage.set_language uid lang s).2 in
  (Storage.has_language uid s').1 = true
  ∧ (Storage.get_language uid s') = (if bool_decide (lang ∈ [ru; en]) then lang else ru, s')
  ∧ (Storage.get_format uid s').1 = (Storage.get_format uid s).1.
Proof.
  cbv zeta.
  unfold Storage.set_language, Storage.has_language, Storage.get_language, Storage.get_format,
    Storage.upsert_user, Storage.with_users. cbn [fst snd Storage.users].
  rewrite !lookup_insert_or_ignore.
  assert (∀ (m : gmap Z Storage.user_row) f, is_Some (m !! uid) →
            Storage.insert_or_ignore uid Storage.default_row (alter f uid m) = alter f uid m)
    as Hagain.
  { intros m f [row Hrow]. unfold Storage.insert_or_ignore.
    by rewrite lookup_alter_eq, Hrow. }
  rewrite !Hagain by (rewrite lookup_insert_or_ignore; by destruct (Storage.users s !! uid)).
  rewrite !lookup_alter_eq, !lookup_insert_or_ignore.
  destruct (Storage.users s !! uid) as [row|]; cbn; by split_and!.
Qed.

Lemma set_format_reads uid fmt s :
  let s' := (Storage.set_format uid fmt s).2 in
  (Storage.get_format uid s') = (Some fmt, s')
  ∧ (Storage.get_language uid s').1 = (Storage.get_language uid s).1
  ∧ (Storage.has_language uid s').1 = (Storage.has_language uid s).1.
Proof.
  cbv zeta.
  unfold Storage.set_format, Storage.has_language, Storage.get_language, Storage.get_format,
    Storage.upsert_user, Storage.with_users. cbn [fst snd Storage.users].
  rewrite !lookup_insert_or_ignore.
  assert (∀ (m : gmap Z Storage.user_row) f, is_Some (m !! uid) →
            Storage.insert_or_ignore uid Storage.default_row (alter f uid m) = alter f uid m)
    as Hagain.
  { intros m f [row Hrow]. unfold Storage.insert_or_ignore.
    by rewrite lookup_alter_eq, Hrow. }
  rewrite !Hagain by (rewrite lookup_insert_or_ignore; by destruct (Storage.users s !! uid)).
  rewrite !lookup_alter_eq, !lookup_insert_or_ignore.
  destruct (Storage.users s !! uid) as [row|]; cbn; by split_and!.
Qed.

(** X18: [/start] in a private chat registers the sender and then looks
    only at the confirmation flag: without it the reply is the locale
    prompt, always in Russian, with the two language buttons; with it the
    reply is the welcome text in the stored language with the menu of that
    language, which has the owner row exactly for the owner. *)
Theorem start_handler_in_private (e : env) (cfg : Config) (update : Update) (chat : Chat)
    (uid : Z) (msg : Message) (w : world)
    (Hchat : effective_chat update = Some chat)
    (Huser : effective_user update = Some uid)
    (Hmsg : message update = Some msg)
    (Hprivate : chat_type chat = PRIVATE) :
  let lang := (Storage.get_language uid (db w)).1 in
  start_handler e cfg update w
  = (Ok tt,
     {| db := (Storage.upsert_user uid (db w)).2;
        log := log w
               ++ [Db (Call.upsert_user uid); Db (Call.has_language uid)]
               ++ (if (Storage.has_language uid (db w)).1 then
                     [Db (Call.get_language uid);
                      Tg (Bot.reply_text (Template lang Key.welcome)
                            (Some (make_menu lang (bool_decide (uid = owner_id cfg)))))]
                   else
                     [Tg (Bot.reply_text (Template ru Key.choose_lang)
                            (Some make_language_buttons))]) |}).
Proof.
  cbv zeta. unfold start_handler.
  rewrite Hchat, Huser, Hprivate. rewrite (bool_decide_eq_false_2 (PRIVATE ≠ PRIVATE)) by tauto.
  unfold bind. rewrite !storage_run. cbn [fst snd db log logged].
  rewrite has_language_after_upsert.
  destruct (Storage.has_language uid (db w)).1; cbn [negb].
  - rewrite storage_run. unfold logged. cbn [db log Storage.has_language fst snd].
    rewrite get_language_after_upsert. cbn [fst snd db log].
    rewrite (reply_text_run _ _ Hmsg), get_language_in_catalog. unfold logged. cbn [db log].
    by rewrite <- !(assoc_L (++)).
  - rewrite (reply_text_run _ _ Hmsg). unfold logged. cbn [db log].
    by rewrite <- !(assoc_L (++)).
Qed.

Lemma start_handler_in_private_witness :
  start_handler calm cfg0 (text_in PRIVATE 1 1 start_command) (confirmed 1 en)
  = (Ok tt,
     {| db := db (confirmed 1 en);
        log := [Db (Call.upsert_user 1); Db (Call.has_language 1); Db (Call.get_language 1);
                Tg (Bot.reply_text (Template en Key.welcome) (Some (make_menu en true)))] |}).
Proof.
  exact (start_handler_in_private calm cfg0 (text_in PRIVATE 1 1 start_command) _ 1 _
           (confirmed 1 en) eq_refl eq_refl eq_refl eq_refl).
Defined.

(** X19: [/start] outside a private chat only asks the transport for the
    bot's name and replies with the group hint, in Russian whatever the
    sender's language, naming the bot (or [bot] when it has no user name);
    the store is not touched, the sender is not even registered. *)
Theorem start_handler_in_group (e : env) (cfg : Config) (update : Update) (chat : Chat)
    (uid : Z) (msg : Message) (w : world)
    (Hchat : effective_chat update = Some chat)
    (Huser : effective_user update = Some uid)
    (Hmsg : message update = Some msg)
    (Hgroup : chat_type chat ≠ PRIVATE) :
  let name := match me_username e (log w) with
              | Some (c :: s) => c :: s
              | _ => u "bot"
              end in
  start_handler e cfg update w
  = (Ok tt,
     {| db := db w;
        log := log w ++ [Tg Bot.get_me;
                         Tg (Bot.reply_text (Template ru (Key.group_hint name)) None)] |}).
Proof.
  cbv zeta. unfold start_handler.
  rewrite Hchat, Huser. rewrite (bool_decide_eq_true_2 _ Hgroup).
  unfold bind, ask. rewrite bot_run, (reply_text_run _ _ Hmsg).
  unfold logged. cbn [db log]. by rewrite <- !(assoc_L (++)).
Qed.

Lemma start_handler_in_group_witness :
  start_handler calm cfg0 (text_in SUPERGROUP 7 42 start_command) first_contact
  = (Ok tt,
     {| db := Storage.fresh;
        log := [Tg Bot.get_me;
                Tg (Bot.reply_text (Template ru (Key.group_hint (u "media_bot"))) None)] |}).
Proof.
  apply (start_handler_in_group calm cfg0 (text_in SUPERGROUP 7 42 start_command) _ 42 _
           first_contact eq_refl eq_refl eq_refl).
  discriminate.
Defined.

Lemma lang_payload (lang : str) :
  take 5 (u "lang:" ++ lang) = u "lang:" ∧ drop 5 (u "lang:" ++ lang) = lang.
Proof. done. Qed.

Lemma fmt_payload (fmt : str) :
  take 5 (u "fmt:" ++ fmt) ≠ u "lang:"
  ∧ take 4 (u "fmt:" ++ fmt) = u "fmt:" ∧ drop 4 (u "fmt:" ++ fmt) = fmt.
Proof. split; [|done]. by destruct fmt. Qed.

(** X20: a press on a language button, [lang:ru] or [lang:en], stores the
    language with the confirmation flag, confirms in the new language,
    sends the menu of the new language and answers the press.  From then on
    the sender counts as confirmed and reads back that language; the
    preferred format and the conversation states stay as they were. *)
Theorem callback_sets_language (e : env) (cfg : Config) (update : Update)
    (query : CallbackQuery) (uid : Z) (lang : str) (w : world)
    (Hquery : callback_query update = Some query)
    (Huser : from_user query = Some uid)
    (Hdata : data query = Some (u "lang:" ++ lang))
    (Hlang : lang ∈ [ru; en]) :
  let w' := (callback_handler e cfg update w).2 in
  callback_handler e cfg update w
  = (Ok tt,
     {| db := (Storage.set_language uid lang (db w)).2;
        log := log w
               ++ [Db (Call.upsert_user uid); Db (Call.set_language uid lang);
                   Tg (Bot.edit_message_text (Template lang Key.lang_saved));
                   Tg (Bot.send_message uid (Template lang Key.menu)
                         (Some (make_menu lang (bool_decide (uid = owner_id cfg)))));
                   Tg (Bot.answer None false)] |})
  ∧ (Storage.has_language uid (db w')).1 = true
  ∧ (Storage.get_language uid (db w')).1 = lang
  ∧ (Storage.get_format uid (db w')).1 = (Storage.get_format uid (db w)).1
  ∧ Storage.user_states (db w') = Storage.user_states (db w).
Proof.
  cbv zeta.
  assert (callback_handler e cfg update w
          = (Ok tt,
             {| db := (Storage.set_language uid lang (db w)).2;
                log := log w
                       ++ [Db (Call.upsert_user uid); Db (Call.set_language uid lang);
                           Tg (Bot.edit_message_text (Template lang Key.lang_saved));
                           Tg (Bot.send_message uid (Template lang Key.menu)
                                 (Some (make_menu lang (bool_decide (uid = owner_id cfg)))));
                           Tg (Bot.answer None false)] |})) as Hrun.
  { unfold callback_handler. rewrite Hquery, Huser, Hdata.
    change (or_str (Some (u "lang:" ++ lang)) []) with (u "lang:" ++ lang).
    destruct (lang_payload lang) as [-> ->].
    rewrite (bool_decide_eq_true_2 (u "lang:" = u "lang:") eq_refl).
    rewrite (bool_decide_eq_false_2 (lang ∉ [ru; en])) by tauto.
    unfold bind. rewrite !storage_run. cbn [fst snd db log logged]. rewrite !bot_run.
    unfold logged, t. cbn [db log]. rewrite (bool_decide_eq_true_2 _ Hlang).
    rewrite set_language_after_upsert. by rewrite <- !(assoc_L (++)). }
  rewrite Hrun. cbn [snd db].
  destruct (set_language_reads uid lang (db w)) as (Hflag & Hread & Hfmt).
  split_and!; [done|done| |done|].
  - rewrite Hread. cbn [fst]. by rewrite (bool_decide_eq_true_2 _ Hlang).
  - unfold Storage.set_language. by simpl.
Qed.

Lemma callback_sets_language_witness :
  let w' := (callback_handler calm cfg0 (button_press 42 (u "lang:en")) first_contact).2 in
  callback_handler calm cfg0 (button_press 42 (u "lang:en")) first_contact
  = (Ok tt,
     {| db := (Storage.set_language 42 en Storage.fresh).2;
        log := [Db (Call.upsert_user 42); Db (Call.set_language 42 en);
                Tg (Bot.edit_message_text (Template en Key.lang_saved));
                Tg (Bot.send_message 42 (Template en Key.menu) (Some (make_menu en false)));
                Tg (Bot.answer None false)] |})
  ∧ (Storage.has_language 42 (db w')).1 = true
  ∧ (Storage.get_language 42 (db w')).1 = en
  ∧ (Storage.get_format 42 (db w')).1 = (Storage.get_format 42 Storage.fresh).1
  ∧ Storage.user_states (db w') = Storage.user_states Storage.fresh.
Proof.
  apply (callback_sets_language calm cfg0 (button_press 42 (u "lang:en")) _ 42 en
           first_contact eq_refl eq_refl eq_refl).
  rewrite !elem_of_cons. right. by left.
Defined.

(** X21: a press on a format button, [fmt:] followed by one of [auto],
    [mp4], [mkv], [mp3], stores the format and answers with an alert in
    the sender's language.  From then on the sender reads back that format;
    the language, the confirmation flag and the conversation states stay
    as they were. *)
Theorem callback_sets_format (e : env) (cfg : Config) (update : Update)
    (query : CallbackQuery) (uid : Z) (fmt : str) (w : world)
    (Hquery : callback_query update = Some query)
    (Huser : from_user query = Some uid)
    (Hdata : data query = Some (u "fmt:" ++ fmt))
    (Hfmt : fmt ∈ [auto; mp4; mkv; mp3]) :
  let w' := (callback_handler e cfg update w).2 in
  let lang := (Storage.get_language uid (db w)).1 in
  callback_handler e cfg update w
  = (Ok tt,
     {| db := (Storage.set_format uid fmt (db w)).2;
        log := log w
               ++ [Db (Call.upsert_user uid); Db (Call.set_format uid fmt);
                   Db (Call.get_language uid);
                   Tg (Bot.answer (Some (Template lang (Key.format_saved fmt))) true)] |})
  ∧ (Storage.get_format uid (db w')).1 = Some fmt
  ∧ (Storage.get_language uid (db w')).1 = lang
  ∧ (Storage.has_language uid (db w')).1 = (Storage.has_language uid (db w)).1
  ∧ Storage.user_states (db w') = Storage.user_states (db w).
Proof.
  cbv zeta.
  destruct (set_format_reads uid fmt (db w)) as (Hread & Hlang & Hflag).
  assert (callback_handler e cfg update w
          = (Ok tt,
             {| db := (Storage.set_format uid fmt (db w)).2;
                log := log w
                       ++ [Db (Call.upsert_user uid); Db (Call.set_format uid fmt);
                           Db (Call.get_language uid);
                           Tg (Bot.answer
                                 (Some (Template (Storage.get_language uid (db w)).1
                                          (Key.format_saved fmt))) true)] |})) as Hrun.
  { unfold callback_handler. rewrite Hquery, Huser, Hdata.
    change (or_str (Some (u "fmt:" ++ fmt)) []) with (u "fmt:" ++ fmt).
    destruct (fmt_payload fmt) as (Hno & -> & ->).
    rewrite (bool_decide_eq_false_2 _ Hno).
    rewrite (bool_decide_eq_true_2 (u "fmt:" = u "fmt:") eq_refl).
    rewrite (bool_decide_eq_false_2 (fmt ∉ [auto; mp4; mkv; mp3])) by tauto.
    unfold bind. rewrite !storage_run. cbn [fst snd db log logged]. rewrite !bot_run.
    unfold logged. cbn [db log]. rewrite set_format_after_upsert.
    rewrite (surjective_pairing (Storage.get_language uid (Storage.set_format uid fmt (db w)).2)).
    rewrite Hlang.
    assert ((Storage.get_language uid (Storage.set_format uid fmt (db w)).2).2
            = (Storage.set_format uid fmt (db w)).2) as ->.
    { pose proof Hread as Hr. unfold Storage.get_format in Hr. unfold Storage.get_language.
      destruct (Storage.upsert_user uid (Storage.set_format uid fmt (db w)).2) as [[] s'].
      by injection Hr. }
    cbn [fst snd]. rewrite get_language_in_catalog. by rewrite <- !(assoc_L (++)). }
  rewrite Hrun. cbn [snd db]. split_and!; [done| |done|done|].
  - by rewrite Hread.
  - unfold Storage.set_format. by simpl.
Qed.

Lemma callback_sets_format_witness :
  let w' := (callback_handler calm cfg0 (button_press 42 (u "fmt:mp3")) first_contact).2 in
  callback_handler calm cfg0 (button_press 42 (u "fmt:mp3")) first_contact
  = (Ok tt,
     {| db := (Storage.set_format 42 mp3 Storage.fresh).2;
        log := [Db (Call.upsert_user 42); Db (Call.set_format 42 mp3);
                Db (Call.get_language 42);
                Tg (Bot.answer (Some (Template ru (Key.format_saved mp3))) true)] |})
  ∧ (Storage.get_format 42 (db w')).1 = Some mp3
  ∧ (Storage.get_language 42 (db w')).1 = ru
  ∧ (Storage.has_language 42 (db w')).1 = (Storage.has_language 42 Storage.fresh).1
  ∧ Storage.user_states (db w') = Storage.user_states Storage.fresh.
Proof.
  apply (callback_sets_format calm cfg0 (button_press 42 (u "fmt:mp3")) _ 42 mp3
           first_contact eq_refl eq_refl eq_refl).
  rewrite !elem_of_cons. right. right. right. by left.
Defined.

(** X22: any other press changes no profile: the sender is registered and
    nothing else is written.  A payload that starts with [lang:] or [fmt:]
    and names no known value is answered with an alert, in English whatever
    the sender's language; a payload with neither prefix (or no payload at
    all) is not answered. *)
Theorem callback_rejects_other_payloads (e : env) (cfg : Config) (update : Update)
    (query : CallbackQuery) (uid : Z) (w : world)
    (Hquery : callback_query update = Some query)
    (Huser : from_user query = Some uid)
    (Hbad : ¬ accepted_payload (or_str (data query) [])) :
  let payload := or_str (data query) [] in
  callback_handler e cfg update w
  = (Ok tt,
     {| db := (Storage.upsert_user uid (db w)).2;
        log := log w ++ Db (Call.upsert_user uid)
               :: (if bool_decide (take 5 payload = u "lang:") then
                     [Tg (Bot.answer (Some (Plain (u "Invalid language"))) true)]
                   else if bool_decide (take 4 payload = u "fmt:") then
                     [Tg (Bot.answer (Some (Plain (u "Invalid format"))) true)]
                   else []) |}).
Proof.
  cbv zeta. unfold callback_handler. rewrite Hquery, Huser.
  unfold accepted_payload in Hbad.
  unfold bind. rewrite storage_run. cbn [fst snd]. unfold logged. cbn [db log].
  case_bool_decide as Hlang.
  - rewrite bool_decide_eq_true_2 by tauto.
    rewrite bot_run. unfold logged. cbn [db log]. by rewrite <- !(assoc_L (++)).
  - case_bool_decide as Hfmt.
    + rewrite bool_decide_eq_true_2 by tauto.
      rewrite bot_run. unfold logged. cbn [db log]. by rewrite <- !(assoc_L (++)).
    + done.
Qed.

Lemma callback_rejects_other_payloads_witness :
  callback_handler calm cfg0 (button_press 42 (u "lang:de")) first_contact
  = (Ok tt,
     {| db := (Storage.upsert_user 42 Storage.fresh).2;
        log := [Db (Call.upsert_user 42);
                Tg (Bot.answer (Some (Plain (u "Invalid language"))) true)] |}).
Proof.
  apply (callback_rejects_other_payloads calm cfg0 (button_press 42 (u "lang:de")) _ 42
           first_contact eq_refl eq_refl).
  unfold accepted_payload. rewrite !elem_of_cons, !elem_of_nil.
  intros [[_ [H|[H|[]]]]|[H _]]; discriminate H.
Defined.

Example callback_unknown_payload_is_not_answered :
  callback_handler calm cfg0 (button_press 42 (u "noop")) first_contact
  = (Ok tt, {| db := (Storage.upsert_user 42 Storage.fresh).2;
               log := [Db (Call.upsert_user 42)] |}).
Proof. reflexivity. Qed.

(** X23: the inline buttons are outside the conversation: whatever the
    update, [callback_handler] returns, never reads or writes a
    conversation state, and leaves every state and the caption setting as
    they were; the rows of all other identities are untouched. *)
Theorem callback_handler_ignores_states (e : env) (cfg : Config) (update : Update)
    (w : world) :
  let w' := (callback_handler e cfg update w).2 in
  (callback_handler e cfg update w).1 = Ok tt
  ∧ Storage.user_states (db w') = Storage.user_states (db w)
  ∧ Storage.bot_settings (db w') = Storage.bot_settings (db w)
  ∧ (∀ other, Some other ≠ callback_query update ≫= from_user →
       Storage.users (db w') !! other = Storage.users (db w) !! other)
  ∧ ∃ l, log w' = log w ++ l ∧ Forall (λ ev, ¬ state_event ev) l.
Proof.
  cbv zeta.
  assert (keeps (λ ev, ¬ state_event ev) same_settings_and_states
            (callback_handler e cfg update)) as Hkeeps.
  { unfold callback_handler. repeat keeps_step; try done; simpl; tauto. }
  assert (returns (callback_handler e cfg update)) as Hret.
  { unfold callback_handler.
    repeat first
      [ apply returns_ret | apply returns_bot | apply returns_storage
      | apply returns_bind; [|intros ?]
      | match goal with
        | |- returns (if ?b then _ else _) => destruct b
        | |- returns (match ?x with _ => _ end) => destruct x
        end ]. }
  destruct (Hkeeps w) as [[Hstates Hsettings] Hlog]. destruct (Hret w) as [[] Hok].
  split_and!; [done|done|done| |done].
  intros other. unfold callback_handler.
  destruct (callback_query update) as [query|]; [|done]. simpl.
  destruct (from_user query) as [uid|]; [|done]. intros Hother.
  assert (other ≠ uid) as Hne by congruence.
  assert (uid ≠ other) as Hne' by congruence.
  assert (∀ s, Storage.users (Storage.upsert_user uid s).2 !! other = Storage.users s !! other)
    as Hupsert.
  { intros s. unfold Storage.upsert_user, Storage.with_users. cbn [snd Storage.users].
    by apply lookup_insert_or_ignore_ne. }
  unfold bind. rewrite storage_run. cbn [fst snd]. unfold logged. cbn [db log].
  repeat case_bool_decide; unfold bind, ret; rewrite ?storage_run, ?bot_run;
    unfold logged; cbn [fst snd db log];
    unfold Storage.set_language, Storage.set_format, Storage.get_language,
      Storage.upsert_user, Storage.with_users;
    cbn [fst snd Storage.users];
    repeat first [rewrite lookup_alter_ne by done
                 |rewrite lookup_insert_or_ignore_ne by done]; done.
Qed.

(** * More on the text messages *)

Lemma cancel_keyword_is_text (txt : str) :
  lower txt ∈ cancel_keywords → txt ≠ [] ∧ txt ≠ start_command.
Proof.
  intros Hcancel. split; intros ->; revert Hcancel; unfold cancel_keywords;
    rewrite !elem_of_cons, elem_of_nil; intros [H|[H|[]]]; by vm_compute in H.
Qed.

(** X24: a cancel keyword, in any letter case, in a private chat returns
    the sender to idle from whatever state: the state is read, then
    cleared, and the reply is the cancelled text with the menu; nothing is
    downloaded, stored as a caption or broadcast, also for the owner. *)
Theorem cancel_returns_to_idle (e : env) (cfg : Config) (update : Update) (chat : Chat)
    (uid : Z) (msg : Message) (w : world)
    (Hchat : effective_chat update = Some chat)
    (Huser : effective_user update = Some uid)
    (Hmsg : message update = Some msg)
    (Hprivate : chat_type chat = PRIVATE)
    (Hcancel : lower (strip (or_str (text msg) [])) ∈ cancel_keywords) :
  let lang := (Storage.get_language uid (db w)).1 in
  let w' := (message_handler e cfg update w).2 in
  message_handler e cfg update w
  = (Ok tt,
     {| db := (Storage.clear_state uid (Storage.upsert_user uid (db w)).2).2;
        log := log w
               ++ [Db (Call.upsert_user uid); Db (Call.get_language uid);
                   Db (Call.get_state uid); Db (Call.clear_state uid);
                   Tg (Bot.reply_text (Template lang Key.cancelled)
                         (Some (make_menu lang (bool_decide (uid = owner_id cfg)))))] |})
  ∧ (Storage.get_state uid (db w')).1 = None
  ∧ Storage.bot_settings (db w') = Storage.bot_settings (db w).
Proof.
  cbv zeta. destruct (cancel_keyword_is_text _ Hcancel) as [Hne Hstart].
  rewrite (message_handler_private e cfg update chat uid msg Hchat Huser Hmsg w Hprivate
             Hne Hstart).
  unfold private_chat, bind. rewrite storage_run. cbn [fst snd].
  rewrite (bool_decide_eq_true_2 _ Hcancel).
  rewrite storage_run. cbn [fst snd]. rewrite (reply_text_run _ _ Hmsg).
  rewrite get_language_in_catalog. unfold logged, entered. cbn [db log snd].
  split_and!.
  - by rewrite <- !(assoc_L (++)).
  - unfold Storage.get_state, Storage.clear_state, Storage.with_user_states.
    cbn [fst snd Storage.user_states]. apply lookup_delete_eq.
  - done.
Qed.

Lemma cancel_returns_to_idle_witness :
  let w' := (message_handler calm cfg0 (private_text 1 (u " Cancel "))
               (awaiting 1 awaiting_broadcast)).2 in
  message_handler calm cfg0 (private_text 1 (u " Cancel ")) (awaiting 1 awaiting_broadcast)
  = (Ok tt,
     {| db := (Storage.clear_state 1
                 (Storage.upsert_user 1 (db (awaiting 1 awaiting_broadcast))).2).2;
        log := [Db (Call.upsert_user 1); Db (Call.get_language 1);
                Db (Call.get_state 1); Db (Call.clear_state 1);
                Tg (Bot.reply_text (Template ru Key.cancelled) (Some (make_menu ru true)))] |})
  ∧ (Storage.get_state 1 (db w')).1 = None
  ∧ Storage.bot_settings (db w') = Storage.bot_settings (db (awaiting 1 awaiting_broadcast)).
Proof.
  apply (cancel_returns_to_idle calm cfg0 (private_text 1 (u " Cancel ")) _ 1 _
           (awaiting 1 awaiting_broadcast) eq_refl eq_refl eq_refl eq_refl).
  vm_compute. apply list_elem_of_here.
Defined.

Lemma awaited_input_idle e cfg update chat uid lang txt state w :
  ¬ takes_input cfg uid state →
  awaited_input e cfg update chat uid lang txt (bool_decide (uid = owner_id cfg)) state w
  = menu_dispatch cfg update uid lang txt (bool_decide (uid = owner_id cfg)) w.
Proof.
  unfold takes_input, awaited_input. rewrite !elem_of_cons, elem_of_nil. intros Hidle.
  rewrite (bool_decide_eq_false_2 (state = Some awaiting_url)) by tauto.
  destruct (decide (uid = owner_id cfg)) as [Howner|Howner].
  - rewrite (bool_decide_eq_true_2 _ Howner), !andb_true_r.
    rewrite (bool_decide_eq_false_2 (state = Some awaiting_caption)) by tauto.
    by rewrite (bool_decide_eq_false_2 (state = Some awaiting_broadcast)) by tauto.
  - by rewrite (bool_decide_eq_false_2 _ Howner), !andb_false_r.
Qed.

Lemma button_is_text (txt : str) :
  txt ∈ [btn_download_ru; btn_download_en; btn_format_ru; btn_format_en;
         btn_language_ru; btn_language_en; btn_help_ru; btn_help_en;
         btn_caption_ru; btn_caption_en; btn_broadcast_ru; btn_broadcast_en] →
  txt ≠ [] ∧ txt ≠ start_command ∧ (lower txt ∉ cancel_keywords) ∧ strip txt = txt.
Proof.
  rewrite !elem_of_cons, elem_of_nil.
  intros Hbtn; repeat (destruct Hbtn as [->|Hbtn]); [..|done];
    (split_and!; [done|done|unfold cancel_keywords; rewrite !elem_of_cons, elem_of_nil;
                            intros [H|[H|[]]]; by vm_compute in H|by vm_compute]).
Qed.

(** X25: the download button, in either language and whatever the sender's
    own language, puts a sender from whom no input is awaited into the
    state [awaiting_url] and asks for the link with the keyboard removed;
    nothing else is written. *)
Theorem download_button_awaits_link (e : env) (cfg : Config) (update : Update) (chat : Chat)
    (uid : Z) (msg : Message) (w : world)
    (Hchat : effective_chat update = Some chat)
    (Huser : effective_user update = Some uid)
    (Hmsg : message update = Some msg)
    (Hprivate : chat_type chat = PRIVATE)
    (Hbutton : strip (or_str (text msg) []) ∈ [btn_download_ru; btn_download_en])
    (Hidle : ¬ takes_input cfg uid (Storage.user_states (db w) !! uid)) :
  let lang := (Storage.get_language uid (db w)).1 in
  let w' := (message_handler e cfg update w).2 in
  message_handler e cfg update w
  = (Ok tt,
     {| db := (Storage.set_state uid awaiting_url (Storage.upsert_user uid (db w)).2).2;
        log := log w
               ++ [Db (Call.upsert_user uid); Db (Call.get_language uid);
                   Db (Call.get_state uid); Db (Call.set_state uid awaiting_url);
                   Tg (Bot.reply_text (Template lang Key.send_link)
                         (Some ReplyKeyboardRemove))] |})
  ∧ (Storage.get_state uid (db w')).1 = Some awaiting_url.
Proof.
  cbv zeta.
  destruct (button_is_text (strip (or_str (text msg) []))) as (Hne & Hstart & Hcancel & _).
  { revert Hbutton. rewrite !elem_of_cons, !elem_of_nil. tauto. }
  rewrite (message_handler_awaited e cfg update chat uid msg Hchat Huser Hmsg w Hprivate
             Hne Hstart Hcancel).
  rewrite awaited_input_idle by done.
  unfold menu_dispatch. rewrite (bool_decide_eq_true_2 _ Hbutton).
  unfold bind. rewrite storage_run. cbn [fst snd]. rewrite (reply_text_run _ _ Hmsg).
  rewrite get_language_in_catalog. unfold logged, entered. cbn [db log snd].
  split.
  - by rewrite <- !(assoc_L (++)).
  - unfold Storage.get_state, Storage.set_state, Storage.with_user_states.
    cbn [fst snd Storage.user_states]. apply lookup_insert_eq.
Qed.

Lemma download_button_awaits_link_witness :
  let w' := (message_handler calm cfg0 (private_text 42 btn_download_en) (confirmed 42 ru)).2 in
  message_handler calm cfg0 (private_text 42 btn_download_en) (confirmed 42 ru)
  = (Ok tt,
     {| db := (Storage.set_state 42 awaiting_url
                 (Storage.upsert_user 42 (db (confirmed 42 ru))).2).2;
        log := [Db (Call.upsert_user 42); Db (Call.get_language 42);
                Db (Call.get_state 42); Db (Call.set_state 42 awaiting_url);
                Tg (Bot.reply_text (Template ru Key.send_link) (Some ReplyKeyboardRemove))] |})
  ∧ (Storage.get_state 42 (db w')).1 = Some awaiting_url.
Proof.
  apply (download_button_awaits_link calm cfg0 (private_text 42 btn_download_en) _ 42 _
           (confirmed 42 ru) eq_refl eq_refl eq_refl eq_refl).
  - vm_compute. apply list_elem_of_further, list_elem_of_here.
  - unfold takes_input. rewrite !elem_of_cons, elem_of_nil.
    intros [H|[_ [H|[H|[]]]]]; discriminate H.
Defined.

(** X26: the two owner buttons, in either language, are for the owner
    only.  Pressed by the owner while no input is awaited, they set the
    state [awaiting_caption] or [awaiting_broadcast] and ask for the text
    with the keyboard removed; pressed by anyone else they set no state and
    are answered with the owner-only text and the menu without the owner
    row. *)
Theorem owner_buttons_are_owner_only (e : env) (cfg : Config) (update : Update) (chat : Chat)
    (uid : Z) (msg : Message) (w : world)
    (Hchat : effective_chat update = Some chat)
    (Huser : effective_user update = Some uid)
    (Hmsg : message update = Some msg)
    (Hprivate : chat_type chat = PRIVATE)
    (Hbutton : strip (or_str (text msg) [])
               ∈ [btn_caption_ru; btn_caption_en; btn_broadcast_ru; btn_broadcast_en])
    (Hidle : ¬ takes_input cfg uid (Storage.user_states (db w) !! uid)) :
  let txt := strip (or_str (text msg) []) in
  let lang := (Storage.get_language uid (db w)).1 in
  let w1 := logged (Db (Call.get_state uid)) (entered uid w) in
  let caption := bool_decide (txt ∈ [btn_caption_ru; btn_caption_en]) in
  let state := if caption then awaiting_caption else awaiting_broadcast in
  let prompt := if caption then Key.ask_caption else Key.ask_broadcast in
  message_handler e cfg update w
  = if bool_decide (uid = owner_id cfg) then
      (Ok tt,
       {| db := (Storage.set_state uid state (db w1)).2;
          log := log w1 ++ [Db (Call.set_state uid state);
                            Tg (Bot.reply_text (Template lang prompt)
                                  (Some ReplyKeyboardRemove))] |})
    else
      (Ok tt,
       {| db := db w1;
          log := log w1 ++ [Tg (Bot.reply_text (Template lang Key.owner_only)
                                  (Some (make_menu lang false)))] |}).
Proof.
  cbv zeta.
  destruct (button_is_text (strip (or_str (text msg) []))) as (Hne & Hstart & Hcancel & _).
  { revert Hbutton. rewrite !elem_of_cons, !elem_of_nil. tauto. }
  rewrite (message_handler_awaited e cfg update chat uid msg Hchat Huser Hmsg w Hprivate
             Hne Hstart Hcancel).
  rewrite awaited_input_idle by done.
  set (txt := strip (or_str (text msg) [])) in *.
  set (w1 := logged (Db (Call.get_state uid)) (entered uid w)).
  assert ((txt ∉ [btn_download_ru; btn_download_en]) ∧ (txt ∉ [btn_format_ru; btn_format_en])
          ∧ (txt ∉ [btn_language_ru; btn_language_en]) ∧ (txt ∉ [btn_help_ru; btn_help_en])
          ∧ (txt ∈ [btn_caption_ru; btn_caption_en] ∨ txt ∈ [btn_broadcast_ru; btn_broadcast_en])
          ∧ (txt ∈ [btn_broadcast_ru; btn_broadcast_en] → txt ∉ [btn_caption_ru; btn_caption_en]))
    as (Hd & Hf & Hl & Hh & Hcb & Hbc).
  { clearbody txt. revert Hbutton. rewrite !elem_of_cons, !elem_of_nil.
    intros [->|[->|[->|[->|[]]]]]; split_and!; try tauto;
      intros H; repeat (destruct H as [H|H]; [discriminate H|]); try done;
      intros H'; repeat (destruct H' as [H'|H']; [discriminate H'|]); done. }
  unfold menu_dispatch.
  rewrite (bool_decide_eq_false_2 _ Hd), (bool_decide_eq_false_2 _ Hf),
    (bool_decide_eq_false_2 _ Hl), (bool_decide_eq_false_2 _ Hh).
  destruct Hcb as [Hc|Hb].
  - rewrite (bool_decide_eq_true_2 _ Hc).
    destruct (bool_decide (uid = owner_id cfg)); cbn [negb].
    + unfold bind. rewrite storage_run. cbn [fst snd]. rewrite (reply_text_run _ _ Hmsg).
      rewrite get_language_in_catalog. unfold logged. cbn [db log].
      by rewrite <- !(assoc_L (++)).
    + rewrite (reply_text_run _ _ Hmsg), get_language_in_catalog. by unfold logged.
  - rewrite (bool_decide_eq_false_2 _ (Hbc Hb)), (bool_decide_eq_true_2 _ Hb).
    destruct (bool_decide (uid = owner_id cfg)); cbn [negb].
    + unfold bind. rewrite storage_run. cbn [fst snd]. rewrite (reply_text_run _ _ Hmsg).
      rewrite get_language_in_catalog. unfold logged. cbn [db log].
      by rewrite <- !(assoc_L (++)).
    + rewrite (reply_text_run _ _ Hmsg), get_language_in_catalog. by unfold logged.
Qed.

Lemma owner_buttons_are_owner_only_witness :
  Storage.user_states
    (db (message_handler calm cfg0 (private_text 1 btn_broadcast_ru) (confirmed 1 ru)).2) !! 1
  = Some awaiting_broadcast
  ∧ Storage.user_states
      (db (message_handler calm cfg0 (private_text 42 btn_broadcast_ru) (confirmed 42 ru)).2)
    !! 42 = None.
Proof.
  split.
  - rewrite (owner_buttons_are_owner_only calm cfg0 (private_text 1 btn_broadcast_ru) _ 1 _
               (confirmed 1 ru) eq_refl eq_refl eq_refl eq_refl).
    + reflexivity.
    + vm_compute. repeat first [apply list_elem_of_here | apply list_elem_of_further].
    + unfold takes_input. rewrite !elem_of_cons, elem_of_nil.
      intros [H|[_ [H|[H|[]]]]]; discriminate H.
  - rewrite (owner_buttons_are_owner_only calm cfg0 (private_text 42 btn_broadcast_ru) _ 42 _
               (confirmed 42 ru) eq_refl eq_refl eq_refl eq_refl).
    + reflexivity.
    + vm_compute. repeat first [apply list_elem_of_here | apply list_elem_of_further].
    + unfold takes_input. rewrite !elem_of_cons, elem_of_nil.
      intros [H|[_ [H|[H|[]]]]]; discriminate H.
Defined.

(** X27: outside private chats the conversation is not consulted.  In a
    group or supergroup a text that is not blank registers the sender,
    reads the language and asks for the bot's name; the pipeline then runs
    exactly when the lowered text contains [@] followed by the lowered
    user name and the text holds a link, for the leftmost link, with the
    group as the chat.  A bot without a user name reacts to every text that
    holds an [@] and a link.  In any other kind of chat nothing more
    happens.  No state is read or changed and no reply is sent in either
    case. *)
Theorem group_message_needs_mention_and_link (e : env) (cfg : Config) (update : Update)
    (chat : Chat) (uid : Z) (msg : Message) (w : world)
    (Hchat : effective_chat update = Some chat)
    (Huser : effective_user update = Some uid)
    (Hmsg : message update = Some msg)
    (Hpublic : chat_type chat ≠ PRIVATE)
    (Htext : strip (or_str (text msg) []) ≠ []) :
  let txt := strip (or_str (text msg) []) in
  let lang := (Storage.get_language uid (db w)).1 in
  let name := or_str (me_username e (log (entered uid w))) [] in
  let w1 := logged (Tg Bot.get_me) (entered uid w) in
  let w' := (message_handler e cfg update w).2 in
  message_handler e cfg update w
  = (if bool_decide (chat_type chat ∈ [GROUP; SUPERGROUP]) then
       match extract_url txt with
       | Some url =>
           if contains (u "@" ++ lower name) (lower txt) then
             handle_download e cfg (chat_id chat) uid url lang w1
           else (Ok tt, w1)
       | None => (Ok tt, w1)
       end
     else (Ok tt, entered uid w))
  ∧ Storage.user_states (db w') = Storage.user_states (db w)
  ∧ ∃ l, log w' = log w ++ l
         ∧ Forall (λ ev, ¬ state_event ev ∧ ¬ reply_event ev) l.
Proof.
  cbv zeta.
  assert (message_handler e cfg update w
          = (if bool_decide (chat_type chat ∈ [GROUP; SUPERGROUP]) then
               match extract_url (strip (or_str (text msg) [])) with
               | Some url =>
                   if contains (u "@" ++ lower (or_str (me_username e (log (entered uid w))) []))
                        (lower (strip (or_str (text msg) []))) then
                     handle_download e cfg (chat_id chat) uid url
                       (Storage.get_language uid (db w)).1
                       (logged (Tg Bot.get_me) (entered uid w))
                   else (Ok tt, logged (Tg Bot.get_me) (entered uid w))
               | None => (Ok tt, logged (Tg Bot.get_me) (entered uid w))
               end
             else (Ok tt, entered uid w))) as Hrun.
  { unfold message_handler. rewrite Hchat, Huser, Hmsg.
    rewrite (bool_decide_eq_false_2 _ Htext).
    unfold bind at 1. rewrite storage_run. cbn [fst snd]. unfold bind at 1.
    rewrite storage_run. cbn [fst snd db log logged].
    rewrite get_language_after_upsert. cbn [fst snd].
    rewrite (bool_decide_eq_false_2 _ Hpublic).
    assert (logged (Db (Call.get_language uid))
              {| db := (Storage.upsert_user uid (db w)).2;
                 log := log w ++ [Db (Call.upsert_user uid)] |}
            = entered uid w) as ->.
    { unfold entered, logged. cbn [db log]. by rewrite <- (assoc_L (++)). }
    case_bool_decide as Hgroup; [|done].
    unfold group_chat, bind, ask. rewrite bot_run. cbn [fst snd log logged].
    change (bool_decide (u "@" ++ _ = [])) with false. cbn [orb].
    destruct (extract_url (strip (or_str (text msg) []))) as [[|c url]|] eqn:Hurl.
    - by apply extract_url_nonempty in Hurl.
    - by destruct (contains _ _).
    - by destruct (contains _ _). }
  rewrite Hrun. clear Hrun.
  set (lang := (Storage.get_language uid (db w)).1).
  set (quiet := λ ev, ¬ state_event ev ∧ ¬ reply_event ev).
  assert (Storage.user_states (db (entered uid w)) = Storage.user_states (db w)) as Hentered
    by done.
  assert (∀ url, keeps quiet (at_most_row uid)
                   (handle_download e cfg (chat_id chat) uid url lang)) as Hkeeps.
  { intros url. unfold handle_download.
    repeat first
      [ apply (keeps_weaken body_event quiet (at_most_row uid) (at_most_row uid));
        [intros [[]|[]|[]]; unfold quiet; simpl; tauto|done|apply acquire_and_send_body]
      | keeps_step ]; unfold quiet; simpl; tauto. }
  assert (Forall quiet [Db (Call.upsert_user uid); Db (Call.get_language uid); Tg Bot.get_me])
    as Hhead.
  { repeat (apply Forall_cons_2; [unfold quiet; simpl; tauto|]). apply Forall_nil_2. }
  assert (log (logged (Tg Bot.get_me) (entered uid w))
          = log w ++ [Db (Call.upsert_user uid); Db (Call.get_language uid); Tg Bot.get_me])
    as Hlog1.
  { unfold logged, entered. cbn [log]. by rewrite <- !(assoc_L (++)). }
  assert (∀ url,
            let w2 := (handle_download e cfg (chat_id chat) uid url lang
                         (logged (Tg Bot.get_me) (entered uid w))).2 in
            Storage.user_states (db w2) = Storage.user_states (db w)
            ∧ ∃ l, log w2 = log w ++ l ∧ Forall quiet l) as Hpipeline.
  { intros url. cbv zeta.
    destruct (Hkeeps url (logged (Tg Bot.get_me) (entered uid w))) as [Hdb (l & Hlog & Hl)].
    split.
    - destruct Hdb as [-> | ->]; done.
    - exists ([Db (Call.upsert_user uid); Db (Call.get_language uid); Tg Bot.get_me] ++ l).
      split; [by rewrite Hlog, Hlog1, <- !(assoc_L (++))|]. by apply Forall_app_2. }
  split; [done|].
  case_bool_decide as Hgroup.
  - destruct (extract_url _) as [url|].
    + destruct (contains _ _); [apply Hpipeline|]. cbn [snd]. split; [done|]. by eexists.
    + cbn [snd]. split; [done|]. by eexists.
  - cbn [snd]. split; [done|].
    exists [Db (Call.upsert_user uid); Db (Call.get_language uid)]. split; [done|].
    repeat (apply Forall_cons_2; [unfold quiet; simpl; tauto|]). apply Forall_nil_2.
Qed.

Lemma group_message_needs_mention_and_link_witness :
  (message_handler smooth cfg0 (text_in GROUP 7 42 (u "look http://x.test/v/1")) first_contact).2
  = logged (Tg Bot.get_me) (entered 42 first_contact)
  ∧ ∃ rest,
      log (message_handler smooth cfg0
             (text_in GROUP 7 42 (u "@Media_Bot get http://x.test/v/1")) first_contact).2
      = log (logged (Tg Bot.get_me) (entered 42 first_contact))
        ++ Tg (Bot.get_chat_member (u "@channel") 42) :: rest.
Proof.
  split.
  - pose proof (group_message_needs_mention_and_link smooth cfg0
                  (text_in GROUP 7 42 (u "look http://x.test/v/1")) _ 42 _ first_contact
                  eq_refl eq_refl eq_refl) as H.
    cbv zeta in H. destruct H as [-> _]; [discriminate|by vm_compute|]. by vm_compute.
  - pose proof (group_message_needs_mention_and_link smooth cfg0
                  (text_in GROUP 7 42 (u "@Media_Bot get http://x.test/v/1")) _ 42 _ first_contact
                  eq_refl eq_refl eq_refl) as H.
    cbv zeta in H. destruct H as [-> _]; [discriminate|by vm_compute|].
    eexists. by vm_compute.
Defined.

(** * More on what the handlers keep *)

#[local] Instance grows_preorder cfg : PreOrder (grows cfg).
Proof.
  split.
  - intros s. by split.
  - intros s1 s2 s3 [Hwf12 Hrows12] [Hwf23 Hrows23]. split; [tauto|].
    intros uid ?. by apply Hrows23, Hrows12.
Qed.

Lemma default_row_ok : row_ok Storage.default_row.
Proof. unfold row_ok, Storage.default_row. simpl. rewrite !elem_of_cons. tauto. Qed.

Lemma grows_upsert_user cfg uid s : grows cfg s (Storage.upsert_user uid s).2.
Proof.
  unfold grows, well_formed, Storage.upsert_user, Storage.with_users, Storage.insert_or_ignore.
  cbn [snd Storage.users Storage.user_states Storage.bot_settings].
  destruct (Storage.users s !! uid) as [row|] eqn:Hrow; [done|]. split.
  - intros (Hrows & Hstates & Hcaption). split_and!; [|done|done].
    apply map_Forall_insert_2; [apply default_row_ok|done].
  - intros other Hother. destruct (decide (other = uid)) as [->|Hne].
    + by rewrite lookup_insert_eq.
    + by rewrite lookup_insert_ne.
Qed.

Lemma grows_alter cfg uid f s :
  (∀ row, row_ok row → row_ok (f row)) →
  grows cfg s (Storage.with_users (alter f uid) s).
Proof.
  intros Hf. unfold grows, well_formed, Storage.with_users.
  cbn [Storage.users Storage.user_states Storage.bot_settings]. split.
  - intros (Hrows & Hstates & Hcaption). split_and!; [|done|done].
    intros other row. destruct (decide (other = uid)) as [->|Hne].
    + rewrite lookup_alter_eq. destruct (Storage.users s !! uid) as [row0|] eqn:Hrow; [|done].
      intros [= <-]. by apply Hf, (Hrows uid).
    + rewrite lookup_alter_ne by done. apply Hrows.
  - intros other Hother. destruct (decide (other = uid)) as [->|Hne].
    + rewrite lookup_alter_eq. destruct Hother as [row ->]. by eexists.
    + by rewrite lookup_alter_ne.
Qed.

Lemma grows_get_language cfg uid s : grows cfg s (Storage.get_language uid s).2.
Proof. apply grows_upsert_user. Qed.

Lemma grows_get_format cfg uid s : grows cfg s (Storage.get_format uid s).2.
Proof. apply grows_upsert_user. Qed.

Lemma grows_set_language cfg uid lang s :
  lang ∈ [ru; en] → grows cfg s (Storage.set_language uid lang s).2.
Proof.
  intros Hlang. etrans; [apply (grows_upsert_user cfg uid)|].
  unfold Storage.set_language. cbn [Storage.upsert_user snd]. apply grows_alter.
  intros row (_ & _ & Hfmt). unfold row_ok. cbn. split_and!; [| |done].
  - revert Hlang. rewrite !elem_of_cons, !elem_of_nil. intros [->|[->|[]]]; tauto.
  - rewrite !elem_of_cons. tauto.
Qed.

Lemma grows_set_format cfg uid fmt s :
  fmt ∈ [auto; mp4; mkv; mp3] → grows cfg s (Storage.set_format uid fmt s).2.
Proof.
  intros Hfmt. etrans; [apply (grows_upsert_user cfg uid)|].
  unfold Storage.set_format. cbn [Storage.upsert_user snd]. apply grows_alter.
  intros row (Hlang & Hflag & _). unfold row_ok. cbn. split_and!; [done|done|].
  revert Hfmt. rewrite !elem_of_cons, !elem_of_nil. intros [->|[->|[->|[->|[]]]]]; tauto.
Qed.

Lemma grows_set_state cfg uid state s :
  state_ok cfg uid state → grows cfg s (Storage.set_state uid state s).2.
Proof.
  intros Hstate. unfold grows, well_formed, Storage.set_state, Storage.with_user_states.
  cbn [snd Storage.users Storage.user_states Storage.bot_settings]. split; [|done].
  intros (Hrows & Hstates & Hcaption). split_and!; [done| |done].
  by apply map_Forall_insert_2.
Qed.

Lemma grows_clear_state cfg uid s : grows cfg s (Storage.clear_state uid s).2.
Proof.
  unfold grows, well_formed, Storage.clear_state, Storage.with_user_states.
  cbn [snd Storage.users Storage.user_states Storage.bot_settings]. split; [|done].
  intros (Hrows & Hstates & Hcaption). split_and!; [done| |done].
  by apply map_Forall_delete.
Qed.

Lemma grows_set_media_caption cfg value s :
  grows cfg s (Storage.set_media_caption value s).2.
Proof.
  unfold grows, well_formed, Storage.set_media_caption, Storage.with_bot_settings.
  cbn [snd Storage.users Storage.user_states Storage.bot_settings]. split; [|done].
  intros (Hrows & Hstates & Hcaption). split_and!; [done|done|].
  rewrite lookup_insert_eq. by eexists.
Qed.

Lemma grows_at_most_row cfg uid s s' : at_most_row uid s s' → grows cfg s s'.
Proof. intros [-> | ->]; [done|apply grows_upsert_user]. Qed.

Ltac grows_store :=
  intros ?;
  first
    [ apply grows_upsert_user | apply grows_get_language | apply grows_get_format
    | apply grows_set_language; first [tauto | by apply dec_stable]
    | apply grows_set_format; first [tauto | by apply dec_stable]
    | apply grows_set_state; unfold state_ok; rewrite ?elem_of_cons; tauto
    | apply grows_clear_state | apply grows_set_media_caption
    | reflexivity ].

Ltac grows_step :=
  first
    [ keeps_rule @keeps_storage; [done|grows_store]
    | match goal with
      | |- keeps _ _ (if bool_decide ?P then _ else _) =>
          destruct (decide P);
          [rewrite (bool_decide_eq_true_2 P) by done
          |rewrite (bool_decide_eq_false_2 P) by done]
      | |- keeps _ _ (if negb (bool_decide ?P) then _ else _) =>
          destruct (decide P);
          [rewrite (bool_decide_eq_true_2 P) by done
          |rewrite (bool_decide_eq_false_2 P) by done]; cbn [negb]
      | |- keeps _ _ (if bool_decide ?P && bool_decide ?Q then _ else _) =>
          destruct (decide P); destruct (decide Q);
          rewrite ?(bool_decide_eq_true_2 P), ?(bool_decide_eq_false_2 P),
            ?(bool_decide_eq_true_2 Q), ?(bool_decide_eq_false_2 Q) by done; cbn [andb]
      end
    | keeps_step ].

Lemma handle_download_grows e cfg chat_id sender_id url lang :
  keeps (λ _, True) (grows cfg) (handle_download e cfg chat_id sender_id url lang).
Proof.
  apply (keeps_weaken pipeline_event (λ _, True) (at_most_row sender_id) (grows cfg));
    [done|apply grows_at_most_row|].
  unfold handle_download.
  repeat first
    [ apply (keeps_weaken body_event pipeline_event (at_most_row sender_id) _ _
               body_event_pipeline (λ _ _ H, H)), acquire_and_send_body
    | keeps_step ]; done.
Qed.

Lemma broadcast_grows e cfg text users sent failed :
  keeps (λ _, True) (grows cfg) (broadcast e text users sent failed).
Proof.
  revert sent failed. induction users as [|user users IH]; intros sent failed; simpl.
  - by keeps_step.
  - keeps_rule @keeps_bind; [repeat keeps_step; done|]. intros [|]; apply IH.
Qed.

Lemma start_handler_grows e cfg update :
  keeps (λ _, True) (grows cfg) (start_handler e cfg update).
Proof. unfold start_handler. repeat grows_step; done. Qed.

Lemma callback_handler_grows e cfg update :
  keeps (λ _, True) (grows cfg) (callback_handler e cfg update).
Proof.
  unfold callback_handler. repeat grows_step; done.
Qed.

Lemma message_handler_grows e cfg update :
  keeps (λ _, True) (grows cfg) (message_handler e cfg update).
Proof.
  unfold message_handler, private_chat, group_chat, awaited_input, menu_dispatch.
  repeat first [apply handle_download_grows | apply broadcast_grows | grows_step]; done.
Qed.

(** X28: every handler keeps the store well formed and loses no row.  In
    a store that the handlers built from an empty database, every stored
    language is [ru] or [en], every flag is 0 or 1, every format is one of
    the four presets, every conversation state is [awaiting_url] or, for
    the owner alone, [awaiting_caption] or [awaiting_broadcast], and the
    caption setting exists; and an identity that has a row keeps one. *)
Theorem handlers_keep_the_store_well_formed (e : env) (cfg : Config) (i : inbound) (w : world)
    (Hwf : well_formed cfg (db w)) :
  well_formed cfg (db (handle e cfg i w).2)
  ∧ ∀ uid, is_Some (Storage.users (db w) !! uid) →
           is_Some (Storage.users (db (handle e cfg i w).2) !! uid).
Proof.
  assert (keeps (λ _, True) (grows cfg) (handle e cfg i)) as Hkeeps.
  { destruct i; [apply start_handler_grows|apply callback_handler_grows
                |apply message_handler_grows]. }
  destruct (Hkeeps w) as [[Hgrows Hrows] _]. auto.
Qed.

Lemma fresh_is_well_formed cfg : well_formed cfg Storage.fresh.
Proof.
  unfold well_formed. split_and!; [apply map_Forall_empty|apply map_Forall_empty|].
  by eexists.
Qed.

Lemma handlers_keep_the_store_well_formed_witness :
  well_formed cfg0 (db (handle calm cfg0 (TextMessage (private_text 1 btn_caption_en))
                          first_contact).2)
  ∧ ∀ uid, is_Some (Storage.users (db first_contact) !! uid) →
           is_Some (Storage.users
                      (db (handle calm cfg0 (TextMessage (private_text 1 btn_caption_en))
                             first_contact).2) !! uid).
Proof.
  apply (handlers_keep_the_store_well_formed calm cfg0
           (TextMessage (private_text 1 btn_caption_en)) first_contact).
  apply fresh_is_well_formed.
Defined.

(** * More on the keyboards *)

Ltac decide_membership :=
  repeat match goal with
         | |- context [bool_decide (?c ∈ ?l)] =>
             let b := eval vm_compute in (bool_decide (c ∈ l)) in
             change (bool_decide (c ∈ l)) with b; cbv iota
         end.

(** X29: the keyboards offer only what the handlers take.  Every caption
    of [make_menu], for any language and either kind of user, is a text
    that passes the guards of [message_handler] unchanged (not blank, not
    altered by stripping, not [/start], not a cancel keyword) and that the
    menu recognises: the answer to it is never the fallback menu text.  The
    keyboard of a user who is not the owner holds no owner button.  Every
    payload of the language and format buttons is one that
    [callback_handler] acts on. *)
Theorem keyboards_match_the_handlers (lang : str) (is_owner : bool) :
  (∀ caption, caption ∈ captions (make_menu lang is_owner) →
     caption ≠ [] ∧ strip caption = caption ∧ caption ≠ start_command
     ∧ (lower caption ∉ cancel_keywords)
     ∧ (is_owner = false →
        caption ∉ [btn_caption_ru; btn_caption_en; btn_broadcast_ru; btn_broadcast_en])
     ∧ ∀ cfg update msg uid lang' is_owner' w,
         message update = Some msg →
         menu_dispatch cfg update uid lang' caption is_owner' w
         ≠ reply_text update (t lang' Key.menu) (Some (make_menu lang' is_owner')) w)
  ∧ (∀ payload, payload ∈ payloads make_language_buttons ++ payloads make_format_buttons →
       accepted_payload payload).
Proof.
  split.
  - intros caption Hcaption.
    assert (caption ∈ [btn_download_ru; btn_download_en; btn_format_ru; btn_format_en;
                       btn_language_ru; btn_language_en; btn_help_ru; btn_help_en;
                       btn_caption_ru; btn_caption_en; btn_broadcast_ru; btn_broadcast_en]
            ∧ (is_owner = false →
               caption ∉ [btn_caption_ru; btn_caption_en; btn_broadcast_ru; btn_broadcast_en]))
      as [Hbutton Howner].
    { revert Hcaption. unfold make_menu.
      destruct (bool_decide (lang = ru)), is_owner; cbn [captions concat app];
        rewrite !elem_of_cons, !elem_of_nil;
        intros Hc; repeat (destruct Hc as [->|Hc]; [|]); try done;
        (split; [tauto|]); try done; intros _ Hin;
        repeat (destruct Hin as [Hin|Hin]; [discriminate Hin|]); done. }
    destruct (button_is_text caption Hbutton) as (Hne & Hstart & Hcancel & Hstrip).
    split_and!; [done..|].
    intros cfg update msg uid lang' is_owner' w Hmsg. clear Howner Hne Hstart Hcancel Hstrip.
    revert Hbutton. rewrite !elem_of_cons, !elem_of_nil.
    intros Hc; repeat (destruct Hc as [->|Hc]; [|]); try done;
      unfold menu_dispatch; decide_membership; destruct is_owner'; cbn [negb];
      unfold bind; rewrite ?storage_run; cbn [fst snd]; rewrite !(reply_text_run _ _ Hmsg);
      unfold logged, t; cbn [db log]; rewrite <- ?(assoc_L (++));
      intros Heq; apply (f_equal (λ r, log r.2)) in Heq; cbn [log snd] in Heq;
      apply app_inv_head in Heq; discriminate Heq.
  - intros payload. unfold accepted_payload.
    change (payloads make_language_buttons ++ payloads make_format_buttons)
      with [u "lang:ru"; u "lang:en"; u "fmt:auto"; u "fmt:mp4"; u "fmt:mkv"; u "fmt:mp3"].
    rewrite !elem_of_cons, !elem_of_nil.
    intros Hp; repeat (destruct Hp as [->|Hp]; [|]); try done;
      [left|left|right|right|right|right]; (split; [by vm_compute|]);
      vm_compute; tauto.
Qed.

(** * More on the startup *)

Lemma not_getenv_false p key :
  not_getenv p key = false → ∃ value, environ p !! key = Some value ∧ value ≠ [].
Proof.
  unfold not_getenv. destruct (environ p !! key) as [[|c value]|]; try done.
  intros _. by eexists.
Qed.

(** X30: [load_config] reports the required variables that are unset or
    empty, all of them at once and in the order [BOT_TOKEN], [OWNER_ID],
    [REQUIRED_CHANNEL], before anything is parsed; it never fails with a
    [KeyError]; and a configuration it returns holds the token and the
    channel of the environment, both non-empty, the owner as [int] reads
    [OWNER_ID], and the limit as [int] reads [MAX_FILE_SIZE_MB], or [2048]
    when that variable is unset (an empty one is given to [int] as it
    is). *)
Theorem load_config_reports_missing_variables (p : process) :
  let missing := filter (λ key, not_getenv p key = true)
                   [BOT_TOKEN; OWNER_ID; REQUIRED_CHANNEL] in
  (missing ≠ [] →
   load_config p
   = inl (MissingVariables (u "Missing env variables: " ++ join (u ", ") missing)))
  ∧ (∀ key, load_config p ≠ inl (KeyError key))
  ∧ (∀ cfg, load_config p = inr cfg →
       missing = []
       ∧ environ p !! BOT_TOKEN = Some (bot_token cfg) ∧ bot_token cfg ≠ []
       ∧ environ p !! REQUIRED_CHANNEL = Some (required_channel cfg)
       ∧ required_channel cfg ≠ []
       ∧ (∃ owner_text, environ p !! OWNER_ID = Some owner_text
                        ∧ int_of p owner_text = Some (owner_id cfg))
       ∧ int_of p (default (u "2048") (environ p !! MAX_FILE_SIZE_MB))
         = Some (max_file_size_mb cfg)).
Proof.
  cbv zeta. unfold load_config.
  set (missing := filter _ _).
  destruct (decide (missing ≠ [])) as [Hmissing|Hnone].
  { rewrite (bool_decide_eq_true_2 _ Hmissing). split_and!; [done|done|done]. }
  rewrite (bool_decide_eq_false_2 _ Hnone). apply dec_stable in Hnone.
  assert (∀ key, key ∈ [BOT_TOKEN; OWNER_ID; REQUIRED_CHANNEL] →
                 ∃ value, environ p !! key = Some value ∧ value ≠ []) as Hset.
  { intros key Hkey. apply not_getenv_false.
    destruct (not_getenv p key) eqn:Hk; [|done].
    assert (key ∈ missing) as Hin by (by apply list_elem_of_filter).
    rewrite Hnone in Hin. by apply elem_of_nil in Hin. }
  destruct (Hset BOT_TOKEN) as (token & Htoken & Htoken_ne); [rewrite !elem_of_cons; tauto|].
  destruct (Hset OWNER_ID) as (owner_text & Howner & _); [rewrite !elem_of_cons; tauto|].
  destruct (Hset REQUIRED_CHANNEL) as (channel & Hchannel & Hchannel_ne);
    [rewrite !elem_of_cons; tauto|].
  unfold environ_item, int. rewrite Htoken, Howner, Hchannel.
  split; [done|].
  destruct (int_of p owner_text) as [owner|] eqn:Hint; [|by split].
  destruct (int_of p (default (u "2048") (environ p !! MAX_FILE_SIZE_MB))) as [limit|] eqn:Hmax;
    [|by split].
  split; [done|]. intros cfg [= <-]. cbn. split_and!; try done. by exists owner_text.
Qed.

Example load_config_lists_what_is_missing :
  load_config token_only
  = inl (MissingVariables (u "Missing env variables: OWNER_ID, REQUIRED_CHANNEL")).
Proof. by vm_compute. Qed.

Example load_config_default_limit :
  load_config configured
  = inr {| bot_token := u "123:abc"; owner_id := 1; required_channel := u "@channel";
           max_file_size_mb := 2048 |}.
Proof. by vm_compute. Qed.
